(** * Catalog write/read pipeline: products, variants, categories

    A shallow embedding of the two route modules of the catalog backend,
    [backend/src/routes/products.ts] and [backend/src/routes/variants.ts],
    over an explicit model of the relational store they query.

    Layout:
    - [Js]       the JavaScript values and operators the handlers apply to a
                 decoded request body ([typeof], truthiness, [??], [trim],
                 [Number]);
    - [Db]       the three tables, the statements the handlers prepare, and
                 the constraints the storage engine enforces on them;
    - [Http]     the typed outcome of a handler (status class and body);
    - [Products] the handlers of routes/products.ts;
    - [Variants] the handlers of routes/variants.ts;
    - [Payload]  the request contracts in the words of the specification;
    - [Example]  a small catalog and a few request bodies;
    - [Search], [Updates], [Api], [Wire]: what the further properties are
      stated with (substring search, well-formed variant updates,
      sequences of write requests, decoded request bodies);
    - [Pages]    the state updates of the two frontend pages,
                 frontend/src/pages/ProductDetailPage.tsx and
                 CreateProductPage.tsx, with the render whose closures
                 an event goes through;
    - the properties: tables and ordering, the store invariant, the
      handlers one by one, then further properties of the handlers and of
      the pages.

    Modelling choices, fixed here once:
    - JSON numbers are integers ([Z]); strings are sequences of one-byte
      characters, so whitespace and letter case are the ASCII ones;
    - a timestamp ([datetime('now')]) is the number of seconds on the store's
      clock; a handler receives the clock reading [now] of its request;
    - a table is the list of its rows in rowid order; [ORDER BY] is a stable
      sort of that list;
    - a route parameter [:id] is taken after [Number(req.params.id)]. *)

From Stdlib Require Import ZArith List String Ascii Bool Lia DecimalString.
From Stdlib Require Import Sorted Permutation.
Import ListNotations.

Local Open Scope string_scope.
Local Open Scope Z_scope.
Local Open Scope list_scope.

Set Warnings "-register-all".

(* ================================================================== *)
(** ** JavaScript values *)
(* ================================================================== *)

Module Js.

(** A decoded JSON value, plus [Undefined] for a property that is not
    there. An object is the association list of its own properties. *)
Inductive value : Type :=
| Undefined
| Null
| Bool (b : bool)
| Num (n : Z)
| Str (s : string)
| Arr (items : list value)
| Obj (fields : list (string * value)).

(** [typeof v] *)
Definition typeof (v : value) : string :=
  match v with
  | Undefined => "undefined"
  | Null => "object"
  | Bool _ => "boolean"
  | Num _ => "number"
  | Str _ => "string"
  | Arr _ | Obj _ => "object"
  end.

(** [!!v] *)
Definition truthy (v : value) : bool :=
  match v with
  | Undefined | Null => false
  | Bool b => b
  | Num n => negb (n =? 0)
  | Str s => negb (s =? EmptyString)%string
  | Arr _ | Obj _ => true
  end.

(** [v == null], true of [null] and [undefined] only. *)
Definition nullish (v : value) : bool :=
  match v with
  | Undefined | Null => true
  | _ => false
  end.

(** [v ?? d] *)
Definition coalesce (v d : value) : value :=
  if nullish v then d else v.

(** [Array.isArray(v)] *)
Definition isArray (v : value) : bool :=
  match v with Arr _ => true | _ => false end.

Fixpoint lookup (k : string) (fields : list (string * value)) : value :=
  match fields with
  | [] => Undefined
  | (k', v) :: rest => if (k =? k')%string then v else lookup k rest
  end.

(** [v.k] for one of the property names the handlers read ([sku], [name],
    [price_cents], [inventory_count]): an object yields its property, a
    primitive or an array has none. On [null] and [undefined] the access
    throws; callers test [nullish] first. *)
Definition prop (v : value) (k : string) : value :=
  match v with
  | Obj fields => lookup k fields
  | _ => Undefined
  end.

(** White space removed by [String.prototype.trim]. *)
Definition is_space (c : ascii) : bool :=
  let n := nat_of_ascii c in
  ((9 <=? n) && (n <=? 13) || (n =? 32))%nat.

Fixpoint trim_start (s : string) : string :=
  match s with
  | EmptyString => EmptyString
  | String c rest => if is_space c then trim_start rest else s
  end.

Fixpoint trim_end (s : string) : string :=
  match s with
  | EmptyString => EmptyString
  | String c rest =>
      match trim_end rest with
      | EmptyString => if is_space c then EmptyString else String c EmptyString
      | t => String c t
      end
  end.

(** [s.trim()] *)
Definition trim (s : string) : string := trim_end (trim_start s).

(** The string a value is, for a value already known to be a string. *)
Definition string_of (v : value) : string :=
  match v with Str s => s | _ => EmptyString end.

(** The number a value is, for a value already known to be a number. *)
Definition number_of (v : value) : Z :=
  match v with Num n => n | _ => 0 end.

(** [v.trim()] for a value already known to be a string. *)
Definition trimmed (v : value) : string :=
  match v with Str s => trim s | _ => EmptyString end.

(** [typeof v !== "string" || v.trim().length === 0] *)
Definition blank_or_not_string (v : value) : bool :=
  match v with
  | Str s => (String.length (trim s) =? 0)%nat
  | _ => true
  end.

(** [typeof v !== "number" || v < 0] *)
Definition negative_or_not_number (v : value) : bool :=
  match v with
  | Num n => n <? 0
  | _ => true
  end.

(** [xs.includes(v)] for an array [xs] of string literals. *)
Definition includes (xs : list string) (v : value) : bool :=
  match v with
  | Str s => existsb (String.eqb s) xs
  | _ => false
  end.

Definition digit (c : ascii) : option Z :=
  let n := nat_of_ascii c in
  if ((48 <=? n) && (n <=? 57))%nat then Some (Z.of_nat (n - 48)) else None.

Fixpoint digits (acc : Z) (s : string) : option Z :=
  match s with
  | EmptyString => Some acc
  | String c rest =>
      match digit c with
      | Some d => digits (10 * acc + d) rest
      | None => None
      end
  end.

(** The value of one digit in base 2, 8, 10 or 16. *)
Definition digit_in (base : Z) (c : ascii) : option Z :=
  let n := nat_of_ascii c in
  let d :=
    if ((48 <=? n) && (n <=? 57))%nat then Some (Z.of_nat (n - 48))
    else if ((97 <=? n) && (n <=? 102))%nat then Some (Z.of_nat (n - 87))
    else if ((65 <=? n) && (n <=? 70))%nat then Some (Z.of_nat (n - 55))
    else None in
  match d with
  | Some v => if v <? base then Some v else None
  | None => None
  end.

Fixpoint digits_in (base acc : Z) (s : string) : option Z :=
  match s with
  | EmptyString => Some acc
  | String c rest =>
      match digit_in base c with
      | Some d => digits_in base (base * acc + d) rest
      | None => None
      end
  end.

(** A non-empty run of digits of the base, and nothing else. *)
Definition numeral (base : Z) (s : string) : option Z :=
  match s with
  | EmptyString => None
  | _ => digits_in base 0 s
  end.

(** The leading decimal digits of a string, and what follows them. *)
Fixpoint take_digits (s : string) : string * string :=
  match s with
  | EmptyString => (EmptyString, EmptyString)
  | String c rest =>
      match digit c with
      | Some _ => let (d, r) := take_digits rest in (String c d, r)
      | None => (EmptyString, s)
      end
  end.

(** [ExponentPart], when there is one: [e] or [E], an optional sign and
    at least one digit, up to the end of the string. *)
Definition exponent (s : string) : option Z :=
  match s with
  | EmptyString => Some 0
  | String c r =>
      if (Ascii.eqb c "e" || Ascii.eqb c "E")%bool then
        match r with
        | String "-" d => option_map Z.opp (numeral 10 d)
        | String "+" d => numeral 10 d
        | d => numeral 10 d
        end
      else None
  end.

(** The integer [m * 10 ^ k], when it is one.  A mantissa of [len]
    digits is below [10 ^ len], and a value from [10 ^ 400] on is
    [Infinity]. *)
Definition scaled (m : Z) (len : nat) (k : Z) : option Z :=
  if m =? 0 then Some 0
  else if 0 <=? k then (if 400 <? k then None else Some (m * 10 ^ k))
  else if Z.of_nat len <? - k then None
  else if m mod 10 ^ (- k) =? 0 then Some (m / 10 ^ (- k))
  else None.

(** [StrUnsignedDecimalLiteral]: digits with an optional fraction and an
    optional exponent, at least one digit before or after the point.  The
    one other form, [Infinity], has no integer value and is [None] like
    the strings that are no literal. *)
Definition unsigned_decimal (s : string) : option Z :=
  let (ip, r1) := take_digits s in
  let (fp, r2) := match r1 with
                  | String "." r => take_digits r
                  | _ => (EmptyString, r1)
                  end in
  match String.append ip fp with
  | EmptyString => None
  | m =>
      match digits 0 m, exponent r2 with
      | Some v, Some e => scaled v (String.length m) (e - Z.of_nat (String.length fp))
      | _, _ => None
      end
  end.

(** [NonDecimalIntegerLiteral]: [0x], [0o] or [0b] in either case, then
    digits of that base; it takes no sign. *)
Definition non_decimal (s : string) : option (option Z) :=
  match s with
  | String "0" (String c r) =>
      if (Ascii.eqb c "x" || Ascii.eqb c "X")%bool then Some (numeral 16 r)
      else if (Ascii.eqb c "o" || Ascii.eqb c "O")%bool then Some (numeral 8 r)
      else if (Ascii.eqb c "b" || Ascii.eqb c "B")%bool then Some (numeral 2 r)
      else None
  | _ => None
  end.

(** [Number(s)] for a string, where its value is an integer.  Surrounding
    white space is dropped and the empty string is 0; then the string is
    read as a [StringNumericLiteral]: a hexadecimal, octal or binary
    integer, or an optionally signed decimal literal with its fraction
    and exponent.  [Some n] is the integer [n]; [None] is every other
    outcome, none of which equals an integer key: [NaN], [Infinity] and a
    value with a fractional part.  The literal is read exactly: the
    rounding of a double, which sets in beyond 53 significant bits, is
    not part of this reading. *)
Definition Number (s : string) : option Z :=
  match trim s with
  | EmptyString => Some 0
  | t =>
      match non_decimal t with
      | Some r => r
      | None =>
          match t with
          | String "-" u => option_map Z.opp (unsigned_decimal u)
          | String "+" u => unsigned_decimal u
          | _ => unsigned_decimal t
          end
      end
  end.

(** [`${i}`] for an array index. *)
Definition show (i : nat) : string := NilZero.string_of_uint (Nat.to_uint i).

End Js.

(** A body field the handler hands to the store without inspecting its type
    (only [??] and [!= null] are applied to it), taken at the type of the
    column it is bound to. *)
Inductive field (A : Type) : Type :=
| Absent
| IsNull
| Given (a : A).
Arguments Absent {A}.
Arguments IsNull {A}.
Arguments Given {A} a.

(** [f ?? null] *)
Definition orNull {A} (f : field A) : option A :=
  match f with
  | Given a => Some a
  | Absent | IsNull => None
  end.

(** SQL [COALESCE(x, y)]: the first of the two that is not NULL. *)
Definition COALESCE {A} (x y : option A) : option A :=
  match x with
  | Some _ => x
  | None => y
  end.

(** The value of an expression written into a [NOT NULL] column whose
    current value is [cur]: [COALESCE(?, col)] is never NULL there. *)
Definition COALESCE_col {A} (x : option A) (cur : A) : A :=
  match COALESCE x (Some cur) with
  | Some a => a
  | None => cur
  end.

(** A statement or a block either completes with a value or throws; the
    message is the [err.message] the handler's [catch] reports. *)
Inductive result (A : Type) : Type :=
| Done (a : A)
| Throw (message : string).
Arguments Done {A} a.
Arguments Throw {A} message.

Definition bind {A B} (r : result A) (k : A -> result B) : result B :=
  match r with
  | Done a => k a
  | Throw m => Throw m
  end.

Notation "x <- r ;; k" := (bind r (fun x => k))
  (at level 61, r at next level, right associativity).

(* ================================================================== *)
(** ** The relational store *)
(* ================================================================== *)

Module Db.

(** Modelled from the spec: the table [categories]. The schema is set up
    by the module [db] that both route files import, not by the route
    files; Section 3 of the specification gives the three tables and
    their columns, and the rows below follow it column by column. *)
Record category : Type := {
  c_id : Z;
  c_name : string
}.

(** Modelled from the spec: the table [products]; [deleted_at] is the
    nullable timestamp whose presence marks a soft deletion. *)
Record product : Type := {
  p_id : Z;
  p_name : string;
  p_description : option string;
  p_category_id : option Z;
  p_status : string;
  p_deleted_at : option Z;
  p_created_at : Z;
  p_updated_at : Z
}.

(** Modelled from the spec: the table [variants]. *)
Record variant : Type := {
  v_id : Z;
  v_product_id : Z;
  v_sku : string;
  v_name : string;
  v_price_cents : Z;
  v_inventory_count : Z;
  v_created_at : Z;
  v_updated_at : Z
}.

Record store : Type := {
  categories : list category;
  products : list product;
  variants : list variant
}.

(** [SELECT id FROM categories WHERE id = ?] *)
Definition category_by_id (s : store) (id : Z) : option category :=
  find (fun c => c_id c =? id) (categories s).

(** [SELECT * FROM products WHERE id = ?] *)
Definition product_by_id (s : store) (id : Z) : option product :=
  find (fun p => p_id p =? id) (products s).

(** [SELECT * FROM variants WHERE id = ?] *)
Definition variant_by_id (s : store) (id : Z) : option variant :=
  find (fun v => v_id v =? id) (variants s).

(** [SELECT id FROM variants WHERE sku = ?] *)
Definition variant_by_sku (s : store) (sku : string) : option variant :=
  find (fun v => (v_sku v =? sku)%string) (variants s).

(** [SELECT id FROM variants WHERE sku = ? AND id != ?] *)
Definition other_variant_by_sku (s : store) (sku : string) (id : Z)
  : option variant :=
  find (fun v => (v_sku v =? sku)%string && negb (v_id v =? id)) (variants s).

(** [SELECT COUNT( * ) AS count FROM variants WHERE product_id = ?] *)
Definition count_variants (s : store) (product_id : Z) : Z :=
  Z.of_nat (List.length
              (filter (fun v => v_product_id v =? product_id) (variants s))).

(** Stable insertion sort: [before a b] says that row [a] must come
    strictly before row [b]; rows that tie keep their table order. *)
Fixpoint place {A} (before : A -> A -> bool) (x : A) (l : list A) : list A :=
  match l with
  | [] => [x]
  | y :: rest => if before y x then y :: place before x rest else x :: l
  end.

Fixpoint order_by {A} (before : A -> A -> bool) (l : list A) : list A :=
  match l with
  | [] => []
  | x :: rest => place before x (order_by before rest)
  end.

(** [SELECT * FROM variants WHERE product_id = ? ORDER BY created_at ASC] *)
Definition variants_of (s : store) (product_id : Z) : list variant :=
  order_by (fun a b => v_created_at a <? v_created_at b)
           (filter (fun v => v_product_id v =? product_id) (variants s)).

(** Modelled from the spec: the key of a new row, which the schema leaves
    to the engine. It is one more than the largest key in the table. *)
Definition next_id (ids : list Z) : Z :=
  1 + fold_right Z.max 0 ids.

(** [INSERT INTO products (name, description, category_id, status)
     VALUES (?, ?, ?, ?)]. The columns that the statement does not name
    take the defaults of the schema, modelled from the spec: a fresh key,
    no [deleted_at], and the current time in both timestamps. The result
    carries [lastInsertRowid]. *)
Definition insert_product (s : store) (now : Z) (name : string)
    (description : option string) (category_id : option Z) (status : string)
  : store * Z :=
  let id := next_id (map p_id (products s)) in
  let row := {| p_id := id; p_name := name; p_description := description;
                p_category_id := category_id; p_status := status;
                p_deleted_at := None;
                p_created_at := now; p_updated_at := now |} in
  ({| categories := categories s;
      products := products s ++ [row];
      variants := variants s |}, id).

(** [INSERT INTO variants (product_id, sku, name, price_cents,
     inventory_count) VALUES (?, ?, ?, ?, ?)]. The [sku] column is unique
    across the table (Section 3 of the specification): the statement
    throws when the value is already there. *)
Definition insert_variant (s : store) (now : Z) (product_id : Z)
    (sku name : string) (price_cents inventory_count : Z) : result store :=
  match variant_by_sku s sku with
  | Some _ => Throw "UNIQUE constraint failed: variants.sku"
  | None =>
      let row := {| v_id := next_id (map v_id (variants s));
                    v_product_id := product_id; v_sku := sku; v_name := name;
                    v_price_cents := price_cents;
                    v_inventory_count := inventory_count;
                    v_created_at := now; v_updated_at := now |} in
      Done {| categories := categories s;
              products := products s;
              variants := variants s ++ [row] |}
  end.

(** [UPDATE products SET ... WHERE id = ?]: [f] computes the new row. *)
Definition update_products (s : store) (id : Z) (f : product -> product)
  : store :=
  {| categories := categories s;
     products := map (fun p => if p_id p =? id then f p else p) (products s);
     variants := variants s |}.

(** [UPDATE variants SET ... WHERE id = ?] *)
Definition update_variants (s : store) (id : Z) (f : variant -> variant)
  : store :=
  {| categories := categories s;
     products := products s;
     variants := map (fun v => if v_id v =? id then f v else v) (variants s) |}.

(** [DELETE FROM variants WHERE id = ?] *)
Definition delete_variants (s : store) (id : Z) : store :=
  {| categories := categories s;
     products := products s;
     variants := filter (fun v => negb (v_id v =? id)) (variants s) |}.

(** A product row with the column [c.name AS category_name] of
    [LEFT JOIN categories c ON p.category_id = c.id]. *)
Record joined : Type := {
  j_product : product;
  category_name : option string
}.

Definition category_name_of (s : store) (p : product) : option string :=
  match p_category_id p with
  | Some cid => option_map c_name (category_by_id s cid)
  | None => None
  end.

(** [SELECT p.*, c.name AS category_name FROM products p
     LEFT JOIN categories c ON p.category_id = c.id WHERE p.id = ?] *)
Definition product_joined (s : store) (id : Z) : option joined :=
  option_map (fun p => {| j_product := p;
                          category_name := category_name_of s p |})
             (product_by_id s id).

(** What the engine keeps true of every reachable store: primary keys and
    the [sku] column are unique, and a variant belongs to a product row. *)
Record wf (s : store) : Prop := {
  wf_product_ids : NoDup (map p_id (products s));
  wf_variant_ids : NoDup (map v_id (variants s));
  wf_skus : NoDup (map v_sku (variants s));
  wf_owner : forall v, In v (variants s) ->
                       In (v_product_id v) (map p_id (products s))
}.

End Db.

(* ================================================================== *)
(** ** Handler outcomes *)
(* ================================================================== *)

Module Http.

(** What a handler sends: the status class and the body. [InvalidInput] is
    status 400, [NotFound] 404, [Conflict] 409 and [Internal] 500; [Ok] is
    200 and [Created] 201. *)
Inductive response (A : Type) : Type :=
| Ok (body : A)
| Created (body : A)
| InvalidInput (error : string)
| NotFound (error : string)
| Conflict (error : string)
| Internal (error : string).
Arguments Ok {A} body.
Arguments Created {A} body.
Arguments InvalidInput {A} error.
Arguments NotFound {A} error.
Arguments Conflict {A} error.
Arguments Internal {A} error.

(** [{ success: true }] *)
Inductive success : Type := Success.

End Http.

(* ================================================================== *)
(** ** routes/products.ts *)
(* ================================================================== *)

Module Products.
Import Db Http.

(** *** GET /api/products *)

(** [req.query]: each parameter is absent or a string. *)
Record query : Type := {
  q_search : option string;
  q_category_id : option string
}.

(** [if (x)] for a query parameter. *)
Definition present (x : option string) : bool :=
  match x with
  | Some s => negb (s =? EmptyString)%string
  | None => false
  end.

Definition lower (c : ascii) : ascii :=
  let n := nat_of_ascii c in
  if ((65 <=? n) && (n <=? 90))%nat then ascii_of_nat (n + 32) else c.

(** SQL [s LIKE pattern]: [%] stands for any run of characters, [_] for
    one character, and letters match without regard to case. *)
Fixpoint like (pattern s : string) : bool :=
  match pattern with
  | EmptyString => match s with EmptyString => true | _ => false end
  | String "%" rest =>
      (fix skip (t : string) : bool :=
         like rest t
         || match t with
            | EmptyString => false
            | String _ t' => skip t'
            end) s
  | String "_" rest =>
      match s with
      | EmptyString => false
      | String _ s' => like rest s'
      end
  | String c rest =>
      match s with
      | EmptyString => false
      | String d s' => Ascii.eqb (lower c) (lower d) && like rest s'
      end
  end.

(** [x LIKE ?] for a nullable column: NULL is not a match. *)
Definition like_null (pattern : string) (x : option string) : bool :=
  match x with
  | Some s => like pattern s
  | None => false
  end.

(** [p.category_id = ?]; a parameter with no integer value (NaN, which is
    bound as NULL, an infinity or a fraction) equals no key. *)
Definition category_is (n : option Z) (p : product) : bool :=
  match n, p_category_id p with
  | Some n, Some c => c =? n
  | _, _ => false
  end.

Definition deleted_at_is_null (p : product) : bool :=
  match p_deleted_at p with
  | None => true
  | Some _ => false
  end.

(** The [conditions] array after the two optional pushes, each entry with
    its parameters already bound. *)
Definition conditions (q : query) : list (product -> bool) :=
  [deleted_at_is_null]
  ++ (if present (q_search q)
      then let pattern :=
             String.append "%"
               (String.append (match q_search q with Some s => s | None => EmptyString end)
                              "%") in
           [fun p => like pattern (p_name p)
                     || like_null pattern (p_description p)]
      else [])
  ++ (if present (q_category_id q)
      then [category_is
              (match q_category_id q with
               | Some c => Js.Number c
               | None => None
               end)]
      else []).

(** [" WHERE " + conditions.join(" AND ")], appended when the array is not
    empty. *)
Definition where_ (conds : list (product -> bool)) (rows : list product)
  : list product :=
  if (0 <? List.length conds)%nat
  then filter (fun p => forallb (fun c => c p) conds) rows
  else rows.

(** One row of the listing: the product, its category name and the
    aggregates over the variants joined to it. *)
Record summary : Type := {
  s_product : product;
  s_category_name : option string;
  variant_count : Z;
  min_price_cents : option Z;
  max_price_cents : option Z;
  total_inventory : Z
}.

Definition aggregate (f : Z -> Z -> Z) (xs : list Z) : option Z :=
  match xs with
  | [] => None
  | x :: rest => Some (fold_left f rest x)
  end.

Definition summarize (s : store) (p : product) : summary :=
  let vs := filter (fun v => v_product_id v =? p_id p) (variants s) in
  {| s_product := p;
     s_category_name := category_name_of s p;
     variant_count := Z.of_nat (List.length vs);
     min_price_cents := aggregate Z.min (map v_price_cents vs);
     max_price_cents := aggregate Z.max (map v_price_cents vs);
     total_inventory := fold_left Z.add (map v_inventory_count vs) 0 |}.

(** [GROUP BY p.id ORDER BY p.created_at DESC]: one group per product row,
    the primary key being unique. *)
Definition list_products (s : store) (q : query) : response (list summary) :=
  Ok (map (summarize s)
          (order_by (fun a b => p_created_at b <? p_created_at a)
                    (where_ (conditions q) (products s)))).

(** *** GET /api/products/:id *)

(** [{ ...product, variants }]; spreading a row that is [undefined] adds
    no field. *)
Record detail : Type := {
  d_product : option joined;
  d_variants : list variant
}.

Definition get_product (s : store) (id : Z) : response detail :=
  match product_joined s id with
  | None => NotFound "Product not found"
  | Some j => Ok {| d_product := Some j; d_variants := variants_of s id |}
  end.

(** *** POST /api/products *)

(** [req.body] of a create request. [name], [status] and [variants] are
    inspected by the handler and may be any value. [description] and
    [category_id] are passed to the driver as they come, and are taken
    here at the type of their column: absent, [null], or a string for the
    one and an integer for the other. A body that carries another kind of
    value in one of the two places (a boolean, say, which the driver
    refuses to bind once the checks have passed) is not a value of this
    type; [Wire.create_request] tells which decoded bodies are. *)
Record create_body : Type := {
  b_name : Js.value;
  b_description : field string;
  b_category_id : field Z;
  b_status : Js.value;
  b_variants : Js.value
}.

Definition validStatuses : list string := ["active"; "draft"; "archived"].

Definition mem (x : string) (set : list string) : bool :=
  existsb (String.eqb x) set.

Definition is_some {A} (o : option A) : bool :=
  match o with
  | Some _ => true
  | None => false
  end.

Definition cat (parts : list string) : string :=
  fold_right String.append EmptyString parts.

(** The double-quote character of the messages that cite a SKU. *)
Definition quote : string := String (ascii_of_nat 34) EmptyString.

(** [`Duplicate SKU "${normalizedSku}" within request`] *)
Definition duplicate_sku (normalizedSku : string) : string :=
  cat ["Duplicate SKU "; quote; normalizedSku; quote; " within request"].

(** [`SKU "${normalizedSku}" already exists`] *)
Definition sku_exists (normalizedSku : string) : string :=
  cat ["SKU "; quote; normalizedSku; quote; " already exists"].

(** The per-variant loop of the handler, from index [i] on, with the set
    [skusInRequest] collected so far. [None]: the loop ran to its end;
    [Some r]: it returned the response [r] at the first variant that
    fails a check. *)
Fixpoint validate_variants {A} (s : store) (skusInRequest : list string)
    (i : nat) (vs : list Js.value) : option (response A) :=
  match vs with
  | [] => None
  | v :: rest =>
      if Js.nullish v
      then Some (Internal "Cannot read properties of null (reading 'sku')")
      else
      let sku := Js.prop v "sku" in
      let name := Js.prop v "name" in
      let price_cents := Js.prop v "price_cents" in
      let inventory_count := Js.prop v "inventory_count" in
      if negb (Js.truthy sku) || Js.blank_or_not_string sku
      then Some (InvalidInput
                   (cat ["Variant at index "; Js.show i; " is missing a SKU"]))
      else
      if negb (Js.truthy name) || Js.blank_or_not_string name
      then Some (InvalidInput
                   (cat ["Variant at index "; Js.show i; " is missing a name"]))
      else
      if negb (Js.nullish price_cents)
         && Js.negative_or_not_number price_cents
      then Some (InvalidInput
                   (cat ["Variant at index "; Js.show i;
                         " has an invalid price (must be >= 0)"]))
      else
      if negb (Js.nullish inventory_count)
         && Js.negative_or_not_number inventory_count
      then Some (InvalidInput
                   (cat ["Variant at index "; Js.show i;
                         " has an invalid inventory count (must be >= 0)"]))
      else
      let normalizedSku := Js.trimmed sku in
      if mem normalizedSku skusInRequest
      then Some (InvalidInput (duplicate_sku normalizedSku))
      else
      if is_some (variant_by_sku s normalizedSku)
      then Some (Conflict (sku_exists normalizedSku))
      else validate_variants s (normalizedSku :: skusInRequest) (S i) rest
  end.

(** A value as an integer parameter; the handler has checked the type. *)
Definition as_number (v : Js.value) : result Z :=
  match v with
  | Js.Num n => Done n
  | _ => Throw "SQLite3 can only bind numbers, strings, bigints, buffers, and null"
  end.

(** [v.sku.trim()], which throws when [v.sku] is not a string. *)
Definition trim_of (v : Js.value) : result string :=
  match v with
  | Js.Str s => Done (Js.trim s)
  | _ => Throw "trim is not a function"
  end.

(** [for (const v of variants) insertVariant.run(productId, v.sku.trim(),
     v.name.trim(), v.price_cents ?? 0, v.inventory_count ?? 0)] *)
Fixpoint insert_variants (s : store) (now productId : Z) (vs : list Js.value)
  : result store :=
  match vs with
  | [] => Done s
  | v :: rest =>
      sku <- trim_of (Js.prop v "sku") ;;
      name <- trim_of (Js.prop v "name") ;;
      price_cents <- as_number (Js.coalesce (Js.prop v "price_cents") (Js.Num 0)) ;;
      inventory_count <-
        as_number (Js.coalesce (Js.prop v "inventory_count") (Js.Num 0)) ;;
      s' <- insert_variant s now productId sku name price_cents inventory_count ;;
      insert_variants s' now productId rest
  end.

(** The body of [db.transaction(...)]: the product row, then every variant
    row. A [Throw] anywhere discards the writes made so far: the caller
    keeps the store it started from. *)
Definition createProductTransaction (s : store) (now : Z) (name : string)
    (description : option string) (category_id : option Z) (status : string)
    (vs : list Js.value) : result (store * Z) :=
  let (s1, productId) :=
    insert_product s now name description category_id status in
  s2 <- insert_variants s1 now productId vs ;;
  Done (s2, productId).

Definition create_product (s : store) (now : Z) (b : create_body)
  : store * response detail :=
  if negb (Js.truthy (b_name b)) || Js.blank_or_not_string (b_name b)
  then (s, InvalidInput "Product name is required")
  else
  match b_variants b with
  | Js.Arr [] => (s, InvalidInput "At least one variant is required")
  | Js.Arr vs =>
      let productStatus := Js.coalesce (b_status b) (Js.Str "active") in
      if negb (Js.includes validStatuses productStatus)
      then (s, InvalidInput
                 "Invalid status. Must be one of: active, draft, archived")
      else
      if match b_category_id b with
         | Given cid => negb (is_some (category_by_id s cid))
         | Absent | IsNull => false
         end
      then (s, InvalidInput "Category not found")
      else
      match validate_variants s [] 0%nat vs with
      | Some r => (s, r)
      | None =>
          match createProductTransaction s now (Js.trimmed (b_name b))
                  (orNull (b_description b)) (orNull (b_category_id b))
                  (Js.string_of productStatus) vs with
          | Throw message => (s, Internal message)
          | Done (s', productId) =>
              (s', Created {| d_product := product_joined s' productId;
                              d_variants := variants_of s' productId |})
          end
      end
  | _ => (s, InvalidInput "At least one variant is required")
  end.

(** *** PUT /api/products/:id *)

(** [req.body] of a product update; no field is inspected before it is
    bound. *)
Record update_body : Type := {
  u_name : field string;
  u_description : field string;
  u_category_id : field Z;
  u_status : field string
}.

(** The row written by
    [SET name = COALESCE(?, name), description = COALESCE(?, description),
         category_id = COALESCE(?, category_id), status = COALESCE(?, status),
         updated_at = datetime('now')]. *)
Definition merge (now : Z) (name description : option string)
    (category_id : option Z) (status : option string) (p : product)
  : product :=
  {| p_id := p_id p;
     p_name := COALESCE_col name (p_name p);
     p_description := COALESCE description (p_description p);
     p_category_id := COALESCE category_id (p_category_id p);
     p_status := COALESCE_col status (p_status p);
     p_deleted_at := p_deleted_at p;
     p_created_at := p_created_at p;
     p_updated_at := now |}.

(** [UPDATE products SET ... WHERE id = ?].
    [foreign_keys] is the connection's pragma of that name: when it is on,
    the engine refuses a [category_id] that no category row carries. *)
Definition update_statement (foreign_keys : bool) (s : store) (now : Z)
    (name description : option string) (category_id : option Z)
    (status : option string) (id : Z) : result store :=
  if foreign_keys
     && match category_id with
        | Some cid => negb (is_some (category_by_id s cid))
        | None => false
        end
  then Throw "FOREIGN KEY constraint failed"
  else Done (update_products s id
               (merge now name description category_id status)).

Definition update_product (foreign_keys : bool) (s : store) (now : Z)
    (id : Z) (b : update_body) : store * response (option joined) :=
  match product_by_id s id with
  | None => (s, NotFound "Product not found")
  | Some existing =>
      match update_statement foreign_keys s now
              (orNull (u_name b)) (orNull (u_description b))
              (orNull (u_category_id b)) (orNull (u_status b)) id with
      | Throw message => (s, Internal message)
      | Done s' => (s', Ok (product_joined s' id))
      end
  end.

(** *** DELETE /api/products/:id *)

(** [UPDATE products SET deleted_at = datetime('now'),
     updated_at = datetime('now') WHERE id = ?] *)
Definition soft_delete (now : Z) (p : product) : product :=
  {| p_id := p_id p; p_name := p_name p; p_description := p_description p;
     p_category_id := p_category_id p; p_status := p_status p;
     p_deleted_at := Some now;
     p_created_at := p_created_at p;
     p_updated_at := now |}.

Definition delete_product (s : store) (now : Z) (id : Z)
  : store * response success :=
  match product_by_id s id with
  | None => (s, NotFound "Product not found")
  | Some product => (update_products s id (soft_delete now), Ok Success)
  end.

End Products.

(* ================================================================== *)
(** ** routes/variants.ts *)
(* ================================================================== *)

Module Variants.
Import Db Http.

(** *** GET /api/variants/:id *)

Definition get_variant (s : store) (id : Z) : response variant :=
  match variant_by_id s id with
  | None => NotFound "Variant not found"
  | Some variant => Ok variant
  end.

(** *** PUT /api/variants/:id *)

(** [req.body] of a variant update: every field is optional and is
    inspected by the handler. *)
Record update_body : Type := {
  b_name : Js.value;
  b_sku : Js.value;
  b_price_cents : Js.value;
  b_inventory_count : Js.value
}.

(** [x !== undefined] *)
Definition defined (x : Js.value) : bool :=
  match x with
  | Js.Undefined => false
  | _ => true
  end.

(** One entry of the [updates] array together with its parameter. *)
Inductive assignment : Type :=
| set_name (name : string)
| set_sku (sku : string)
| set_price_cents (price_cents : Z)
| set_inventory_count (inventory_count : Z)
| set_updated_at (now : Z).

Definition assign (v : variant) (a : assignment) : variant :=
  match a with
  | set_name name =>
      {| v_id := v_id v; v_product_id := v_product_id v; v_sku := v_sku v;
         v_name := name;
         v_price_cents := v_price_cents v;
         v_inventory_count := v_inventory_count v;
         v_created_at := v_created_at v; v_updated_at := v_updated_at v |}
  | set_sku sku =>
      {| v_id := v_id v; v_product_id := v_product_id v;
         v_sku := sku;
         v_name := v_name v; v_price_cents := v_price_cents v;
         v_inventory_count := v_inventory_count v;
         v_created_at := v_created_at v; v_updated_at := v_updated_at v |}
  | set_price_cents price_cents =>
      {| v_id := v_id v; v_product_id := v_product_id v; v_sku := v_sku v;
         v_name := v_name v;
         v_price_cents := price_cents;
         v_inventory_count := v_inventory_count v;
         v_created_at := v_created_at v; v_updated_at := v_updated_at v |}
  | set_inventory_count inventory_count =>
      {| v_id := v_id v; v_product_id := v_product_id v; v_sku := v_sku v;
         v_name := v_name v; v_price_cents := v_price_cents v;
         v_inventory_count := inventory_count;
         v_created_at := v_created_at v; v_updated_at := v_updated_at v |}
  | set_updated_at now =>
      {| v_id := v_id v; v_product_id := v_product_id v; v_sku := v_sku v;
         v_name := v_name v; v_price_cents := v_price_cents v;
         v_inventory_count := v_inventory_count v;
         v_created_at := v_created_at v;
         v_updated_at := now |}
  end.

(** Step 4 of the handler: one push per supplied field, in the order
    name, sku, price_cents, inventory_count. *)
Definition build_updates (b : update_body) : list assignment :=
  (if defined (b_name b) then [set_name (Js.trimmed (b_name b))] else [])
  ++ (if defined (b_sku b) then [set_sku (Js.trimmed (b_sku b))] else [])
  ++ (if defined (b_price_cents b)
      then [set_price_cents (Js.number_of (b_price_cents b))] else [])
  ++ (if defined (b_inventory_count b)
      then [set_inventory_count (Js.number_of (b_inventory_count b))]
      else []).

Definition sets_taken_sku (s : store) (id : Z) (a : assignment) : bool :=
  match a with
  | set_sku sku =>
      match other_variant_by_sku s sku id with
      | Some _ => true
      | None => false
      end
  | _ => false
  end.

(** [UPDATE variants SET ${updates.join(", ")} WHERE id = ?]; the [sku]
    column is unique, so the statement throws when it would give the row a
    SKU that another row holds. *)
Definition update_statement (s : store) (updates : list assignment) (id : Z)
  : result store :=
  if existsb (sets_taken_sku s id) updates
  then Throw "UNIQUE constraint failed: variants.sku"
  else Done (update_variants s id (fun v => fold_left assign updates v)).

Definition update_variant (s : store) (now : Z) (id : Z) (b : update_body)
  : store * response (option variant) :=
  let name := b_name b in
  let sku := b_sku b in
  let price_cents := b_price_cents b in
  let inventory_count := b_inventory_count b in
  match variant_by_id s id with
  | None => (s, NotFound "Variant not found")
  | Some existing =>
      if defined name && Js.blank_or_not_string name
      then (s, InvalidInput "Variant name must be a non-empty string")
      else
      if defined sku && Js.blank_or_not_string sku
      then (s, InvalidInput "SKU must be a non-empty string")
      else
      if defined price_cents && Js.negative_or_not_number price_cents
      then (s, InvalidInput "price_cents must be a number >= 0")
      else
      if defined inventory_count && Js.negative_or_not_number inventory_count
      then (s, InvalidInput "inventory_count must be a number >= 0")
      else
      if defined sku
         && negb (Js.trimmed sku =? v_sku existing)%string
         && match other_variant_by_sku s (Js.trimmed sku) id with
            | Some _ => true
            | None => false
            end
      then (s, Conflict (Products.sku_exists (Js.trimmed sku)))
      else
      let updates := build_updates b in
      if (List.length updates =? 0)%nat
      then (s, InvalidInput "No fields provided to update")
      else
      match update_statement s (updates ++ [set_updated_at now]) id with
      | Throw message => (s, Internal message)
      | Done s' => (s', Ok (variant_by_id s' id))
      end
  end.

(** *** DELETE /api/variants/:id *)

Definition delete_variant (s : store) (id : Z) : store * response success :=
  match variant_by_id s id with
  | None => (s, NotFound "Variant not found")
  | Some variant =>
      let siblingCount := count_variants s (v_product_id variant) in
      if siblingCount <=? 1
      then (s, InvalidInput "Cannot delete the last variant of a product")
      else (delete_variants s id, Ok Success)
  end.

End Variants.

(* ================================================================== *)
(** ** Well-formed create payloads *)
(* ================================================================== *)

Module Payload.
Import Db.

(** What the validator asks of a create payload, in the words of its
    contract: a name and, for each variant, a SKU and a name that are
    strings with a non-empty trimmed form; a price and an inventory count
    that are absent or non-negative numbers; a status that is absent or
    one of the enumerated values; a category that is absent or resolves. *)
Definition nonblank (x : Js.value) : bool :=
  match x with
  | Js.Str s => negb (Js.trim s =? EmptyString)%string
  | _ => false
  end.

Definition optional_amount (x : Js.value) : bool :=
  match x with
  | Js.Undefined | Js.Null => true
  | Js.Num n => 0 <=? n
  | _ => false
  end.

Definition valid_variant (v : Js.value) : bool :=
  nonblank (Js.prop v "sku")
  && nonblank (Js.prop v "name")
  && optional_amount (Js.prop v "price_cents")
  && optional_amount (Js.prop v "inventory_count").

Definition valid_status (x : Js.value) : bool :=
  match x with
  | Js.Undefined | Js.Null => true
  | Js.Str s => Products.mem s Products.validStatuses
  | _ => false
  end.

Definition valid_category (s : store) (x : field Z) : bool :=
  match x with
  | Given cid => Products.is_some (category_by_id s cid)
  | Absent | IsNull => true
  end.

(** The checks made before the per-variant loop. *)
Definition valid_header (s : store) (b : Products.create_body) : bool :=
  nonblank (Products.b_name b)
  && valid_status (Products.b_status b)
  && valid_category s (Products.b_category_id b).

(** The trimmed SKU and name of a variant, and its amounts with the
    default 0 for an absent one. *)
Definition sku_of (v : Js.value) : string := Js.trimmed (Js.prop v "sku").
Definition name_of (v : Js.value) : string := Js.trimmed (Js.prop v "name").
Definition price_of (v : Js.value) : Z :=
  Js.number_of (Js.coalesce (Js.prop v "price_cents") (Js.Num 0)).
Definition inventory_of (v : Js.value) : Z :=
  Js.number_of (Js.coalesce (Js.prop v "inventory_count") (Js.Num 0)).

(** The variant row [w] is the row created for the request variant [v]
    under product [product_id] at time [now]. *)
Definition row_for (now product_id : Z) (v : Js.value) (w : variant) : Prop :=
  v_product_id w = product_id
  /\ v_sku w = sku_of v
  /\ v_name w = name_of v
  /\ v_price_cents w = price_of v
  /\ v_inventory_count w = inventory_of v
  /\ v_created_at w = now
  /\ v_updated_at w = now.

(** [SELECT COUNT( * ) FROM products], the count the atomicity test of the
    suite compares before and after a failed create. *)
Definition product_count (s : store) : nat := List.length (products s).

(** The body with every [null] field left out. *)
Definition without_nulls (b : Products.update_body)
  : Products.update_body :=
  let drop {A} (f : field A) : field A :=
    match f with
    | IsNull => Absent
    | other => other
    end in
  {| Products.u_name := drop (Products.u_name b);
     Products.u_description := drop (Products.u_description b);
     Products.u_category_id := drop (Products.u_category_id b);
     Products.u_status := drop (Products.u_status b) |}.

(** The row with nothing but [updated_at] rewritten. *)
Definition touch (now : Z) (p : product) : product :=
  {| p_id := p_id p; p_name := p_name p; p_description := p_description p;
     p_category_id := p_category_id p; p_status := p_status p;
     p_deleted_at := p_deleted_at p;
     p_created_at := p_created_at p;
     p_updated_at := now |}.

(** The row that the handler writes in place of the row it found. *)
Definition merged (now : Z) (b : Products.update_body)
  : product -> product :=
  Products.merge now (orNull (Products.u_name b)) (orNull (Products.u_description b))
        (orNull (Products.u_category_id b)) (orNull (Products.u_status b)).

(** The variant row after a partial update: a column takes the request's
    value when the request has the field and keeps its own otherwise;
    [updated_at] takes the time of the update. *)
Definition patched (now : Z) (b : Variants.update_body) (v : variant)
  : variant :=
  {| v_id := v_id v;
     v_product_id := v_product_id v;
     v_sku := if Variants.defined (Variants.b_sku b)
              then Js.trimmed (Variants.b_sku b) else v_sku v;
     v_name := if Variants.defined (Variants.b_name b)
               then Js.trimmed (Variants.b_name b) else v_name v;
     v_price_cents := if Variants.defined (Variants.b_price_cents b)
                      then Js.number_of (Variants.b_price_cents b)
                      else v_price_cents v;
     v_inventory_count := if Variants.defined (Variants.b_inventory_count b)
                          then Js.number_of (Variants.b_inventory_count b)
                          else v_inventory_count v;
     v_created_at := v_created_at v;
     v_updated_at := now |}.

End Payload.

(* ================================================================== *)
(** ** A small catalog to evaluate the handlers on *)
(* ================================================================== *)

Module Example.
Import Db.

Definition dry_goods : category := {| c_id := 1; c_name := "Dry Goods" |}.

Definition beans : product :=
  {| p_id := 1; p_name := "Black Beans"; p_description := Some "Canned";
     p_category_id := Some 1; p_status := "active"; p_deleted_at := None;
     p_created_at := 100; p_updated_at := 100 |}.

Definition pepper : product :=
  {| p_id := 2; p_name := "Pepper"; p_description := None;
     p_category_id := None; p_status := "draft"; p_deleted_at := None;
     p_created_at := 200; p_updated_at := 200 |}.

Definition beans_small : variant :=
  {| v_id := 1; v_product_id := 1; v_sku := "BB-15OZ"; v_name := "15 oz";
     v_price_cents := 129; v_inventory_count := 40;
     v_created_at := 100; v_updated_at := 100 |}.

Definition beans_large : variant :=
  {| v_id := 2; v_product_id := 1; v_sku := "BB-6LB"; v_name := "6 lb";
     v_price_cents := 899; v_inventory_count := 12;
     v_created_at := 100; v_updated_at := 100 |}.

Definition pepper_only : variant :=
  {| v_id := 3; v_product_id := 2; v_sku := "ABP-4OZ"; v_name := "4 oz";
     v_price_cents := 450; v_inventory_count := 7;
     v_created_at := 200; v_updated_at := 200 |}.

(** A product that was soft-deleted at time 250. *)
Definition retired : product :=
  {| p_id := 3; p_name := "Old Rice"; p_description := Some "Discontinued";
     p_category_id := Some 1; p_status := "archived";
     p_deleted_at := Some 250;
     p_created_at := 50; p_updated_at := 250 |}.

Definition retired_only : variant :=
  {| v_id := 4; v_product_id := 3; v_sku := "OR-1LB"; v_name := "1 lb";
     v_price_cents := 199; v_inventory_count := 0;
     v_created_at := 50; v_updated_at := 50 |}.

Definition catalog : store :=
  {| categories := [dry_goods];
     products := [beans; pepper; retired];
     variants := [beans_small; beans_large; pepper_only; retired_only] |}.

(** A request variant [{ sku, name }]. *)
Definition item (sku name : string) : Js.value :=
  Js.Obj [("sku", Js.Str sku); ("name", Js.Str name)].

(** A request variant with all four fields. *)
Definition priced (sku name : string) (price_cents inventory_count : Z)
  : Js.value :=
  Js.Obj [("sku", Js.Str sku); ("name", Js.Str name);
          ("price_cents", Js.Num price_cents);
          ("inventory_count", Js.Num inventory_count)].

(** A create payload [{ name: "Lentils", category_id: 1, variants }]. *)
Definition lentils (variants : list Js.value) : Products.create_body :=
  {| Products.b_name := Js.Str "Lentils";
     Products.b_description := Absent;
     Products.b_category_id := Given 1;
     Products.b_status := Js.Undefined;
     Products.b_variants := Js.Arr variants |}.

(** The product update [{ category_id }]. *)
Definition recategorise (category_id : Z) : Products.update_body :=
  {| Products.u_name := Absent;
     Products.u_description := Absent;
     Products.u_category_id := Given category_id;
     Products.u_status := Absent |}.

(** The product update in which every field is [null]. *)
Definition all_null : Products.update_body :=
  {| Products.u_name := IsNull;
     Products.u_description := IsNull;
     Products.u_category_id := IsNull;
     Products.u_status := IsNull |}.

(** The variant updates [{}], [{ price_cents }] and [{ inventory_count }]. *)
Definition no_fields : Variants.update_body :=
  {| Variants.b_name := Js.Undefined;
     Variants.b_sku := Js.Undefined;
     Variants.b_price_cents := Js.Undefined;
     Variants.b_inventory_count := Js.Undefined |}.

Definition only_price (price_cents : Js.value) : Variants.update_body :=
  {| Variants.b_name := Js.Undefined;
     Variants.b_sku := Js.Undefined;
     Variants.b_price_cents := price_cents;
     Variants.b_inventory_count := Js.Undefined |}.

Definition only_inventory (inventory_count : Js.value)
  : Variants.update_body :=
  {| Variants.b_name := Js.Undefined;
     Variants.b_sku := Js.Undefined;
     Variants.b_price_cents := Js.Undefined;
     Variants.b_inventory_count := inventory_count |}.

End Example.

(** A list is in the order of an [ORDER BY] when no row of it must come
    strictly before a row that precedes it. *)
Definition in_order {A} (before : A -> A -> bool) : list A -> Prop :=
  StronglySorted (fun a b => before b a = false).

(* ================================================================== *)
(** ** Substring search, as the listing's [LIKE] pattern sees it *)
(* ================================================================== *)

Module Search.

(** Two strings of the same length whose characters agree up to the case
    of ASCII letters. *)
Fixpoint same_letters (s t : string) : bool :=
  match s, t with
  | EmptyString, EmptyString => true
  | String c s', String d t' =>
      Ascii.eqb (Products.lower c) (Products.lower d) && same_letters s' t'
  | _, _ => false
  end.

(** [x] contains [term], letter case apart. *)
Definition contains (term x : string) : Prop :=
  exists before found after,
    x = String.append before (String.append found after)
    /\ same_letters term found = true.

(** A term without the two characters that [LIKE] reads as wildcards. *)
Fixpoint plain (term : string) : bool :=
  match term with
  | EmptyString => true
  | String c rest =>
      negb (Ascii.eqb c "%") && negb (Ascii.eqb c "_") && plain rest
  end.

(** The queries [?search=term], [?category_id=c] and the bare one. *)
Definition by_search (term : string) : Products.query :=
  {| Products.q_search := Some term; Products.q_category_id := None |}.

Definition by_category (c : string) : Products.query :=
  {| Products.q_search := None; Products.q_category_id := Some c |}.

Definition everything : Products.query :=
  {| Products.q_search := None; Products.q_category_id := None |}.

(** A product row passes every entry of [conditions]. *)
Definition matching (q : Products.query) (p : Db.product) : bool :=
  forallb (fun c => c p) (Products.conditions q).

(** The rows of a listing. *)
Definition rows_of (r : Http.response (list Products.summary))
  : list Products.summary :=
  match r with
  | Http.Ok rows => rows
  | _ => []
  end.

End Search.

(* ================================================================== *)
(** ** Well-formed variant updates *)
(* ================================================================== *)

Module Updates.
Import Db.

(** A field of a variant update is in order when it is not supplied or
    is, for [name] and [sku], a string with a non-empty trimmed form and,
    for [price_cents] and [inventory_count], a non-negative number. *)
Definition text_or_absent (x : Js.value) : bool :=
  match x with
  | Js.Undefined => true
  | other => Payload.nonblank other
  end.

Definition amount_or_absent (x : Js.value) : bool :=
  match x with
  | Js.Undefined => true
  | Js.Num n => 0 <=? n
  | _ => false
  end.

Definition valid_update (b : Variants.update_body) : bool :=
  text_or_absent (Variants.b_name b)
  && text_or_absent (Variants.b_sku b)
  && amount_or_absent (Variants.b_price_cents b)
  && amount_or_absent (Variants.b_inventory_count b).

(** The update supplies one field at least. *)
Definition some_field (b : Variants.update_body) : bool :=
  Variants.defined (Variants.b_name b)
  || Variants.defined (Variants.b_sku b)
  || Variants.defined (Variants.b_price_cents b)
  || Variants.defined (Variants.b_inventory_count b).

(** The update supplies a SKU that a variant other than [id] holds. *)
Definition sku_taken (s : store) (id : Z) (b : Variants.update_body) : Prop :=
  Variants.defined (Variants.b_sku b) = true
  /\ exists w, In w (variants s) /\ v_id w <> id
               /\ v_sku w = Js.trimmed (Variants.b_sku b).

(** The update [{ sku }]. *)
Definition only_sku (sku : string) : Variants.update_body :=
  {| Variants.b_name := Js.Undefined;
     Variants.b_sku := Js.Str sku;
     Variants.b_price_cents := Js.Undefined;
     Variants.b_inventory_count := Js.Undefined |}.

(** Every product row has a variant row. *)
Definition stocked (s : store) : Prop :=
  forall p, In p (products s) -> 1 <= count_variants s (p_id p).

End Updates.

(* ================================================================== *)
(** ** frontend/src/pages *)
(* ================================================================== *)

Module Pages.

(** *** ProductDetailPage.tsx *)

(** [handleVariantUpdated]: the state [product] is [null] or the body of
    the detail response; the row with the id of [updated] is replaced. *)
Definition handleVariantUpdated (updated : Db.variant)
    (prev : option Products.detail) : option Products.detail :=
  match prev with
  | None => None
  | Some d =>
      Some {| Products.d_product := Products.d_product d;
              Products.d_variants :=
                map (fun v => if Db.v_id v =? Db.v_id updated
                              then updated else v)
                    (Products.d_variants d) |}
  end.

(** *** CreateProductPage.tsx *)

Record VariantFormRow : Type := {
  key : Z;
  sku : string;
  name : string;
  price : string;
  inventory_count : string
}.

Definition emptyVariant (key : Z) : VariantFormRow :=
  {| key := key; sku := EmptyString; name := EmptyString;
     price := EmptyString; inventory_count := EmptyString |}.

(** The two pieces of state behind the variant rows of the form. *)
Record form : Type := {
  variants : list VariantFormRow;
  nextKey : Z
}.

(** [useState([emptyVariant(0)])] and [useState(1)]. *)
Definition initial : form :=
  {| variants := [emptyVariant 0]; nextKey := 1 |}.

(** [addVariant] is a closure of the render that made it: the key it
    gives the new row is the [nextKey] that render saw ([rendered]), while
    the two updaters it queues run on the state as it then stands
    ([st]). *)
Definition addVariant (rendered st : form) : form :=
  {| variants := variants st ++ [emptyVariant (nextKey rendered)];
     nextKey := nextKey st + 1 |}.

Definition removeVariant (k : Z) (st : form) : form :=
  {| variants := filter (fun v => negb (key v =? k)) (variants st);
     nextKey := nextKey st |}.

(** The fields that the inputs of a row pass to [updateVariant]. *)
Inductive column : Type :=
| col_sku
| col_name
| col_price
| col_inventory_count.

(** [{ ...v, [field]: value }] *)
Definition with_field (v : VariantFormRow) (field : column) (value : string)
  : VariantFormRow :=
  match field with
  | col_sku =>
      {| key := key v; sku := value; name := name v; price := price v;
         inventory_count := inventory_count v |}
  | col_name =>
      {| key := key v; sku := sku v; name := value; price := price v;
         inventory_count := inventory_count v |}
  | col_price =>
      {| key := key v; sku := sku v; name := name v; price := value;
         inventory_count := inventory_count v |}
  | col_inventory_count =>
      {| key := key v; sku := sku v; name := name v; price := price v;
         inventory_count := value |}
  end.

Definition updateVariant (k : Z) (field : column) (value : string)
    (st : form) : form :=
  {| variants := map (fun v => if key v =? k then with_field v field value
                               else v)
                     (variants st);
     nextKey := nextKey st |}.

(** What the user can do to the rows: press "Add variant", press the
    remove button of a row, or type into an input of a row. *)
Inductive event : Type :=
| Add
| Remove (k : Z)
| Type_ (k : Z) (field : column) (value : string).

(** One event, on the page as it was last rendered ([rendered]) and the
    state as it stands ([st]). The button and the closure behind an event
    are those of the render: the remove button of a row is there only if
    the render saw that row and [variants.length > 1], and "Add variant"
    passes the [nextKey] of the render. The updaters themselves take the
    state of the moment. *)
Definition handle (rendered st : form) (e : event) : form :=
  match e with
  | Add => addVariant rendered st
  | Remove k =>
      if (1 <? List.length (variants rendered))%nat
         && existsb (fun v => key v =? k) (variants rendered)
      then removeVariant k st
      else st
  | Type_ k field value => updateVariant k field value st
  end.

(** An event on a page that has rendered the state it acts on. *)
Definition on (st : form) (e : event) : form := handle st st e.

(** The events that are handled between one render and the next: all of
    them go through the closures of the render of [st]. *)
Definition task (st : form) (events : list event) : form :=
  fold_left (handle st) events st.

(** The form after a sequence of such batches, a render after each. *)
Definition run (tasks : list (list event)) : form :=
  fold_left task tasks initial.

(** What is to hold of the form whatever the user has done: it has a
    row, the keys of its rows are pairwise distinct, and [nextKey] is
    above all of them. *)
Definition keyed (st : form) : Prop :=
  (1 <= List.length (variants st))%nat
  /\ NoDup (map key (variants st))
  /\ Forall (fun v => key v < nextKey st) (variants st).

End Pages.

(* ================================================================== *)
(** ** Sequences of write requests *)
(* ================================================================== *)

Module Api.

(** A write request with the clock reading at which it is served. *)
Inductive call : Type :=
| CreateProduct (now : Z) (b : Products.create_body)
| UpdateProduct (foreign_keys : bool) (now id : Z) (b : Products.update_body)
| DeleteProduct (now id : Z)
| UpdateVariant (now id : Z) (b : Variants.update_body)
| DeleteVariant (id : Z).

(** The store that the handler of a request leaves. *)
Definition serve (s : Db.store) (c : call) : Db.store :=
  match c with
  | CreateProduct now b => fst (Products.create_product s now b)
  | UpdateProduct fk now id b => fst (Products.update_product fk s now id b)
  | DeleteProduct now id => fst (Products.delete_product s now id)
  | UpdateVariant now id b => fst (Variants.update_variant s now id b)
  | DeleteVariant id => fst (Variants.delete_variant s id)
  end.

End Api.

(* ================================================================== *)
(** ** Decoded request bodies *)
(* ================================================================== *)

Module Wire.

(** A value that is bound to a text column as it is. *)
Definition text_column (x : Js.value) : option (field string) :=
  match x with
  | Js.Undefined => Some Absent
  | Js.Null => Some IsNull
  | Js.Str s => Some (Given s)
  | _ => None
  end.

(** A value that is bound to an integer column as it is. *)
Definition integer_column (x : Js.value) : option (field Z) :=
  match x with
  | Js.Undefined => Some Absent
  | Js.Null => Some IsNull
  | Js.Num n => Some (Given n)
  | _ => None
  end.

(** [const { name, description, category_id, status, variants } = req.body]
    for a decoded JSON object whose [description] and [category_id] have
    the type of their column. The other bodies are those that
    [Products.create_body] leaves out. *)
Definition create_request (body : Js.value) : option Products.create_body :=
  match body with
  | Js.Obj fields =>
      match text_column (Js.lookup "description" fields),
            integer_column (Js.lookup "category_id" fields) with
      | Some description, Some category_id =>
          Some {| Products.b_name := Js.lookup "name" fields;
                  Products.b_description := description;
                  Products.b_category_id := category_id;
                  Products.b_status := Js.lookup "status" fields;
                  Products.b_variants := Js.lookup "variants" fields |}
      | _, _ => None
      end
  | _ => None
  end.

End Wire.

(* ================================================================== *)
(** * Properties *)
(* ================================================================== *)

(** ** The operators on concrete values *)

Example trim_both_ends : Js.trim "  TRIM-E2E  " = "TRIM-E2E".
Proof. reflexivity. Qed.

Example trim_keeps_inner_space : Js.trim " 15 oz " = "15 oz".
Proof. reflexivity. Qed.

Example trim_of_spaces : Js.trim "   " = EmptyString.
Proof. reflexivity. Qed.

Example blank_name_fails : Js.blank_or_not_string (Js.Str "   ") = true.
Proof. reflexivity. Qed.

Example Number_of_digits : Js.Number " 12 " = Some 12.
Proof. reflexivity. Qed.

Example Number_of_letters : Js.Number "abc" = None.
Proof. reflexivity. Qed.

Example Number_of_exponent : Js.Number "1e0" = Some 1.
Proof. reflexivity. Qed.

Example Number_of_fraction : Js.Number "1.0" = Some 1.
Proof. reflexivity. Qed.

Example Number_of_hexadecimal : Js.Number "0x1" = Some 1.
Proof. reflexivity. Qed.

Example Number_of_signed_hexadecimal : Js.Number "-0x1" = None.
Proof. reflexivity. Qed.

Example Number_of_half : Js.Number "1.5" = None.
Proof. reflexivity. Qed.

Example like_ignores_case : Products.like "%unicorn%" "Searchable Unicorn" = true.
Proof. reflexivity. Qed.

Example like_no_match : Products.like "%zzz%" "Black Beans" = false.
Proof. reflexivity. Qed.

Example listing_skips_retired :
  match Products.list_products Example.catalog
          {| Products.q_search := None; Products.q_category_id := None |} with
  | Http.Ok rows => map (fun r => Db.p_id (Products.s_product r)) rows
  | _ => []
  end = [2; 1].
Proof. reflexivity. Qed.

Example listing_by_category :
  match Products.list_products Example.catalog
          {| Products.q_search := Some "bean";
             Products.q_category_id := Some "1" |} with
  | Http.Ok rows =>
      map (fun r => (Db.p_id (Products.s_product r), Products.variant_count r,
                     Products.min_price_cents r, Products.total_inventory r))
          rows
  | _ => []
  end = [(1, 2, Some 129, 52)].
Proof. reflexivity. Qed.

(** The second layer of the SKU defence: the insert itself throws on a
    stored SKU, and the transaction then hands back nothing to keep. *)
Example transaction_throws_on_stored_sku :
  Products.createProductTransaction Example.catalog 300
    "Atomic Failure Test" None (Some 1) "active"
    [Example.item "ATOM-OK-E2E" "Good"; Example.item "ABP-4OZ" "Conflict"]
  = Throw "UNIQUE constraint failed: variants.sku".
Proof. reflexivity. Qed.

Example self_sku_update_succeeds :
  snd (Variants.update_variant Example.catalog 300 3
         {| Variants.b_name := Js.Undefined;
            Variants.b_sku := Js.Str "ABP-4OZ";
            Variants.b_price_cents := Js.Undefined;
            Variants.b_inventory_count := Js.Undefined |})
  = Http.Ok (Some {| Db.v_id := 3; Db.v_product_id := 2;
                     Db.v_sku := "ABP-4OZ"; Db.v_name := "4 oz";
                     Db.v_price_cents := 450; Db.v_inventory_count := 7;
                     Db.v_created_at := 200; Db.v_updated_at := 300 |}).
Proof. reflexivity. Qed.

Example taken_sku_update_conflicts :
  Variants.update_variant Example.catalog 300 3
    {| Variants.b_name := Js.Undefined;
       Variants.b_sku := Js.Str "BB-6LB";
       Variants.b_price_cents := Js.Undefined;
       Variants.b_inventory_count := Js.Undefined |}
  = (Example.catalog, Http.Conflict (Products.sku_exists "BB-6LB")).
Proof. reflexivity. Qed.

(** ** Tables as lists of rows *)

Section Tables.

Context {A : Type}.
Variable key : A -> Z.

Let has (id : Z) : A -> bool := fun r => key r =? id.
Let rewrite_rows (id : Z) (f : A -> A) : A -> A :=
  fun r => if key r =? id then f r else r.

(** A lookup by key after an [UPDATE ... WHERE key = id] that keeps keys. *)
Lemma find_after_update (id : Z) (f : A -> A) (rows : list A) :
  (forall r, key (f r) = key r) ->
  find (has id) (map (rewrite_rows id f) rows)
  = option_map f (find (has id) rows).
Proof.
  intros Hkey. unfold has, rewrite_rows.
  induction rows as [|r rows IH]; simpl; [reflexivity|].
  destruct (key r =? id) eqn:E.
  - rewrite Hkey, E. reflexivity.
  - rewrite E. exact IH.
Qed.

(** Rows with another key are not touched by the update. *)
Lemma find_other_after_update (id id' : Z) (f : A -> A) (rows : list A) :
  (forall r, key (f r) = key r) -> id' <> id ->
  find (has id') (map (rewrite_rows id f) rows) = find (has id') rows.
Proof.
  intros Hkey Hne. unfold has, rewrite_rows.
  induction rows as [|r rows IH]; simpl; [reflexivity|].
  destruct (key r =? id) eqn:E.
  - rewrite Hkey. apply Z.eqb_eq in E. rewrite E.
    destruct (id =? id') eqn:E'; [apply Z.eqb_eq in E'; congruence|exact IH].
  - destruct (key r =? id'); [reflexivity|exact IH].
Qed.

Lemma keys_after_update (id : Z) (f : A -> A) (rows : list A) :
  (forall r, key (f r) = key r) ->
  map key (map (rewrite_rows id f) rows) = map key rows.
Proof.
  intros Hkey. rewrite map_map. apply map_ext. intros r.
  unfold rewrite_rows. destruct (key r =? id); [apply Hkey|reflexivity].
Qed.

(** With a unique key, the lookup by a row's key finds that row. *)
Lemma find_by_unique_key (rows : list A) (r : A) :
  NoDup (map key rows) -> In r rows -> find (has (key r)) rows = Some r.
Proof.
  unfold has.
  induction rows as [|x rows IH]; simpl; intros Hnd Hin; [contradiction|].
  inversion Hnd as [|? ? Hx Hrest]; subst.
  destruct Hin as [->|Hin].
  - rewrite Z.eqb_refl. reflexivity.
  - destruct (key x =? key r) eqn:E.
    + apply Z.eqb_eq in E. exfalso. apply Hx. rewrite E. now apply in_map.
    + now apply IH.
Qed.

Lemma unique_key_inj (rows : list A) (a b : A) :
  NoDup (map key rows) -> In a rows -> In b rows -> key a = key b -> a = b.
Proof.
  intros Hnd Ha Hb Hk.
  pose proof (find_by_unique_key rows a Hnd Ha) as Fa.
  pose proof (find_by_unique_key rows b Hnd Hb) as Fb.
  unfold has in Fa, Fb. rewrite Hk in Fa. congruence.
Qed.

Lemma find_has_key (id : Z) (rows : list A) (r : A) :
  find (has id) rows = Some r -> In r rows /\ key r = id.
Proof.
  unfold has. intros H. apply find_some in H. destruct H as [Hin Hk].
  split; [exact Hin|]. now apply Z.eqb_eq.
Qed.

(** [DELETE ... WHERE key = id] on a table with a unique key removes the
    one row that carries it: a count over the table drops by one when the
    row is counted and stays as it is otherwise. *)
Lemma count_after_delete (P : A -> bool) (rows : list A) (r : A) :
  NoDup (map key rows) -> In r rows ->
  Z.of_nat (List.length (filter P (filter (fun x => negb (key x =? key r)) rows)))
  = Z.of_nat (List.length (filter P rows)) - (if P r then 1 else 0).
Proof.
  induction rows as [|x rows IH]; simpl; intros Hnd Hin; [contradiction|].
  inversion Hnd as [|? ? Hx Hrest]; subst.
  destruct Hin as [->|Hin].
  - rewrite Z.eqb_refl. simpl.
    assert (Hsame : filter (fun x => negb (key x =? key r)) rows = rows).
    { apply forallb_filter_id. apply forallb_forall. intros y Hy.
      destruct (key y =? key r) eqn:E; [|reflexivity].
      apply Z.eqb_eq in E. exfalso. apply Hx. rewrite <- E. now apply in_map. }
    rewrite Hsame. destruct (P r); simpl List.length;
      rewrite ?Nat2Z.inj_succ; lia.
  - destruct (key x =? key r) eqn:E.
    + apply Z.eqb_eq in E. exfalso. apply Hx. rewrite E. now apply in_map.
    + simpl. specialize (IH Hrest Hin).
      destruct (P x); simpl List.length; rewrite ?Nat2Z.inj_succ; lia.
Qed.

Lemma in_after_delete (id : Z) (rows : list A) (r : A) :
  In r (filter (fun x => negb (key x =? id)) rows) <-> In r rows /\ key r <> id.
Proof.
  rewrite filter_In. split; intros [Hin Hk]; split; try exact Hin.
  - intros E. apply Z.eqb_eq in E. rewrite E in Hk. discriminate.
  - apply negb_true_iff. now apply Z.eqb_neq.
Qed.

(** The fresh rowid is above every key in the table. *)
Lemma next_id_fresh (ids : list Z) : forall id, In id ids -> id < Db.next_id ids.
Proof.
  unfold Db.next_id. induction ids as [|x ids IH]; cbn [fold_right In];
    intros id Hin.
  - contradiction.
  - destruct Hin as [->|Hin]; [lia|]. specialize (IH id Hin). lia.
Qed.

End Tables.

(** ** [ORDER BY] *)

Section Ordering.

Context {A : Type}.
Variable before : A -> A -> bool.

Lemma In_place (x y : A) (l : list A) :
  In y (Db.place before x l) <-> y = x \/ In y l.
Proof.
  induction l as [|z l IH]; simpl.
  - intuition auto.
  - destruct (before z x); simpl; rewrite ?IH; intuition auto.
Qed.

(** Sorting neither drops nor invents rows. *)
Lemma In_order_by (y : A) (l : list A) :
  In y (Db.order_by before l) <-> In y l.
Proof.
  induction l as [|x l IH]; simpl; [tauto|].
  rewrite In_place, IH. intuition auto.
Qed.

(** Rows none of which must come before another keep their table order. *)
Lemma order_by_ties (l : list A) :
  (forall a b, In a l -> In b l -> before a b = false) ->
  Db.order_by before l = l.
Proof.
  induction l as [|x l IH]; simpl; intros Hties; [reflexivity|].
  rewrite IH by (intros; apply Hties; auto).
  destruct l as [|y l]; simpl; [reflexivity|].
  rewrite (Hties y x) by (simpl; auto). reflexivity.
Qed.

End Ordering.

(** ** The store invariant

    [Db.wf] holds of the empty store and is kept by every statement the
    handlers run, and therefore by every handler: it can be assumed of the
    store a request meets. *)

Section Invariant.
Import Db Http.

Lemma NoDup_snoc {A} (l : list A) (x : A) :
  NoDup l -> ~ In x l -> NoDup (l ++ [x]).
Proof.
  induction l as [|y l IH]; simpl; intros Hnd Hx.
  - constructor; [intros []|constructor].
  - inversion Hnd as [|? ? Hy Hl]; subst. constructor.
    + rewrite in_app_iff. simpl. intros [H|[H|[]]]; [contradiction|].
      apply Hx. now left.
    + apply IH; [exact Hl|]. intros H. apply Hx. now right.
Qed.

Lemma NoDup_map_filter {A B} (f : A -> B) (keep : A -> bool) (l : list A) :
  NoDup (map f l) -> NoDup (map f (filter keep l)).
Proof.
  induction l as [|x l IH]; simpl; intros Hnd; [constructor|].
  inversion Hnd as [|? ? Hx Hl]; subst.
  destruct (keep x); simpl; [|now apply IH].
  constructor; [|now apply IH].
  intros H. apply Hx. apply in_map_iff in H. destruct H as [y [E Hy]].
  apply filter_In in Hy. rewrite <- E. apply in_map. apply Hy.
Qed.

Lemma wf_empty : wf {| categories := []; products := []; variants := [] |}.
Proof. constructor; simpl; try constructor. intros v []. Qed.

Lemma wf_insert_product (s : store) (now : Z) (name : string)
    (description : option string) (category_id : option Z) (status : string) :
  wf s ->
  wf (fst (insert_product s now name description category_id status)).
Proof.
  intros [Hp Hv Hs Ho]. constructor; simpl; auto.
  - rewrite map_app. simpl. apply NoDup_snoc; [exact Hp|].
    intros H. apply next_id_fresh in H. lia.
  - intros v Hin. rewrite map_app, in_app_iff. left. now apply Ho.
Qed.

Lemma wf_insert_variant (s s' : store) (now product_id : Z)
    (sku name : string) (price_cents inventory_count : Z) :
  wf s -> In product_id (map p_id (products s)) ->
  insert_variant s now product_id sku name price_cents inventory_count
  = Done s' ->
  wf s' /\ products s' = products s.
Proof.
  intros [Hp Hv Hs Ho] Howner. unfold insert_variant.
  destruct (variant_by_sku s sku) eqn:Hsku; [discriminate|].
  intros H. injection H as <-. split; [|reflexivity].
  constructor; simpl; auto.
  - rewrite map_app. simpl. apply NoDup_snoc; [exact Hv|].
    intros H. apply next_id_fresh in H. lia.
  - rewrite map_app. simpl. apply NoDup_snoc; [exact Hs|].
    intros H. apply in_map_iff in H. destruct H as [w [E Hw]].
    unfold variant_by_sku in Hsku.
    apply (find_none _ _ Hsku) in Hw. rewrite E, String.eqb_refl in Hw.
    discriminate.
  - intros v Hin. apply in_app_iff in Hin. destruct Hin as [Hin|[<-|[]]].
    + now apply Ho.
    + exact Howner.
Qed.

Lemma wf_insert_variants (now productId : Z) (vs : list Js.value) :
  forall s s',
    wf s -> In productId (map p_id (products s)) ->
    Products.insert_variants s now productId vs = Done s' ->
    wf s'.
Proof.
  induction vs as [|v vs IH]; intros s s' Hwf Howner; cbn [Products.insert_variants].
  - intros H. now injection H as <-.
  - destruct (Products.trim_of (Js.prop v "sku")); [|discriminate].
    destruct (Products.trim_of (Js.prop v "name")); [|discriminate].
    destruct (Products.as_number _); [|discriminate].
    destruct (Products.as_number _); [|discriminate].
    cbn [bind].
    destruct (insert_variant s now productId _ _ _ _) as [s1|] eqn:Hone;
      [|discriminate].
    cbn [bind]. apply wf_insert_variant in Hone; auto.
    destruct Hone as [Hwf1 Hsame]. apply IH; [exact Hwf1|].
    now rewrite Hsame.
Qed.

Lemma wf_update_products (s : store) (id : Z) (f : product -> product) :
  (forall p, p_id (f p) = p_id p) -> wf s -> wf (update_products s id f).
Proof.
  intros Hid [Hp Hv Hs Ho]. constructor; simpl; auto.
  - now rewrite (keys_after_update p_id).
  - intros v Hin. rewrite (keys_after_update p_id) by exact Hid. now apply Ho.
Qed.

Lemma wf_delete_variants (s : store) (id : Z) :
  wf s -> wf (delete_variants s id).
Proof.
  intros [Hp Hv Hs Ho]. constructor; simpl; auto.
  - now apply NoDup_map_filter.
  - now apply NoDup_map_filter.
  - intros v Hin. apply filter_In in Hin. now apply Ho.
Qed.

(** Rewriting the SKU of the row with key [id] keeps SKUs unique when no
    other row holds the new one. *)
Lemma skus_after_update (id : Z) (f : variant -> variant)
    (rows : list variant) :
  (forall v, v_id (f v) = v_id v) ->
  NoDup (map v_id rows) -> NoDup (map v_sku rows) ->
  (forall v w, In v rows -> In w rows -> v_id v = id -> v_id w <> id ->
               v_sku (f v) <> v_sku w) ->
  NoDup (map v_sku (map (fun v => if v_id v =? id then f v else v) rows)).
Proof.
  intros Hid. induction rows as [|x rows IH]; simpl; intros Hids Hskus Hnew;
    [constructor|].
  inversion Hids as [|? ? Hx Hids']; subst.
  inversion Hskus as [|? ? Hsx Hskus']; subst.
  constructor.
  - intros H. apply in_map_iff in H. destruct H as [y' [E Hy']].
    apply in_map_iff in Hy'. destruct Hy' as [y [<- Hy]].
    destruct (v_id x =? id) eqn:Ex, (v_id y =? id) eqn:Ey.
    + apply Z.eqb_eq in Ex, Ey. apply Hx. rewrite Ex, <- Ey. now apply in_map.
    + apply Z.eqb_eq in Ex. apply Z.eqb_neq in Ey.
      apply (Hnew x y); simpl; auto.
    + apply Z.eqb_neq in Ex. apply Z.eqb_eq in Ey.
      apply (Hnew y x); simpl; auto.
    + apply Hsx. rewrite <- E. now apply in_map.
  - apply IH; auto.
Qed.

Lemma other_variant_none (s : store) (sku : string) (id : Z) (w : variant) :
  other_variant_by_sku s sku id = None ->
  In w (variants s) -> v_id w <> id -> v_sku w <> sku.
Proof.
  unfold other_variant_by_sku. intros Hnone Hin Hne Heq.
  apply (find_none _ _ Hnone) in Hin.
  rewrite Heq, String.eqb_refl in Hin. apply Z.eqb_neq in Hne.
  rewrite Hne in Hin. discriminate.
Qed.

Lemma fold_assign_keeps (updates : list Variants.assignment) :
  forall v,
    v_id (fold_left Variants.assign updates v) = v_id v
    /\ v_product_id (fold_left Variants.assign updates v) = v_product_id v.
Proof.
  induction updates as [|a updates IH]; intros v; simpl; [auto|].
  destruct (IH (Variants.assign v a)) as [-> ->]. destruct a; auto.
Qed.

(** After the assignments the row has either the SKU it had or one that
    an assignment of the list sets. *)
Lemma fold_assign_sku (updates : list Variants.assignment) :
  forall v,
    v_sku (fold_left Variants.assign updates v) = v_sku v
    \/ In (Variants.set_sku (v_sku (fold_left Variants.assign updates v)))
          updates.
Proof.
  induction updates as [|a updates IH]; intros v; simpl; [auto|].
  destruct (IH (Variants.assign v a)) as [H|H]; [|auto].
  rewrite H. destruct a; simpl; auto.
Qed.

Lemma NoDup_map_inj {A B} (f : A -> B) (l : list A) (a b : A) :
  NoDup (map f l) -> In a l -> In b l -> f a = f b -> a = b.
Proof.
  induction l as [|x l IH]; simpl; intros Hnd Ha Hb E; [contradiction|].
  inversion Hnd as [|? ? Hx Hl]; subst.
  destruct Ha as [->|Ha], Hb as [->|Hb]; auto.
  - exfalso. apply Hx. rewrite E. now apply in_map.
  - exfalso. apply Hx. rewrite <- E. now apply in_map.
Qed.

Lemma wf_update_statement (s s' : store)
    (updates : list Variants.assignment) (id : Z) :
  wf s -> Variants.update_statement s updates id = Done s' -> wf s'.
Proof.
  intros [Hp Hv Hs Ho]. unfold Variants.update_statement.
  destruct (existsb _ _) eqn:Htaken; [discriminate|].
  intros H. injection H as <-.
  assert (Hkeeps : forall v,
             v_id (fold_left Variants.assign updates v) = v_id v
             /\ v_product_id (fold_left Variants.assign updates v)
                = v_product_id v)
    by apply fold_assign_keeps.
  constructor; simpl; auto.
  - rewrite (keys_after_update v_id); auto. intros v. apply Hkeeps.
  - apply skus_after_update; auto; [intros v; apply Hkeeps|].
    intros v w Hin Hw Hvid Hwid Heq.
    destruct (fold_assign_sku updates v) as [Hkeep|Hset].
    + rewrite Hkeep in Heq.
      assert (v = w) by (apply (NoDup_map_inj v_sku (variants s)); auto).
      subst w. contradiction.
    + rewrite Heq in Hset.
      assert (Hfree : Variants.sets_taken_sku s id
                        (Variants.set_sku (v_sku w)) = false).
      { destruct (Variants.sets_taken_sku s id _) eqn:E; [|reflexivity].
        rewrite <- Htaken. symmetry. apply existsb_exists. eauto. }
      simpl in Hfree.
      destruct (other_variant_by_sku s (v_sku w) id) eqn:Hother;
        [discriminate|].
      now apply (other_variant_none s (v_sku w) id w Hother Hw Hwid).
  - intros w Hin. apply in_map_iff in Hin. destruct Hin as [v [<- Hv']].
    destruct (v_id v =? id); [|now apply Ho].
    destruct (Hkeeps v) as [_ ->]. now apply Ho.
Qed.

(** Every handler returns a store that satisfies the invariant when the
    store it was given does. *)
Theorem handlers_keep_wf (s : store) (now id : Z) :
  wf s ->
  (forall b, wf (fst (Products.create_product s now b)))
  /\ (forall fk b, wf (fst (Products.update_product fk s now id b)))
  /\ wf (fst (Products.delete_product s now id))
  /\ (forall b, wf (fst (Variants.update_variant s now id b)))
  /\ wf (fst (Variants.delete_variant s id)).
Proof.
  intros Hwf. split; [|split; [|split; [|split]]].
  - intros b. unfold Products.create_product.
    destruct (negb _ || _); [exact Hwf|].
    destruct (Products.b_variants b) as [| | | | |vs|]; try exact Hwf.
    destruct vs as [|v vs]; [exact Hwf|].
    destruct (negb _); [exact Hwf|].
    destruct (match Products.b_category_id b with Given _ => _ | _ => _ end);
      [exact Hwf|].
    destruct (Products.validate_variants _ _ _ _); [exact Hwf|].
    unfold Products.createProductTransaction.
    pose proof (wf_insert_product s now
                  (Js.trimmed (Products.b_name b))
                  (orNull (Products.b_description b))
                  (orNull (Products.b_category_id b))
                  (Js.string_of (Js.coalesce (Products.b_status b)
                                             (Js.Str "active"))) Hwf) as H1.
    unfold insert_product in *. cbn [fst] in H1.
    destruct (Products.insert_variants _ now _ (v :: vs)) as [s2|] eqn:Hrun;
      cbn [bind fst]; [|exact Hwf].
    apply wf_insert_variants in Hrun; auto.
    cbn [products]. rewrite map_app, in_app_iff. right. simpl. auto.
  - intros fk b. unfold Products.update_product.
    destruct (product_by_id s id); [|exact Hwf].
    unfold Products.update_statement.
    destruct (fk && _); [exact Hwf|]. cbn [fst].
    now apply wf_update_products.
  - unfold Products.delete_product.
    destruct (product_by_id s id); [|exact Hwf].
    now apply wf_update_products.
  - intros b. unfold Variants.update_variant.
    destruct (variant_by_id s id); [|exact Hwf].
    repeat match goal with
           | |- wf (fst (if ?c then _ else _)) => destruct c; [exact Hwf|]
           end.
    destruct (Variants.update_statement _ _ _) as [s1|] eqn:Hrun;
      [|exact Hwf].
    now apply wf_update_statement in Hrun.
  - unfold Variants.delete_variant.
    destruct (variant_by_id s id); [|exact Hwf].
    destruct (_ <=? 1); [exact Hwf|]. now apply wf_delete_variants.
Qed.

End Invariant.

(** ** Reading and soft-deleting products *)

Section ProductRows.
Import Db Http Products.

Lemma soft_delete_keeps_id (now : Z) (p : product) :
  p_id (soft_delete now p) = p_id p.
Proof. reflexivity. Qed.

Lemma product_after_delete (s : store) (now id : Z) :
  product_by_id (update_products s id (soft_delete now)) id
  = option_map (soft_delete now) (product_by_id s id).
Proof.
  unfold product_by_id, update_products; simpl.
  apply (find_after_update p_id). apply soft_delete_keeps_id.
Qed.

(** The soft-delete predicate is the first entry of [conditions], whatever
    the query: the optional pushes only add entries after it. *)
Lemma conditions_seed (q : query) :
  exists pushed, conditions q = deleted_at_is_null :: pushed.
Proof. unfold conditions. simpl. eexists. reflexivity. Qed.

Lemma where_keeps_live (q : query) (rows : list product) (p : product) :
  In p (where_ (conditions q) rows) -> In p rows /\ p_deleted_at p = None.
Proof.
  destruct (conditions_seed q) as [pushed ->].
  unfold where_. simpl. rewrite filter_In.
  intros [Hin Hall]. split; [exact Hin|].
  apply andb_true_iff in Hall. destruct Hall as [Hlive _].
  unfold deleted_at_is_null in Hlive.
  destruct (p_deleted_at p); [discriminate|reflexivity].
Qed.

(** Every listed row summarises a product row of the table that is not
    soft-deleted. *)
Lemma listed_rows (s : store) (q : query) (rows : list summary) :
  list_products s q = Ok rows ->
  Forall (fun r => In (s_product r) (products s)
                   /\ p_deleted_at (s_product r) = None) rows.
Proof.
  unfold list_products. intros H. injection H as <-.
  apply Forall_forall. intros r Hr.
  apply in_map_iff in Hr. destruct Hr as [p [<- Hp]].
  apply In_order_by in Hp. simpl. now apply where_keeps_live in Hp.
Qed.

Lemma delete_product_ok (s s' : store) (now id : Z) :
  delete_product s now id = (s', Ok Success) ->
  exists p, product_by_id s id = Some p
            /\ s' = update_products s id (soft_delete now).
Proof.
  unfold delete_product. destruct (product_by_id s id) as [p|]; intros H.
  - injection H as <-. now exists p.
  - discriminate.
Qed.

End ProductRows.

(** C2. Whatever the search and category filters of the query, every row
    that list-products returns has [deleted_at] absent: the predicate is a
    fixed conjunct of the [WHERE] clause. And once delete-product(id) has
    succeeded, get-product(id) still succeeds, on the row with
    [deleted_at] set to the time of the delete, while no listing shows the
    id any more. *)
Theorem soft_delete_visibility :
  (forall s q, exists rows,
      Products.list_products s q = Http.Ok rows
      /\ Forall (fun r => Db.p_deleted_at (Products.s_product r) = None) rows)
  /\
  (forall s now id s',
      Products.delete_product s now id = (s', Http.Ok Http.Success) ->
      (exists j,
          Products.get_product s' id
          = Http.Ok {| Products.d_product := Some j;
                       Products.d_variants := Db.variants_of s' id |}
          /\ Db.p_id (Db.j_product j) = id
          /\ Db.p_deleted_at (Db.j_product j) = Some now)
      /\ forall q, exists rows,
          Products.list_products s' q = Http.Ok rows
          /\ Forall (fun r => Db.p_id (Products.s_product r) <> id) rows).
Proof.
  split.
  - intros s q. eexists. split; [reflexivity|].
    eapply Forall_impl; [|apply (listed_rows s q); reflexivity].
    simpl. intros r [_ H]. exact H.
  - intros s now id s' Hdel.
    apply delete_product_ok in Hdel. destruct Hdel as [p [Hp ->]].
    split.
    + unfold Products.get_product, Db.product_joined.
      rewrite product_after_delete, Hp. simpl.
      eexists. split; [reflexivity|]. simpl. split; [|reflexivity].
      apply (find_has_key Db.p_id) in Hp. apply Hp.
    + intros q. eexists. split; [reflexivity|].
      eapply Forall_impl;
        [|apply (listed_rows (Db.update_products s id (Products.soft_delete now)) q);
          reflexivity].
      simpl. intros r [Hin Hlive] Hid.
      apply in_map_iff in Hin. destruct Hin as [p0 [Hrow _]].
      destruct (Db.p_id p0 =? id) eqn:E.
      * rewrite <- Hrow in Hlive. discriminate.
      * rewrite <- Hrow in Hid. apply Z.eqb_neq in E. contradiction.
Qed.

(** C10. delete-product on a row that exists, soft-deleted already or
    not, answers with the success marker and writes the time of the call
    into [deleted_at] and [updated_at]; a second delete at a later time is
    answered the same way and moves both timestamps to that time. *)
Theorem delete_product_overwrites_timestamp :
  forall s now id p,
    Db.product_by_id s id = Some p ->
    let s' := Db.update_products s id (Products.soft_delete now) in
    Products.delete_product s now id = (s', Http.Ok Http.Success)
    /\ Db.product_by_id s' id = Some (Products.soft_delete now p)
    /\ forall later,
        let s'' := Db.update_products s' id (Products.soft_delete later) in
        Products.delete_product s' later id = (s'', Http.Ok Http.Success)
        /\ exists p'', Db.product_by_id s'' id = Some p''
                       /\ Db.p_deleted_at p'' = Some later
                       /\ Db.p_updated_at p'' = later.
Proof.
  intros s now id p Hp s'.
  assert (Hp' : Db.product_by_id s' id = Some (Products.soft_delete now p)).
  { unfold s'. rewrite product_after_delete, Hp. reflexivity. }
  split; [|split].
  - unfold Products.delete_product. rewrite Hp. reflexivity.
  - exact Hp'.
  - intros later s''. split.
    + unfold Products.delete_product. rewrite Hp'. reflexivity.
    + eexists. split.
      * unfold s''. rewrite product_after_delete, Hp'. reflexivity.
      * split; reflexivity.
Qed.

Lemma soft_delete_visibility_witness :
  Products.delete_product Example.catalog 300 1
  = (Db.update_products Example.catalog 1 (Products.soft_delete 300),
     Http.Ok Http.Success)
  /\ exists j,
      Products.get_product
        (Db.update_products Example.catalog 1 (Products.soft_delete 300)) 1
      = Http.Ok {| Products.d_product := Some j;
                   Products.d_variants :=
                     Db.variants_of
                       (Db.update_products Example.catalog 1
                          (Products.soft_delete 300)) 1 |}
      /\ Db.p_id (Db.j_product j) = 1
      /\ Db.p_deleted_at (Db.j_product j) = Some 300.
Proof.
  split; [reflexivity|].
  apply (proj2 soft_delete_visibility Example.catalog 300 1 _ eq_refl).
Defined.

Lemma delete_product_overwrites_timestamp_witness :
  Db.product_by_id Example.catalog 3 = Some Example.retired
  /\ Db.p_deleted_at Example.retired = Some 250
  /\ Products.delete_product Example.catalog 400 3
     = (Db.update_products Example.catalog 3 (Products.soft_delete 400),
        Http.Ok Http.Success)
  /\ Db.product_by_id
       (Db.update_products Example.catalog 3 (Products.soft_delete 400)) 3
     = Some (Products.soft_delete 400 Example.retired).
Proof.
  split; [reflexivity|]. split; [reflexivity|].
  destruct (delete_product_overwrites_timestamp
              Example.catalog 400 3 Example.retired eq_refl) as [H1 [H2 _]].
  split; assumption.
Defined.

(** ** Updating products *)

Section ProductUpdates.
Import Db Http Products Payload.

(** The two ways an update of an existing row ends: refused by the engine,
    with the store as it was, or written. *)
Lemma update_product_cases (fk : bool) (s : store) (now id : Z)
    (b : update_body) (p : product) :
  product_by_id s id = Some p ->
  (update_product fk s now id b = (s, Internal "FOREIGN KEY constraint failed")
   /\ fk = true
   /\ exists cid, u_category_id b = Given cid /\ category_by_id s cid = None)
  \/ (update_product fk s now id b
      = (update_products s id (merged now b),
         Ok (product_joined (update_products s id (merged now b)) id))
      /\ product_by_id (update_products s id (merged now b)) id
         = Some (merged now b p)).
Proof.
  intros Hp. unfold update_product, update_statement. rewrite Hp.
  fold (merged now b).
  assert (Hrow : product_by_id (update_products s id (merged now b)) id
                 = Some (merged now b p)).
  { unfold product_by_id, update_products; simpl.
    rewrite (find_after_update p_id) by reflexivity.
    fold (product_by_id s id). rewrite Hp. reflexivity. }
  destruct (fk && _) eqn:E.
  - left. split; [reflexivity|].
    apply andb_true_iff in E. destruct E as [-> E]. split; [reflexivity|].
    destruct (u_category_id b) as [| |cid]; simpl in E; try discriminate.
    exists cid. split; [reflexivity|].
    destruct (category_by_id s cid); [discriminate|reflexivity].
  - right. split; [reflexivity|exact Hrow].
Qed.

End ProductUpdates.

(** C9. In update-product a field sent as [null] is a field not sent: the
    two requests have the same outcome on every store. An update therefore
    cannot empty a description or a category reference that the row has,
    and the update whose fields are all [null] rewrites [updated_at] and
    nothing else. *)
Theorem update_product_null_is_absent :
  (forall fk s now id b,
      Products.update_product fk s now id b
      = Products.update_product fk s now id (Payload.without_nulls b))
  /\
  (forall fk s now id b p,
      Db.product_by_id s id = Some p ->
      exists p',
        Db.product_by_id (fst (Products.update_product fk s now id b)) id
        = Some p'
        /\ (Db.p_description p <> None -> Db.p_description p' <> None)
        /\ (Db.p_category_id p <> None -> Db.p_category_id p' <> None))
  /\
  (forall fk s now id p,
      Db.product_by_id s id = Some p ->
      let s' := Db.update_products s id (Payload.touch now) in
      Products.update_product fk s now id Example.all_null
      = (s', Http.Ok (Db.product_joined s' id))
      /\ Db.product_by_id s' id = Some (Payload.touch now p)).
Proof.
  split; [|split].
  - intros fk s now id b. unfold Products.update_product.
    destruct b as [n d c st]; destruct n, d, c, st; reflexivity.
  - intros fk s now id b p Hp.
    destruct (update_product_cases fk s now id b p Hp)
      as [[-> _]|[-> Hrow]]; simpl.
    + exists p. auto.
    + exists (Payload.merged now b p). split; [exact Hrow|].
      unfold Payload.merged; simpl. split; intros Hsome.
      * destruct (orNull (Products.u_description b)); simpl;
          [discriminate|exact Hsome].
      * destruct (orNull (Products.u_category_id b)); simpl;
          [discriminate|exact Hsome].
  - intros fk s now id p Hp s'.
    assert (Hsame : Db.update_products s id (Payload.merged now Example.all_null)
                    = s').
    { unfold s', Db.update_products. f_equal. }
    destruct (update_product_cases fk s now id Example.all_null p Hp)
      as [[_ [_ [cid [Hc _]]]]|[Hres Hrow]].
    + discriminate.
    + rewrite Hsame in Hres, Hrow. split; [exact Hres|exact Hrow].
Qed.

Lemma update_product_null_is_absent_witness :
  Db.product_by_id Example.catalog 1 = Some Example.beans
  /\ Db.product_by_id
       (fst (Products.update_product true Example.catalog 300 1
               Example.all_null)) 1
     = Some (Payload.touch 300 Example.beans).
Proof.
  split; [reflexivity|].
  destruct (proj2 (proj2 update_product_null_is_absent)
              true Example.catalog 300 1 Example.beans eq_refl) as [H1 H2].
  rewrite H1. exact H2.
Defined.

(** ** The category guard *)

Section CategoryGuard.
Import Db Http Products.

(** create-product refuses a category reference that does not resolve,
    before anything is written. *)
Lemma create_product_requires_category (s : store) (now : Z)
    (b : create_body) (cid : Z) :
  b_category_id b = Given cid ->
  category_by_id s cid = None ->
  exists error, create_product s now b = (s, InvalidInput error).
Proof.
  intros Hc Hcat. unfold create_product.
  destruct (negb (Js.truthy (b_name b)) || Js.blank_or_not_string (b_name b));
    [eexists; reflexivity|].
  destruct (b_variants b) as [| | | | |vs|]; try (eexists; reflexivity).
  destruct vs as [|v vs]; [eexists; reflexivity|].
  destruct (negb (Js.includes validStatuses _)); [eexists; reflexivity|].
  rewrite Hc, Hcat. simpl. eexists; reflexivity.
Qed.

(** update-product has no outcome in the [InvalidInput] class. *)
Lemma update_product_never_invalid (fk : bool) (s : store) (now id : Z)
    (b : update_body) :
  match snd (update_product fk s now id b) with
  | InvalidInput _ => False
  | _ => True
  end.
Proof.
  unfold update_product.
  destruct (product_by_id s id); [|exact I].
  destruct (update_statement _ _ _ _ _ _ _ _); exact I.
Qed.

End CategoryGuard.

(** C5. The category guard of create-product, and its absence from
    update-product. A create whose [category_id] resolves to no category is
    answered [InvalidInput] with the store untouched. The update
    [{ category_id: 99 }] of product 1, in a catalog whose only category
    has id 1, is never answered [InvalidInput]: with foreign keys off the
    row is rewritten to reference the missing category, with foreign keys
    on the engine's refusal surfaces as [Internal]. *)
Theorem update_product_skips_category_guard :
  (forall s now b cid,
      Products.b_category_id b = Given cid ->
      Db.category_by_id s cid = None ->
      exists error,
        Products.create_product s now b = (s, Http.InvalidInput error))
  /\ Db.category_by_id Example.catalog 99 = None
  /\ (exists s' j,
        Products.update_product false Example.catalog 300 1
          (Example.recategorise 99) = (s', Http.Ok (Some j))
        /\ Db.p_category_id (Db.j_product j) = Some 99
        /\ Db.category_name j = None
        /\ Db.product_by_id s' 1 = Some (Db.j_product j))
  /\ Products.update_product true Example.catalog 300 1
       (Example.recategorise 99)
     = (Example.catalog, Http.Internal "FOREIGN KEY constraint failed")
  /\ (forall fk s now id b,
        match snd (Products.update_product fk s now id b) with
        | Http.InvalidInput _ => False
        | _ => True
        end).
Proof.
  split; [exact create_product_requires_category|].
  split; [reflexivity|].
  split; [do 2 eexists; repeat split; reflexivity|].
  split; [reflexivity|].
  exact update_product_never_invalid.
Qed.

(** ** Deleting variants *)

Section VariantDeletes.
Import Db Http Variants.

Lemma count_after_delete_variant (s : store) (v : variant) (product_id : Z) :
  wf s -> In v (variants s) ->
  count_variants (delete_variants s (v_id v)) product_id
  = count_variants s product_id
    - (if v_product_id v =? product_id then 1 else 0).
Proof.
  intros Hwf Hin. unfold count_variants, delete_variants; simpl.
  apply (count_after_delete v_id (fun x => v_product_id x =? product_id)).
  - apply Hwf.
  - exact Hin.
Qed.

Lemma variant_by_own_id (s : store) (v : variant) :
  wf s -> In v (variants s) -> variant_by_id s (v_id v) = Some v.
Proof.
  intros Hwf Hin. apply (find_by_unique_key v_id); [apply Hwf|exact Hin].
Qed.

(** A delete, answered either way, leaves at least one variant to every
    product that had one. *)
Lemma delete_variant_keeps_one (s : store) (id product_id : Z) :
  wf s ->
  1 <= count_variants s product_id ->
  1 <= count_variants (fst (delete_variant s id)) product_id.
Proof.
  intros Hwf Hone. unfold delete_variant.
  destruct (variant_by_id s id) as [v|] eqn:Hv; [|exact Hone].
  apply (find_has_key v_id) in Hv. destruct Hv as [Hin <-].
  destruct (count_variants s (v_product_id v) <=? 1) eqn:Hguard;
    [exact Hone|].
  simpl. rewrite count_after_delete_variant by assumption.
  apply Z.leb_gt in Hguard.
  destruct (v_product_id v =? product_id) eqn:E; [|lia].
  apply Z.eqb_eq in E. rewrite <- E. lia.
Qed.

End VariantDeletes.

(** C3. In a store with unique keys, take any variant row. If its product
    has exactly one variant, delete-variant on it is answered
    [InvalidInput] and the store is the one before the call. If its
    product has two or more, the delete succeeds, removes that row and no
    other, and the product's variant count is one less. Either way a
    product that had a variant before a delete-variant call has one after
    it. *)
Theorem delete_variant_last_variant_law :
  forall s v,
    Db.wf s -> In v (Db.variants s) ->
    (Db.count_variants s (Db.v_product_id v) = 1 ->
     Variants.delete_variant s (Db.v_id v)
     = (s, Http.InvalidInput "Cannot delete the last variant of a product"))
    /\
    (2 <= Db.count_variants s (Db.v_product_id v) ->
     let s' := Db.delete_variants s (Db.v_id v) in
     Variants.delete_variant s (Db.v_id v) = (s', Http.Ok Http.Success)
     /\ Db.count_variants s' (Db.v_product_id v)
        = Db.count_variants s (Db.v_product_id v) - 1
     /\ (forall w, In w (Db.variants s') <-> In w (Db.variants s) /\ w <> v))
    /\
    (forall id product_id,
        1 <= Db.count_variants s product_id ->
        1 <= Db.count_variants (fst (Variants.delete_variant s id)) product_id).
Proof.
  intros s v Hwf Hin.
  pose proof (variant_by_own_id s v Hwf Hin) as Hfind.
  split; [|split].
  - intros Hone. unfold Variants.delete_variant. rewrite Hfind, Hone.
    reflexivity.
  - intros Hmany s'. split; [|split].
    + unfold Variants.delete_variant. rewrite Hfind.
      destruct (Db.count_variants s (Db.v_product_id v) <=? 1) eqn:Hguard;
        [apply Z.leb_le in Hguard; lia|reflexivity].
    + unfold s'. rewrite count_after_delete_variant by assumption.
      rewrite Z.eqb_refl. reflexivity.
    + intros w. unfold s', Db.delete_variants; simpl.
      rewrite (in_after_delete Db.v_id). split; intros [Hw Hne]; split; auto.
      * intros ->. now apply Hne.
      * intros Hk. apply Hne.
        apply (unique_key_inj Db.v_id (Db.variants s)); auto. apply Hwf.
  - intros id product_id. now apply delete_variant_keeps_one.
Qed.

Lemma catalog_wf : Db.wf Example.catalog.
Proof.
  constructor; simpl.
  - repeat constructor; simpl; intuition discriminate.
  - repeat constructor; simpl; intuition discriminate.
  - repeat constructor; simpl; intuition discriminate.
  - intros v [<-|[<-|[<-|[<-|[]]]]]; simpl; auto.
Qed.

Lemma delete_variant_last_variant_law_witness :
  Variants.delete_variant Example.catalog 3
  = (Example.catalog,
     Http.InvalidInput "Cannot delete the last variant of a product")
  /\ Variants.delete_variant Example.catalog 1
     = (Db.delete_variants Example.catalog 1, Http.Ok Http.Success)
  /\ Db.count_variants (Db.delete_variants Example.catalog 1) 1 = 2 - 1.
Proof.
  split.
  - apply (proj1 (delete_variant_last_variant_law
                    Example.catalog Example.pepper_only catalog_wf
                    (or_intror (or_intror (or_introl eq_refl))))).
    reflexivity.
  - destruct (proj1 (proj2 (delete_variant_last_variant_law
                              Example.catalog Example.beans_small catalog_wf
                              (or_introl eq_refl))))
      as [H1 [H2 _]].
    + vm_compute. discriminate.
    + split; [exact H1|exact H2].
Defined.

(** ** Updating variants *)

Section VariantUpdates.
Import Db Http Variants Payload.

(** The assignments of a request, applied in order and followed by the
    timestamp, rewrite a row into [patched]. *)
Lemma assignments_patch (now : Z) (b : update_body) (v : variant) :
  fold_left assign (build_updates b ++ [set_updated_at now]) v
  = patched now b v.
Proof.
  unfold build_updates, patched.
  destruct (defined (b_name b)), (defined (b_sku b)),
    (defined (b_price_cents b)), (defined (b_inventory_count b));
    reflexivity.
Qed.

Lemma update_variants_ext (s : store) (id : Z) (f g : variant -> variant) :
  (forall v, f v = g v) -> update_variants s id f = update_variants s id g.
Proof.
  intros Hfg. unfold update_variants. f_equal.
  apply map_ext. intros v. destruct (v_id v =? id); [apply Hfg|reflexivity].
Qed.

Lemma variant_after_update (s : store) (id : Z) (f : variant -> variant) :
  (forall v, v_id (f v) = v_id v) ->
  variant_by_id (update_variants s id f) id
  = option_map f (variant_by_id s id).
Proof.
  intros Hid. unfold variant_by_id, update_variants; simpl.
  now apply (find_after_update v_id).
Qed.

(** What the [UPDATE] of the handler does when the engine accepts it. *)
Lemma update_statement_done (s s' : store) (now id : Z) (b : update_body) :
  update_statement s (build_updates b ++ [set_updated_at now]) id = Done s' ->
  s' = update_variants s id (patched now b).
Proof.
  unfold update_statement.
  destruct (existsb _ _); [discriminate|].
  intros H. injection H as <-.
  apply update_variants_ext. intros v. apply assignments_patch.
Qed.

(** Every successful update found the row and rewrote it into [patched],
    and it answers with the rewritten row. *)
Lemma update_variant_ok (s s' : store) (now id : Z) (b : update_body)
    (r : option variant) :
  update_variant s now id b = (s', Ok r) ->
  exists existing,
    variant_by_id s id = Some existing
    /\ s' = update_variants s id (patched now b)
    /\ r = Some (patched now b existing).
Proof.
  unfold update_variant.
  destruct (variant_by_id s id) as [existing|] eqn:Hfind; [|discriminate].
  repeat match goal with
         | |- (if ?c then _ else _) = _ -> _ => destruct c; [discriminate|]
         end.
  destruct (update_statement _ _ _) as [s1|] eqn:Hrun; [|discriminate].
  intros H. injection H as <- <-.
  apply update_statement_done in Hrun. subst s1.
  exists existing. split; [reflexivity|]. split; [reflexivity|].
  rewrite variant_after_update by reflexivity. rewrite Hfind. reflexivity.
Qed.

(** A request that carries only amounts passes every check on names and
    SKUs, and the engine has no reason to refuse it. *)
Lemma update_amounts_only (s : store) (now id : Z) (b : update_body)
    (existing : variant) :
  variant_by_id s id = Some existing ->
  b_name b = Js.Undefined -> b_sku b = Js.Undefined ->
  update_variant s now id b
  = if defined (b_price_cents b)
       && Js.negative_or_not_number (b_price_cents b)
    then (s, InvalidInput "price_cents must be a number >= 0")
    else if defined (b_inventory_count b)
            && Js.negative_or_not_number (b_inventory_count b)
    then (s, InvalidInput "inventory_count must be a number >= 0")
    else if defined (b_price_cents b) || defined (b_inventory_count b)
    then (update_variants s id (patched now b),
          Ok (Some (patched now b existing)))
    else (s, InvalidInput "No fields provided to update").
Proof.
  intros Hfind Hname Hsku. unfold update_variant.
  rewrite Hfind, Hname, Hsku. cbn [defined andb].
  destruct (defined (b_price_cents b) && _); [reflexivity|].
  destruct (defined (b_inventory_count b) && _); [reflexivity|].
  destruct (update_statement s (build_updates b ++ [set_updated_at now]) id)
    as [s1|m] eqn:Hrun.
  - apply update_statement_done in Hrun. subst s1.
    rewrite variant_after_update by reflexivity. rewrite Hfind.
    unfold build_updates. rewrite Hname, Hsku.
    destruct (defined (b_price_cents b)), (defined (b_inventory_count b));
      reflexivity.
  - exfalso. revert Hrun. unfold update_statement, build_updates.
    rewrite Hname, Hsku.
    destruct (defined (b_price_cents b)), (defined (b_inventory_count b));
      discriminate.
Qed.

End VariantUpdates.

(** C6. A successful update-variant rewrites the row it found into
    [Payload.patched]: the columns named in the request take the request's
    values, the others (and [id], [product_id], [created_at]) keep theirs,
    and [updated_at] becomes the time of the update. In particular the
    update [{ price_cents: X }] with [X >= 0] succeeds and changes
    [price_cents] and [updated_at] only, and the update
    [{ inventory_count: Y }] with [Y >= 0] succeeds and changes
    [inventory_count] and [updated_at] only. *)
Theorem update_variant_touches_supplied_fields :
  (forall s now id b s' r,
      Variants.update_variant s now id b = (s', Http.Ok r) ->
      exists existing,
        Db.variant_by_id s id = Some existing
        /\ s' = Db.update_variants s id (Payload.patched now b)
        /\ r = Some (Payload.patched now b existing))
  /\
  (forall s now id existing X,
      Db.variant_by_id s id = Some existing -> 0 <= X ->
      Variants.update_variant s now id (Example.only_price (Js.Num X))
      = (Db.update_variants s id
           (Payload.patched now (Example.only_price (Js.Num X))),
         Http.Ok (Some
           {| Db.v_id := Db.v_id existing;
              Db.v_product_id := Db.v_product_id existing;
              Db.v_sku := Db.v_sku existing;
              Db.v_name := Db.v_name existing;
              Db.v_price_cents := X;
              Db.v_inventory_count := Db.v_inventory_count existing;
              Db.v_created_at := Db.v_created_at existing;
              Db.v_updated_at := now |})))
  /\
  (forall s now id existing Y,
      Db.variant_by_id s id = Some existing -> 0 <= Y ->
      Variants.update_variant s now id (Example.only_inventory (Js.Num Y))
      = (Db.update_variants s id
           (Payload.patched now (Example.only_inventory (Js.Num Y))),
         Http.Ok (Some
           {| Db.v_id := Db.v_id existing;
              Db.v_product_id := Db.v_product_id existing;
              Db.v_sku := Db.v_sku existing;
              Db.v_name := Db.v_name existing;
              Db.v_price_cents := Db.v_price_cents existing;
              Db.v_inventory_count := Y;
              Db.v_created_at := Db.v_created_at existing;
              Db.v_updated_at := now |}))).
Proof.
  split; [|split].
  - intros s now id b s' r. apply update_variant_ok.
  - intros s now id existing X Hfind HX.
    rewrite (update_amounts_only s now id (Example.only_price (Js.Num X))
               existing Hfind eq_refl eq_refl).
    simpl. apply Z.ltb_ge in HX. rewrite HX. reflexivity.
  - intros s now id existing Y Hfind HY.
    rewrite (update_amounts_only s now id (Example.only_inventory (Js.Num Y))
               existing Hfind eq_refl eq_refl).
    simpl. apply Z.ltb_ge in HY. rewrite HY. reflexivity.
Qed.

Lemma update_variant_touches_supplied_fields_witness :
  Db.variant_by_id Example.catalog 1 = Some Example.beans_small
  /\ snd (Variants.update_variant Example.catalog 300 1
            (Example.only_price (Js.Num 777)))
     = Http.Ok (Some
         {| Db.v_id := 1; Db.v_product_id := 1;
            Db.v_sku := "BB-15OZ"; Db.v_name := "15 oz";
            Db.v_price_cents := 777; Db.v_inventory_count := 40;
            Db.v_created_at := 100; Db.v_updated_at := 300 |}).
Proof.
  split; [reflexivity|].
  rewrite (proj1 (proj2 update_variant_touches_supplied_fields)
             Example.catalog 300 1 Example.beans_small 777 eq_refl).
  - reflexivity.
  - vm_compute. discriminate.
Defined.

(** C8. On an existing variant the update with none of the four fields is
    answered [InvalidInput] ("No fields provided to update") and the store,
    timestamps included, is the one before the call. Checks apply to
    supplied fields only: an update that supplies [price_cents] alone is
    answered on the price alone, and no update is answered with the name
    error without a [name] field, nor with the SKU error or a conflict
    without a [sku] field. *)
Theorem update_variant_checks_supplied_fields :
  (forall s now id existing,
      Db.variant_by_id s id = Some existing ->
      Variants.update_variant s now id Example.no_fields
      = (s, Http.InvalidInput "No fields provided to update"))
  /\
  (forall s now id existing price,
      Db.variant_by_id s id = Some existing ->
      Variants.defined price = true ->
      Variants.update_variant s now id (Example.only_price price)
      = if Js.negative_or_not_number price
        then (s, Http.InvalidInput "price_cents must be a number >= 0")
        else (Db.update_variants s id
                (Payload.patched now (Example.only_price price)),
              Http.Ok (Some (Payload.patched now (Example.only_price price)
                               existing))))
  /\
  (forall s now id b,
      (Variants.b_name b = Js.Undefined ->
       snd (Variants.update_variant s now id b)
       <> Http.InvalidInput "Variant name must be a non-empty string")
      /\ (Variants.b_sku b = Js.Undefined ->
          snd (Variants.update_variant s now id b)
          <> Http.InvalidInput "SKU must be a non-empty string"
          /\ forall error,
              snd (Variants.update_variant s now id b)
              <> Http.Conflict error)).
Proof.
  split; [|split].
  - intros s now id existing Hfind.
    now rewrite (update_amounts_only s now id Example.no_fields
                   existing Hfind eq_refl eq_refl).
  - intros s now id existing price Hfind Hdef.
    rewrite (update_amounts_only s now id (Example.only_price price)
               existing Hfind eq_refl eq_refl).
    simpl. rewrite Hdef. simpl.
    destruct (Js.negative_or_not_number price); reflexivity.
  - intros s now id b. unfold Variants.update_variant.
    destruct (Db.variant_by_id s id) as [existing|];
      [|split; [|split]; intros; simpl; discriminate].
    split.
    + intros ->. cbn [Variants.defined andb].
      repeat match goal with
             | |- snd (if ?c then _ else _) <> _ =>
                 destruct c; [simpl; discriminate|]
             end.
      destruct (Variants.update_statement _ _ _); simpl; discriminate.
    + intros ->. cbn [Variants.defined andb].
      split; [|intros error];
        repeat match goal with
               | |- snd (if ?c then _ else _) <> _ =>
                   destruct c; [simpl; discriminate|]
               end;
        destruct (Variants.update_statement _ _ _); simpl; discriminate.
Qed.

Lemma update_variant_checks_supplied_fields_witness :
  Db.variant_by_id Example.catalog 3 = Some Example.pepper_only
  /\ Variants.update_variant Example.catalog 300 3 Example.no_fields
     = (Example.catalog, Http.InvalidInput "No fields provided to update").
Proof.
  split; [reflexivity|].
  apply (proj1 update_variant_checks_supplied_fields
           Example.catalog 300 3 Example.pepper_only eq_refl).
Defined.

(** ** Creating products: the checks *)

Section CreateChecks.
Import Db Http Products Payload.

Lemma mem_In (k : string) (set : list string) : mem k set = true <-> In k set.
Proof.
  unfold mem. rewrite existsb_exists. split.
  - intros [x [Hx E]]. apply String.eqb_eq in E. now subst.
  - intros H. exists k. split; [exact H|apply String.eqb_refl].
Qed.

Lemma mem_not_In (k : string) (set : list string) :
  ~ In k set -> mem k set = false.
Proof.
  intros H. destruct (mem k set) eqn:E; [|reflexivity].
  apply mem_In in E. contradiction.
Qed.

Lemma nonblank_passes (x : Js.value) :
  nonblank x = true ->
  negb (Js.truthy x) || Js.blank_or_not_string x = false.
Proof.
  destruct x as [| | | |str| |]; try discriminate. simpl. intros H.
  apply negb_true_iff in H.
  destruct str as [|c str]; [discriminate H|]. simpl.
  destruct (Js.trim (String c str)); [discriminate H|reflexivity].
Qed.

Lemma nonblank_trim_of (x : Js.value) :
  nonblank x = true -> trim_of x = Done (Js.trimmed x).
Proof. destruct x; try discriminate. reflexivity. Qed.

Lemma amount_passes (x : Js.value) :
  optional_amount x = true ->
  negb (Js.nullish x) && Js.negative_or_not_number x = false.
Proof.
  destruct x as [| | |n| | |]; try discriminate; try reflexivity.
  simpl. intros H. apply Z.leb_le in H. now apply Z.ltb_ge.
Qed.

Lemma amount_binds (x : Js.value) :
  optional_amount x = true ->
  as_number (Js.coalesce x (Js.Num 0))
  = Done (Js.number_of (Js.coalesce x (Js.Num 0))).
Proof. destruct x; try discriminate; reflexivity. Qed.

Lemma valid_variant_fields (v : Js.value) :
  valid_variant v = true ->
  nonblank (Js.prop v "sku") = true
  /\ nonblank (Js.prop v "name") = true
  /\ optional_amount (Js.prop v "price_cents") = true
  /\ optional_amount (Js.prop v "inventory_count") = true.
Proof.
  unfold valid_variant. intros H.
  apply andb_true_iff in H. destruct H as [H Hinv].
  apply andb_true_iff in H. destruct H as [H Hprice].
  apply andb_true_iff in H. destruct H as [Hsku Hname]. auto.
Qed.

Lemma valid_variant_not_nullish (v : Js.value) :
  valid_variant v = true -> Js.nullish v = false.
Proof.
  intros H. apply valid_variant_fields in H. destruct H as [H _].
  destruct v; try reflexivity; discriminate H.
Qed.

(** One turn of the loop on a well-formed variant: what is left of it is
    the duplicate test, then the lookup in the store. *)
Lemma validate_valid {A} (s : store) (seen : list string) (i : nat)
    (v : Js.value) (rest : list Js.value) :
  valid_variant v = true ->
  @validate_variants A s seen i (v :: rest)
  = if mem (sku_of v) seen
    then Some (InvalidInput (duplicate_sku (sku_of v)))
    else if is_some (variant_by_sku s (sku_of v))
    then Some (Conflict (sku_exists (sku_of v)))
    else validate_variants s (sku_of v :: seen) (S i) rest.
Proof.
  intros Hv. pose proof (valid_variant_not_nullish v Hv) as Hnn.
  apply valid_variant_fields in Hv.
  destruct Hv as [Hsku [Hname [Hprice Hinv]]].
  cbn [validate_variants]. rewrite Hnn.
  rewrite (nonblank_passes _ Hsku), (nonblank_passes _ Hname).
  rewrite (amount_passes _ Hprice), (amount_passes _ Hinv).
  reflexivity.
Qed.

(** A run of well-formed variants with pairwise distinct SKUs, none of
    them seen before or stored, takes the loop to the variant after it. *)
Lemma validate_prefix {A} (s : store) (pre : list Js.value) :
  forall (seen : list string) (i : nat) (rest : list Js.value),
    Forall (fun v => valid_variant v = true) pre ->
    NoDup (map sku_of pre) ->
    (forall k, In k (map sku_of pre) -> ~ In k seen) ->
    (forall k, In k (map sku_of pre) -> variant_by_sku s k = None) ->
    @validate_variants A s seen i (pre ++ rest)
    = validate_variants s (rev (map sku_of pre) ++ seen)
                        (i + List.length pre) rest.
Proof.
  induction pre as [|v pre IH]; intros seen i rest Hvalid Hnd Hseen Hdb.
  - simpl. now rewrite Nat.add_0_r.
  - inversion Hvalid as [|? ? Hv Hpre]; subst.
    inversion Hnd as [|? ? Hfresh Hnd']; subst.
    rewrite <- app_comm_cons, (validate_valid s seen i v _ Hv).
    rewrite mem_not_In by (apply Hseen; simpl; auto).
    rewrite (Hdb (sku_of v)) by (simpl; auto). cbn [is_some].
    rewrite IH; auto.
    + simpl. rewrite <- app_assoc, Nat.add_succ_r. reflexivity.
    + intros k Hk [<-|Hin]; [contradiction|].
      apply (Hseen k); simpl; auto.
    + intros k Hk. apply Hdb. simpl; auto.
Qed.

(** When the loop runs to its end, no SKU of the request is stored. *)
Lemma validate_none {A} (s : store) (vs : list Js.value) :
  forall (seen : list string) (i : nat),
    @validate_variants A s seen i vs = None ->
    forall v, In v vs -> variant_by_sku s (sku_of v) = None.
Proof.
  induction vs as [|x vs IH]; intros seen i Hrun v Hin; [contradiction|].
  cbn [validate_variants] in Hrun.
  repeat match type of Hrun with
         | (if ?c then _ else _) = None =>
             destruct c eqn:?; [discriminate Hrun|]
         end.
  destruct Hin as [<-|Hin].
  - unfold sku_of.
    destruct (variant_by_sku s (Js.trimmed (Js.prop x "sku")));
      [discriminate|reflexivity].
  - eapply IH; eauto.
Qed.

(** The tail of the handler once the checks on name, variants array,
    status and category have passed. *)
Lemma create_after_header (s : store) (now : Z) (b : create_body)
    (vs : list Js.value) :
  valid_header s b = true -> b_variants b = Js.Arr vs -> vs <> [] ->
  create_product s now b
  = match validate_variants s [] 0%nat vs with
    | Some r => (s, r)
    | None =>
        match createProductTransaction s now (Js.trimmed (b_name b))
                (orNull (b_description b)) (orNull (b_category_id b))
                (Js.string_of (Js.coalesce (b_status b) (Js.Str "active")))
                vs with
        | Throw message => (s, Internal message)
        | Done (s', productId) =>
            (s', Created {| d_product := product_joined s' productId;
                            d_variants := variants_of s' productId |})
        end
    end.
Proof.
  unfold valid_header. intros H Hvs Hne.
  apply andb_true_iff in H. destruct H as [H Hcat].
  apply andb_true_iff in H. destruct H as [Hname Hstatus].
  unfold create_product.
  rewrite (nonblank_passes _ Hname), Hvs.
  destruct vs as [|v vs]; [contradiction|].
  assert (Hinc : Js.includes validStatuses
                   (Js.coalesce (b_status b) (Js.Str "active")) = true).
  { destruct (b_status b); try discriminate Hstatus; try reflexivity.
    exact Hstatus. }
  rewrite Hinc. cbn [negb].
  assert (Hc : match b_category_id b with
               | Given cid => negb (is_some (category_by_id s cid))
               | _ => false
               end = false).
  { unfold valid_category in Hcat.
    destruct (b_category_id b); try reflexivity. now rewrite Hcat. }
  rewrite Hc. reflexivity.
Qed.

(** A create that is not answered [Created] returns the store it got. *)
Lemma create_product_atomic (s : store) (now : Z) (b : create_body) :
  match snd (create_product s now b) with
  | Created _ => True
  | _ => fst (create_product s now b) = s
  end.
Proof.
  unfold create_product.
  destruct (negb (Js.truthy (b_name b)) || Js.blank_or_not_string (b_name b));
    [reflexivity|].
  destruct (b_variants b) as [| | | | |vs|]; try reflexivity.
  destruct vs as [|v vs]; [reflexivity|].
  destruct (negb (Js.includes validStatuses _)); [reflexivity|].
  destruct (match b_category_id b with Given _ => _ | _ => _ end);
    [reflexivity|].
  destruct (validate_variants s [] 0%nat (v :: vs)) as [r|].
  - destruct r; simpl; auto.
  - destruct (createProductTransaction _ _ _ _ _ _ _) as [[s' pid]|m];
      simpl; auto.
Qed.

(** A create answered [Created] went through the whole loop. *)
Lemma create_product_created (s s' : store) (now : Z) (b : create_body)
    (d : detail) :
  create_product s now b = (s', Created d) ->
  exists vs, b_variants b = Js.Arr vs
             /\ @validate_variants detail s [] 0%nat vs = None.
Proof.
  unfold create_product.
  destruct (negb (Js.truthy (b_name b)) || Js.blank_or_not_string (b_name b));
    [discriminate|].
  destruct (b_variants b) as [| | | | |vs|]; try discriminate.
  destruct vs as [|v vs]; [discriminate|].
  destruct (negb (Js.includes validStatuses _)); [discriminate|].
  destruct (match b_category_id b with Given _ => _ | _ => _ end);
    [discriminate|].
  destruct (validate_variants s [] 0%nat (v :: vs)) as [r|] eqn:Hrun.
  - intros H. injection H as _ Hr. subst r. exfalso.
    clear - Hrun. revert Hrun. generalize (@nil string), 0%nat, (v :: vs).
    intros seen i l. revert seen i.
    induction l as [|x l IH]; intros seen i Hrun; [discriminate|].
    cbn [validate_variants] in Hrun.
    repeat match type of Hrun with
           | (if ?c then _ else _) = Some _ =>
               destruct c; [discriminate Hrun|]
           end.
    eapply IH; eauto.
  - intros _. exists (v :: vs). auto.
Qed.

End CreateChecks.

Section CreateOutcomes.
Import Db Http Products Payload.

(** The loop on a request that opens with well-formed variants, their
    SKUs new and pairwise distinct, followed by a well-formed variant [v]:
    it is at [v] that a response can first be returned. *)
Lemma validate_at {A} (s : store) (pre : list Js.value) (v : Js.value)
    (post : list Js.value) :
  Forall (fun x => valid_variant x = true) pre ->
  valid_variant v = true ->
  NoDup (map sku_of pre) ->
  (forall k, In k (map sku_of pre) -> variant_by_sku s k = None) ->
  @validate_variants A s [] 0%nat (pre ++ v :: post)
  = if mem (sku_of v) (map sku_of pre)
    then Some (InvalidInput (duplicate_sku (sku_of v)))
    else if is_some (variant_by_sku s (sku_of v))
    then Some (Conflict (sku_exists (sku_of v)))
    else validate_variants s (sku_of v :: rev (map sku_of pre))
                           (S (List.length pre)) post.
Proof.
  intros Hpre Hv Hnd Hdb.
  rewrite (validate_prefix s pre [] 0%nat (v :: post) Hpre Hnd)
    by (auto; intros k _ []).
  rewrite (validate_valid s _ _ v post Hv), app_nil_r.
  assert (Hmem : mem (sku_of v) (rev (map sku_of pre))
                 = mem (sku_of v) (map sku_of pre)).
  { destruct (mem (sku_of v) (map sku_of pre)) eqn:E.
    - apply mem_In. apply mem_In in E. now apply in_rev in E.
    - apply mem_not_In. intros Hin. apply in_rev in Hin.
      apply mem_In in Hin. congruence. }
  rewrite Hmem. reflexivity.
Qed.

Lemma prefix_not_empty {A} (pre : list A) (v : A) (post : list A) :
  pre ++ v :: post <> [].
Proof. destruct pre; discriminate. Qed.

End CreateOutcomes.

(** C1, as the handler has it. A create that is not answered [Created]
    leaves the store as it was. A payload with a variant whose trimmed SKU
    is stored is never answered [Created], so no product row and no
    variant row is added and the product count is the one before the call.
    The answer is [Conflict] when the checks on the product fields pass and
    the first such variant is well-formed and comes after well-formed
    variants only, their SKUs distinct from one another and from its own;
    otherwise an earlier check answers. *)
Theorem create_with_stored_sku_changes_nothing :
  (forall s now b,
      match snd (Products.create_product s now b) with
      | Http.Created _ => True
      | _ => fst (Products.create_product s now b) = s
      end)
  /\
  (forall s now b vs v w,
      Products.b_variants b = Js.Arr vs -> In v vs ->
      Db.variant_by_sku s (Payload.sku_of v) = Some w ->
      fst (Products.create_product s now b) = s
      /\ Payload.product_count (fst (Products.create_product s now b))
         = Payload.product_count s
      /\ match snd (Products.create_product s now b) with
         | Http.Created _ => False
         | _ => True
         end)
  /\
  (forall s now b pre v post w,
      Payload.valid_header s b = true ->
      Products.b_variants b = Js.Arr (pre ++ v :: post) ->
      Forall (fun x => Payload.valid_variant x = true) pre ->
      Payload.valid_variant v = true ->
      NoDup (map Payload.sku_of (pre ++ [v])) ->
      (forall k, In k (map Payload.sku_of pre) -> Db.variant_by_sku s k = None) ->
      Db.variant_by_sku s (Payload.sku_of v) = Some w ->
      Products.create_product s now b
      = (s, Http.Conflict (Products.sku_exists (Payload.sku_of v)))).
Proof.
  split; [exact create_product_atomic|]. split.
  - intros s now b vs v w Hvs Hin Hstored.
    pose proof (create_product_atomic s now b) as Hatomic.
    destruct (Products.create_product s now b) as [s' r] eqn:Hrun.
    simpl in *.
    assert (Hfail : match r with Http.Created _ => False | _ => True end).
    { destruct r; try exact I.
      apply create_product_created in Hrun.
      destruct Hrun as [vs' [Hvs' Hnone]].
      rewrite Hvs in Hvs'. injection Hvs' as <-.
      rewrite (validate_none s vs [] 0%nat Hnone v Hin) in Hstored.
      discriminate. }
    destruct r; try contradiction; subst s'; auto.
  - intros s now b pre v post w Hhead Hvs Hpre Hv Hnd Hdb Hstored.
    rewrite map_app in Hnd. simpl in Hnd.
    rewrite (create_after_header s now b _ Hhead Hvs (prefix_not_empty _ _ _)).
    rewrite (validate_at s pre v post Hpre Hv);
      [|now apply NoDup_remove_1 in Hnd; rewrite app_nil_r in Hnd|exact Hdb].
    rewrite mem_not_In, Hstored; [reflexivity|].
    apply NoDup_remove_2 in Hnd. now rewrite app_nil_r in Hnd.
Qed.

Lemma create_with_stored_sku_changes_nothing_witness :
  Db.variant_by_sku Example.catalog "ABP-4OZ" = Some Example.pepper_only
  /\ Products.create_product Example.catalog 300
       (Example.lentils [Example.item "ATOM-OK" "Good";
                         Example.item " ABP-4OZ " "Conflict"])
     = (Example.catalog, Http.Conflict (Products.sku_exists "ABP-4OZ")).
Proof.
  split; [reflexivity|].
  apply (proj2 (proj2 create_with_stored_sku_changes_nothing)
           Example.catalog 300
           (Example.lentils [Example.item "ATOM-OK" "Good";
                             Example.item " ABP-4OZ " "Conflict"])
           [Example.item "ATOM-OK" "Good"]
           (Example.item " ABP-4OZ " "Conflict") []
           Example.pepper_only);
    try reflexivity.
  - repeat constructor.
  - repeat constructor; simpl; intuition discriminate.
  - intros k [<-|[]]. reflexivity.
Defined.

(** The payload below carries the stored SKU "ABP-4OZ" at index 2, and is
    answered [InvalidInput]: the repeat of "N-1" at index 1 is met first. *)
Lemma stored_sku_after_repeat_is_invalid_input :
  Db.variant_by_sku Example.catalog "ABP-4OZ" = Some Example.pepper_only
  /\ Products.create_product Example.catalog 300
       (Example.lentils [Example.item "N-1" "a"; Example.item "N-1" "b";
                         Example.item "ABP-4OZ" "c"])
     = (Example.catalog,
        Http.InvalidInput (Products.duplicate_sku "N-1")).
Proof. split; reflexivity. Qed.

(** C4, as the handler has it. The duplicate test and the store lookup
    are made variant by variant, in index order, in one loop. On a payload
    whose product fields pass, let [v] be a well-formed variant that comes
    after well-formed variants only, their SKUs pairwise distinct and none
    of them stored. If [v] repeats one of those SKUs the answer is the
    [InvalidInput] duplicate error, whatever SKUs the variants after [v]
    carry; if [v] carries a new SKU that is stored the answer is
    [Conflict], whatever repeats come after [v]. *)
Theorem first_offending_variant_decides :
  forall s now b pre v post,
    Payload.valid_header s b = true ->
    Products.b_variants b = Js.Arr (pre ++ v :: post) ->
    Forall (fun x => Payload.valid_variant x = true) pre ->
    Payload.valid_variant v = true ->
    NoDup (map Payload.sku_of pre) ->
    (forall k, In k (map Payload.sku_of pre) -> Db.variant_by_sku s k = None) ->
    (In (Payload.sku_of v) (map Payload.sku_of pre) ->
     Products.create_product s now b
     = (s, Http.InvalidInput (Products.duplicate_sku (Payload.sku_of v))))
    /\ (~ In (Payload.sku_of v) (map Payload.sku_of pre) ->
        Db.variant_by_sku s (Payload.sku_of v) <> None ->
        Products.create_product s now b
        = (s, Http.Conflict (Products.sku_exists (Payload.sku_of v)))).
Proof.
  intros s now b pre v post Hhead Hvs Hpre Hv Hnd Hdb.
  rewrite (create_after_header s now b _ Hhead Hvs (prefix_not_empty _ _ _)).
  rewrite (validate_at s pre v post Hpre Hv Hnd Hdb).
  split.
  - intros Hdup. apply mem_In in Hdup. now rewrite Hdup.
  - intros Hnew Hstored. rewrite (mem_not_In _ _ Hnew).
    destruct (Db.variant_by_sku s (Payload.sku_of v));
      [reflexivity|contradiction].
Qed.

Lemma first_offending_variant_decides_witness :
  Products.create_product Example.catalog 300
    (Example.lentils [Example.item "N-1" "a"; Example.item " N-1" "b";
                      Example.item "ABP-4OZ" "c"])
  = (Example.catalog,
     Http.InvalidInput (Products.duplicate_sku "N-1"))
  /\ Db.variant_by_sku Example.catalog "ABP-4OZ" = Some Example.pepper_only.
Proof.
  split; [|reflexivity].
  apply (first_offending_variant_decides Example.catalog 300
           (Example.lentils [Example.item "N-1" "a"; Example.item " N-1" "b";
                             Example.item "ABP-4OZ" "c"])
           [Example.item "N-1" "a"] (Example.item " N-1" "b")
           [Example.item "ABP-4OZ" "c"]);
    try reflexivity.
  - repeat constructor.
  - repeat constructor; simpl; intuition.
  - intros k [<-|[]]. reflexivity.
  - simpl. auto.
Defined.

(** The payload below repeats the SKU "N-1" at indices 1 and 2 and carries
    the stored SKU "ABP-4OZ" at index 0, and is answered [Conflict]: the
    lookup of variant 0 is made before variant 2 is looked at. *)
Lemma repeat_after_stored_sku_is_conflict :
  Payload.sku_of (Example.item "N-1" "a") = Payload.sku_of (Example.item "N-1" "b")
  /\ Db.variant_by_sku Example.catalog "ABP-4OZ" = Some Example.pepper_only
  /\ Products.create_product Example.catalog 300
       (Example.lentils [Example.item "ABP-4OZ" "c"; Example.item "N-1" "a";
                         Example.item "N-1" "b"])
     = (Example.catalog, Http.Conflict (Products.sku_exists "ABP-4OZ")).
Proof. repeat split; reflexivity. Qed.

(** ** Creating products: the transaction and the response *)

Section CreateWrites.
Import Db Http Products Payload.

Lemma find_app_none {A} (f : A -> bool) (l l' : list A) :
  find f l = None -> find f (l ++ l') = find f l'.
Proof.
  induction l as [|x l IH]; simpl; [reflexivity|].
  destruct (f x); [discriminate|exact IH].
Qed.

(** The variant inserts of a well-formed request whose SKUs are new and
    pairwise distinct all succeed, and append one row per request variant,
    in request order. *)
Lemma insert_variants_valid (now productId : Z) (vs : list Js.value) :
  forall s,
    Forall (fun v => valid_variant v = true) vs ->
    NoDup (map sku_of vs) ->
    (forall k, In k (map sku_of vs) -> variant_by_sku s k = None) ->
    exists rows,
      insert_variants s now productId vs
      = Done {| categories := categories s;
                products := products s;
                variants := variants s ++ rows |}
      /\ Forall2 (row_for now productId) vs rows.
Proof.
  induction vs as [|v vs IH]; intros s Hvalid Hnd Hdb.
  - exists []. simpl. rewrite app_nil_r. destruct s; auto.
  - inversion Hvalid as [|? ? Hv Hrest]; subst.
    inversion Hnd as [|? ? Hfresh Hnd']; subst.
    apply valid_variant_fields in Hv.
    destruct Hv as [Hsku [Hname [Hprice Hinv]]].
    cbn [insert_variants].
    rewrite (nonblank_trim_of _ Hsku), (nonblank_trim_of _ Hname).
    rewrite (amount_binds _ Hprice), (amount_binds _ Hinv).
    cbn [bind]. unfold insert_variant.
    fold (sku_of v) (name_of v) (price_of v) (inventory_of v).
    rewrite (Hdb (sku_of v)) by (simpl; auto). cbn [bind].
    match goal with
    | |- context [insert_variants ?s1 _ _ _] =>
        destruct (IH s1 Hrest Hnd') as [rows [Hrun Hrows]]
    end.
    + intros k Hk. unfold variant_by_sku. cbn [variants].
      rewrite find_app_none by (apply Hdb; simpl; auto).
      simpl. destruct (sku_of v =? k)%string eqn:E; [|reflexivity].
      apply String.eqb_eq in E. subst k. contradiction.
    + rewrite Hrun. cbn [categories products variants].
      eexists. split.
      * rewrite <- app_assoc. reflexivity.
      * constructor; [|exact Hrows]. repeat split.
Qed.

(** No stored variant belongs to the product id that the next insert will
    give out. *)
Lemma no_variant_of_next_product (s : store) :
  wf s ->
  filter (fun v => v_product_id v =? next_id (map p_id (products s)))
         (variants s) = [].
Proof.
  intros Hwf.
  assert (H : forall l, (forall v, In v l -> In v (variants s)) ->
              filter (fun v => v_product_id v =?
                                 next_id (map p_id (products s))) l = []).
  { induction l as [|x l IH]; intros Hsub; [reflexivity|]. simpl.
    pose proof (next_id_fresh _ _
                  (wf_owner s Hwf x (Hsub x (or_introl eq_refl)))) as Hlt.
    destruct (v_product_id x =? _) eqn:E; [apply Z.eqb_eq in E; lia|].
    apply IH. intros v Hv. apply Hsub. now right. }
  apply H. auto.
Qed.

Lemma no_product_with_next_id (s : store) :
  find (fun p => p_id p =? next_id (map p_id (products s))) (products s)
  = None.
Proof.
  destruct (find _ (products s)) as [p|] eqn:E; [|reflexivity].
  apply (find_has_key p_id) in E. destruct E as [Hin Hid].
  pose proof (next_id_fresh _ _ (in_map p_id _ _ Hin)). lia.
Qed.

Lemma rows_of_product (now productId : Z) (vs : list Js.value)
    (rows : list variant) :
  Forall2 (row_for now productId) vs rows ->
  filter (fun v => v_product_id v =? productId) rows = rows
  /\ forall a b, In a rows -> In b rows ->
                 (v_created_at a <? v_created_at b) = false.
Proof.
  intros H. assert (Hall : Forall (fun w => v_product_id w = productId
                                            /\ v_created_at w = now) rows).
  { induction H as [|v w vs rows Hrow _ IH]; constructor; [|exact IH].
    destruct Hrow as [Hp [_ [_ [_ [_ [Hc _]]]]]]. auto. }
  rewrite Forall_forall in Hall. split.
  - apply forallb_filter_id. apply forallb_forall. intros w Hw.
    apply Z.eqb_eq. now apply Hall.
  - intros a b Ha Hb. apply Hall in Ha, Hb.
    destruct Ha as [_ ->], Hb as [_ ->]. apply Z.ltb_irrefl.
Qed.

(** The loop runs to its end on a well-formed request whose SKUs are new
    and pairwise distinct. *)
Lemma validate_all {A} (s : store) (vs : list Js.value) :
  Forall (fun v => valid_variant v = true) vs ->
  NoDup (map sku_of vs) ->
  (forall k, In k (map sku_of vs) -> variant_by_sku s k = None) ->
  @validate_variants A s [] 0%nat vs = None.
Proof.
  intros Hvalid Hnd Hdb.
  pose proof (@validate_prefix A s vs [] 0%nat [] Hvalid Hnd) as H.
  rewrite app_nil_r in H. rewrite H; auto.
Qed.

End CreateWrites.

(** C7. In a store with unique keys, take a create payload whose product
    fields pass and whose variants are all well-formed, with trimmed SKUs
    pairwise distinct and none of them stored. The call is answered
    [Created]; the variant list of the response has one row per request
    variant, in request order, each with the trimmed [sku] and [name] of
    its request variant and with [price_cents] and [inventory_count] equal
    to the request's, or 0 where the request has none; these rows are the
    ones appended to the variants table. *)
Theorem create_returns_variants_in_request_order :
  forall s now b vs,
    Db.wf s ->
    Payload.valid_header s b = true ->
    Products.b_variants b = Js.Arr vs -> vs <> [] ->
    Forall (fun v => Payload.valid_variant v = true) vs ->
    NoDup (map Payload.sku_of vs) ->
    (forall k, In k (map Payload.sku_of vs) -> Db.variant_by_sku s k = None) ->
    exists s' j created,
      Products.create_product s now b
      = (s', Http.Created {| Products.d_product := Some j;
                             Products.d_variants := created |})
      /\ List.length created = List.length vs
      /\ Forall2 (Payload.row_for now (Db.p_id (Db.j_product j))) vs created
      /\ Db.variants s' = Db.variants s ++ created
      /\ Db.p_name (Db.j_product j) = Js.trimmed (Products.b_name b).
Proof.
  intros s now b vs Hwf Hhead Hvs Hne Hvalid Hnd Hdb.
  rewrite (create_after_header s now b vs Hhead Hvs Hne).
  rewrite (validate_all s vs Hvalid Hnd Hdb).
  unfold Products.createProductTransaction, Db.insert_product.
  set (productId := Db.next_id (map Db.p_id (Db.products s))).
  match goal with
  | |- context [Products.insert_variants ?s1 _ _ _] =>
      destruct (insert_variants_valid now productId vs s1 Hvalid Hnd)
        as [rows [Hrun Hrows]]; [exact Hdb|]
  end.
  rewrite Hrun. cbn [bind Db.categories Db.products Db.variants].
  destruct (rows_of_product now productId vs rows Hrows) as [Hmine Hties].
  unfold Db.product_joined, Db.product_by_id, Db.variants_of.
  cbn [Db.products Db.variants].
  rewrite find_app_none by apply no_product_with_next_id.
  cbn [find Db.p_id]. fold productId. rewrite Z.eqb_refl. cbn [option_map].
  pose proof (no_variant_of_next_product s Hwf) as Hold.
  fold productId in Hold. rewrite filter_app, Hold, Hmine.
  cbn [app]. rewrite (order_by_ties _ rows Hties).
  do 3 eexists. split; [reflexivity|].
  cbn [Db.j_product Db.p_id Db.p_name].
  split; [symmetry; eapply Forall2_length; exact Hrows|].
  split; [exact Hrows|]. split; reflexivity.
Qed.

Lemma create_returns_variants_in_request_order_witness :
  exists s' j first second,
    Products.create_product Example.catalog 300
      (Example.lentils [Example.item " L-1 " " Small "; 
                        Example.priced "L-2" "Large" 500 3])
    = (s', Http.Created {| Products.d_product := Some j;
                           Products.d_variants := [first; second] |})
    /\ Db.v_sku first = "L-1" /\ Db.v_name first = "Small"
    /\ Db.v_price_cents first = 0 /\ Db.v_inventory_count first = 0
    /\ Db.v_sku second = "L-2" /\ Db.v_price_cents second = 500.
Proof.
  destruct (create_returns_variants_in_request_order
              Example.catalog 300
              (Example.lentils [Example.item " L-1 " " Small ";
                                Example.priced "L-2" "Large" 500 3])
              [Example.item " L-1 " " Small ";
               Example.priced "L-2" "Large" 500 3]
              catalog_wf eq_refl eq_refl)
    as [s' [j [created [Hrun [Hlen [Hrows _]]]]]].
  - discriminate.
  - repeat constructor.
  - repeat constructor; simpl; intuition discriminate.
  - intros k [<-|[<-|[]]]; reflexivity.
  - inversion Hrows as [|v1 first l1 l2 Hfirst Hrest]; subst.
    inversion Hrest as [|v2 second l3 l4 Hsecond Hnil]; subst.
    inversion Hnil; subst.
    exists s', j, first, second. split; [exact Hrun|].
    destruct Hfirst as [_ [F1 [F2 [F3 [F4 _]]]]].
    destruct Hsecond as [_ [S1 [_ [S3 _]]]].
    repeat split; assumption.
Defined.

(* ================================================================== *)
(** * Further properties of the handlers *)
(* ================================================================== *)

(** ** Creating products: which payloads succeed *)

Section CreateInversion.
Import Db Http Products Payload.

Lemma passes_nonblank (x : Js.value) :
  negb (Js.truthy x) || Js.blank_or_not_string x = false ->
  nonblank x = true.
Proof.
  intros H. apply orb_false_iff in H. destruct H as [_ H].
  destruct x as [| | | |str| |]; try discriminate H. simpl in *.
  destruct (Js.trim str); [discriminate H|reflexivity].
Qed.

Lemma passes_amount (x : Js.value) :
  negb (Js.nullish x) && Js.negative_or_not_number x = false ->
  optional_amount x = true.
Proof.
  destruct x as [| | |n| | |]; simpl; intros H;
    try reflexivity; try discriminate H.
  apply Z.leb_le. now apply Z.ltb_ge.
Qed.

(** The loop runs to its end only on well-formed variants whose trimmed
    SKUs are pairwise distinct, not in the set it started with, and not
    stored. *)
Lemma validate_none_inv {A} (s : store) (vs : list Js.value) :
  forall (seen : list string) (i : nat),
    @validate_variants A s seen i vs = None ->
    Forall (fun v => valid_variant v = true) vs
    /\ NoDup (map sku_of vs)
    /\ (forall k, In k (map sku_of vs) -> ~ In k seen)
    /\ (forall k, In k (map sku_of vs) -> variant_by_sku s k = None).
Proof.
  induction vs as [|v vs IH]; intros seen i Hrun.
  - repeat split; try constructor; intros k [].
  - cbn [validate_variants] in Hrun.
    destruct (Js.nullish v); [discriminate Hrun|].
    destruct (negb (Js.truthy (Js.prop v "sku")) || _) eqn:Hsku;
      [discriminate Hrun|].
    destruct (negb (Js.truthy (Js.prop v "name")) || _) eqn:Hname;
      [discriminate Hrun|].
    destruct (negb (Js.nullish (Js.prop v "price_cents")) && _) eqn:Hprice;
      [discriminate Hrun|].
    destruct (negb (Js.nullish (Js.prop v "inventory_count")) && _) eqn:Hinv;
      [discriminate Hrun|].
    fold (sku_of v) in Hrun.
    destruct (mem (sku_of v) seen) eqn:Hmem; [discriminate Hrun|].
    destruct (variant_by_sku s (sku_of v)) eqn:Hdb; [discriminate Hrun|].
    cbn [is_some] in Hrun.
    destruct (IH _ _ Hrun) as [Hvalid [Hnd [Hseen Hstored]]].
    assert (Hv : valid_variant v = true).
    { unfold valid_variant.
      rewrite (passes_nonblank _ Hsku), (passes_nonblank _ Hname).
      rewrite (passes_amount _ Hprice), (passes_amount _ Hinv). reflexivity. }
    split; [now constructor|]. split; [|split].
    + simpl. constructor; [|exact Hnd].
      intros Hin. apply (Hseen _ Hin). now left.
    + intros k [<-|Hin] Hk.
      * apply mem_In in Hk. congruence.
      * apply (Hseen k Hin). now right.
    + intros k [<-|Hin]; [exact Hdb|now apply Hstored].
Qed.

(** The loop answers [Internal] only at a variant that is [null]. *)
Lemma validate_internal {A} (s : store) (vs : list Js.value) (m : string) :
  forall (seen : list string) (i : nat),
    @validate_variants A s seen i vs = Some (Internal m) ->
    m = "Cannot read properties of null (reading 'sku')"
    /\ exists v, In v vs /\ Js.nullish v = true.
Proof.
  induction vs as [|v vs IH]; intros seen i Hrun; [discriminate|].
  cbn [validate_variants] in Hrun.
  destruct (Js.nullish v) eqn:Hnull.
  - injection Hrun as <-. split; [reflexivity|]. exists v. simpl. auto.
  - repeat match type of Hrun with
           | (if ?c then _ else _) = Some _ =>
               destruct c; [discriminate Hrun|]
           end.
    destruct (IH _ _ Hrun) as [Hm [w [Hw Hn]]].
    split; [exact Hm|]. exists w. simpl. auto.
Qed.

(** A payload that fails a check made before the loop is answered
    [InvalidInput]. *)
Lemma create_header_inv (s s' : store) (now : Z) (b : create_body)
    (r : response detail) :
  create_product s now b = (s', r) ->
  match r with InvalidInput _ => False | _ => True end ->
  valid_header s b = true
  /\ exists vs, b_variants b = Js.Arr vs /\ vs <> [].
Proof.
  unfold create_product, valid_header.
  destruct (negb (Js.truthy (b_name b)) || Js.blank_or_not_string (b_name b))
    eqn:Hname; [intros H; injection H as _ <-; contradiction|].
  rewrite (passes_nonblank _ Hname).
  destruct (b_variants b) as [| | | | |vs|];
    try (intros H; injection H as _ <-; contradiction).
  destruct vs as [|v vs]; [intros H; injection H as _ <-; contradiction|].
  destruct (negb (Js.includes validStatuses _)) eqn:Hstatus;
    [intros H; injection H as _ <-; contradiction|].
  destruct (match b_category_id b with Given _ => _ | _ => _ end) eqn:Hcat;
    [intros H; injection H as _ <-; contradiction|].
  intros _ _. split.
  - apply andb_true_iff. split; [apply andb_true_iff; split; [reflexivity|]|].
    + apply negb_false_iff in Hstatus. unfold valid_status.
      destruct (b_status b); try reflexivity; try discriminate Hstatus.
      exact Hstatus.
    + unfold valid_category. destruct (b_category_id b); try reflexivity.
      now apply negb_false_iff in Hcat.
  - exists (v :: vs). split; [reflexivity|discriminate].
Qed.

(** Whatever the variants are, an insert loop that completes has added
    one row per variant, under the given product, after the rows that
    were there; it touches no other table. *)
Lemma insert_variants_appends (now productId : Z) (vs : list Js.value) :
  forall s s',
    insert_variants s now productId vs = Done s' ->
    categories s' = categories s
    /\ products s' = products s
    /\ exists rows,
        variants s' = variants s ++ rows
        /\ List.length rows = List.length vs
        /\ Forall (fun w => v_product_id w = productId
                            /\ v_created_at w = now) rows.
Proof.
  induction vs as [|v vs IH]; intros s s'; cbn [insert_variants].
  - intros H. injection H as <-. repeat split.
    exists []. rewrite app_nil_r. repeat split. constructor.
  - destruct (trim_of (Js.prop v "sku")) as [sku|]; [|discriminate].
    destruct (trim_of (Js.prop v "name")) as [name|]; [|discriminate].
    destruct (as_number _) as [price|]; [|discriminate].
    destruct (as_number _) as [inv|]; [|discriminate].
    cbn [bind]. unfold insert_variant.
    destruct (variant_by_sku s sku); [discriminate|]. cbn [bind].
    intros Hrun. apply IH in Hrun.
    destruct Hrun as [Hc [Hp [rows [Hv [Hlen Hall]]]]].
    cbn [categories products variants] in *.
    split; [exact Hc|]. split; [exact Hp|].
    eexists (_ :: rows). split; [rewrite Hv, <- app_assoc; reflexivity|].
    split; [simpl; now rewrite Hlen|].
    constructor; [split; reflexivity|exact Hall].
Qed.

End CreateInversion.

Section CreateResults.
Import Db Http Products Payload.

(** The transaction of a request that went through the loop completes:
    the engine has nothing left to refuse. *)
Lemma transaction_completes (s : store) (now : Z) (name : string)
    (description : option string) (category_id : option Z) (status : string)
    (vs : list Js.value) :
  @validate_variants detail s [] 0%nat vs = None ->
  exists s' rows,
    createProductTransaction s now name description category_id status vs
    = Done (s', next_id (map p_id (products s)))
    /\ variants s' = variants s ++ rows
    /\ products s'
       = products s
         ++ [{| p_id := next_id (map p_id (products s));
                p_name := name; p_description := description;
                p_category_id := category_id; p_status := status;
                p_deleted_at := None;
                p_created_at := now; p_updated_at := now |}]
    /\ categories s' = categories s
    /\ Forall2 (row_for now (next_id (map p_id (products s)))) vs rows.
Proof.
  intros Hrun. apply validate_none_inv in Hrun.
  destruct Hrun as [Hvalid [Hnd [_ Hdb]]].
  unfold createProductTransaction, insert_product.
  match goal with
  | |- context [insert_variants ?s1 _ ?pid _] =>
      destruct (insert_variants_valid now pid vs s1 Hvalid Hnd)
        as [rows [Hins Hrows]]; [exact Hdb|]
  end.
  rewrite Hins. cbn [bind categories products variants].
  do 2 eexists. split; [reflexivity|].
  cbn [categories products variants]. auto.
Qed.

(** The product row that the select after the transaction finds. *)
Lemma created_product_found (s s' : store) (row : product) :
  products s' = products s ++ [row] ->
  p_id row = next_id (map p_id (products s)) ->
  product_by_id s' (p_id row) = Some row.
Proof.
  intros Hp Hid. unfold product_by_id. rewrite Hp, Hid.
  rewrite find_app_none by apply no_product_with_next_id.
  simpl. rewrite Hid, Z.eqb_refl. reflexivity.
Qed.

End CreateResults.

(** X1. For a decoded body whose [description] is absent, null or a
    string and whose [category_id] is absent, null or an integer,
    create-product is answered [Created] exactly when the body meets the
    validator's contract and carries trimmed SKUs that are pairwise
    distinct and not stored. *)
Theorem create_succeeds_iff_valid :
  forall s now body b,
    Wire.create_request body = Some b ->
    (exists s' d, Products.create_product s now b = (s', Http.Created d))
    <->
    (Payload.valid_header s b = true
     /\ exists vs,
         Products.b_variants b = Js.Arr vs /\ vs <> []
         /\ Forall (fun v => Payload.valid_variant v = true) vs
         /\ NoDup (map Payload.sku_of vs)
         /\ (forall k, In k (map Payload.sku_of vs) ->
                       Db.variant_by_sku s k = None)).
Proof.
  intros s now body b _. split.
  - intros [s' [d Hrun]].
    destruct (create_header_inv s s' now b _ Hrun I) as [Hhead [vs [Hvs Hne]]].
    split; [exact Hhead|]. exists vs. split; [exact Hvs|]. split; [exact Hne|].
    apply create_product_created in Hrun.
    destruct Hrun as [vs' [Hvs' Hnone]].
    rewrite Hvs in Hvs'. injection Hvs' as <-.
    apply validate_none_inv in Hnone.
    destruct Hnone as [Hvalid [Hnd [_ Hdb]]]. auto.
  - intros [Hhead [vs [Hvs [Hne [Hvalid [Hnd Hdb]]]]]].
    rewrite (create_after_header s now b vs Hhead Hvs Hne).
    pose proof (@validate_all Products.detail s vs Hvalid Hnd Hdb) as Hnone.
    rewrite Hnone.
    destruct (transaction_completes s now
                (Js.trimmed (Products.b_name b))
                (orNull (Products.b_description b))
                (orNull (Products.b_category_id b))
                (Js.string_of (Js.coalesce (Products.b_status b)
                                           (Js.Str "active")))
                vs Hnone) as [s' [rows [-> _]]].
    do 2 eexists. reflexivity.
Qed.

Lemma create_succeeds_iff_valid_witness :
  Wire.create_request
    (Js.Obj [("name", Js.Str "Lentils"); ("category_id", Js.Num 1);
             ("variants", Js.Arr [Example.item "L-1" "Small"])])
  = Some (Example.lentils [Example.item "L-1" "Small"])
  /\ Payload.valid_header Example.catalog
       (Example.lentils [Example.item "L-1" "Small"]) = true
  /\ exists vs,
      Products.b_variants (Example.lentils [Example.item "L-1" "Small"])
      = Js.Arr vs
      /\ NoDup (map Payload.sku_of vs).
Proof.
  split; [reflexivity|].
  destruct (proj1 (create_succeeds_iff_valid Example.catalog 300
                     (Js.Obj [("name", Js.Str "Lentils");
                              ("category_id", Js.Num 1);
                              ("variants",
                               Js.Arr [Example.item "L-1" "Small"])])
                     (Example.lentils [Example.item "L-1" "Small"])
                     eq_refl)
              (ex_intro _ _ (ex_intro _ _ eq_refl)))
    as [Hhead [vs [Hvs [_ [_ [Hnd _]]]]]].
  split; [exact Hhead|]. exists vs. split; [exact Hvs|exact Hnd].
Defined.

(** X2. For a decoded body whose [description] is absent, null or a
    string and whose [category_id] is absent, null or an integer, the only
    [Internal] answer of create-product is the one for a variant that is
    [null]; the store is then unchanged. For such a body, once the checks
    have passed, the insert of the product and of its variants is never
    refused by the engine. *)
Theorem create_internal_only_on_null :
  forall s now body b s' m,
    Wire.create_request body = Some b ->
    Products.create_product s now b = (s', Http.Internal m) ->
    s' = s
    /\ m = "Cannot read properties of null (reading 'sku')"
    /\ exists vs v,
        Products.b_variants b = Js.Arr vs /\ In v vs /\ Js.nullish v = true.
Proof.
  intros s now body b s' m _ Hrun.
  destruct (create_header_inv s s' now b _ Hrun I) as [Hhead [vs [Hvs Hne]]].
  rewrite (create_after_header s now b vs Hhead Hvs Hne) in Hrun.
  destruct (Products.validate_variants s [] 0%nat vs) as [r|] eqn:Hloop.
  - injection Hrun as <- ->.
    destruct (validate_internal s vs m _ _ Hloop) as [Hm [v [Hv Hnull]]].
    split; [reflexivity|]. split; [exact Hm|]. now exists vs, v.
  - destruct (transaction_completes s now
                (Js.trimmed (Products.b_name b))
                (orNull (Products.b_description b))
                (orNull (Products.b_category_id b))
                (Js.string_of (Js.coalesce (Products.b_status b)
                                           (Js.Str "active")))
                vs Hloop) as [s2 [rows [Hdone _]]].
    rewrite Hdone in Hrun. discriminate.
Qed.

Lemma create_internal_only_on_null_witness :
  Wire.create_request
    (Js.Obj [("name", Js.Str "Lentils"); ("category_id", Js.Num 1);
             ("variants", Js.Arr [Example.item "L-1" "Small"; Js.Null])])
  = Some (Example.lentils [Example.item "L-1" "Small"; Js.Null])
  /\ Products.create_product Example.catalog 300
       (Example.lentils [Example.item "L-1" "Small"; Js.Null])
     = (Example.catalog,
        Http.Internal "Cannot read properties of null (reading 'sku')")
  /\ exists vs v,
      Products.b_variants
        (Example.lentils [Example.item "L-1" "Small"; Js.Null]) = Js.Arr vs
      /\ In v vs /\ Js.nullish v = true.
Proof.
  split; [reflexivity|]. split; [reflexivity|].
  apply (create_internal_only_on_null Example.catalog 300
           (Js.Obj [("name", Js.Str "Lentils"); ("category_id", Js.Num 1);
                    ("variants",
                     Js.Arr [Example.item "L-1" "Small"; Js.Null])])
           (Example.lentils [Example.item "L-1" "Small"; Js.Null])
           Example.catalog
           "Cannot read properties of null (reading 'sku')" eq_refl eq_refl).
Defined.

(** X3. The response of a successful create-product is what get-product
    answers for the new id on the store the create leaves: the product row
    with its category name and the same variant list. *)
Theorem create_then_get :
  forall s now b s' d,
    Products.create_product s now b = (s', Http.Created d) ->
    exists j,
      Products.d_product d = Some j
      /\ Db.product_by_id s (Db.p_id (Db.j_product j)) = None
      /\ Products.get_product s' (Db.p_id (Db.j_product j)) = Http.Ok d.
Proof.
  intros s now b s' d Hrun.
  destruct (create_header_inv s s' now b _ Hrun I) as [Hhead [vs [Hvs Hne]]].
  pose proof Hrun as Hloop. apply create_product_created in Hloop.
  destruct Hloop as [vs' [Hvs' Hnone]].
  rewrite Hvs in Hvs'. injection Hvs' as <-.
  rewrite (create_after_header s now b vs Hhead Hvs Hne), Hnone in Hrun.
  destruct (transaction_completes s now
              (Js.trimmed (Products.b_name b))
              (orNull (Products.b_description b))
              (orNull (Products.b_category_id b))
              (Js.string_of (Js.coalesce (Products.b_status b)
                                         (Js.Str "active")))
              vs Hnone) as [s2 [rows [Hdone [_ [Hp _]]]]].
  rewrite Hdone in Hrun. injection Hrun as <- <-.
  pose proof (created_product_found s s2 _ Hp eq_refl) as Hfound.
  cbn [Db.p_id] in Hfound.
  unfold Db.product_joined. rewrite Hfound. cbn [option_map].
  eexists. split; [reflexivity|]. cbn [Db.j_product Db.p_id].
  split; [apply no_product_with_next_id|].
  unfold Products.get_product, Db.product_joined. rewrite Hfound.
  reflexivity.
Qed.

Lemma create_then_get_witness :
  exists s' d j,
    Products.create_product Example.catalog 300
      (Example.lentils [Example.item "L-1" "Small"]) = (s', Http.Created d)
    /\ Products.d_product d = Some j
    /\ Products.get_product s' (Db.p_id (Db.j_product j)) = Http.Ok d.
Proof.
  destruct (create_then_get Example.catalog 300
              (Example.lentils [Example.item "L-1" "Small"]) _ _ eq_refl)
    as [j [Hj [_ Hget]]].
  do 3 eexists. split; [reflexivity|]. split; [exact Hj|exact Hget].
Defined.

(** ** [ORDER BY]: the order it produces *)

Section OrderLaws.

Context {A : Type}.
Variable before : A -> A -> bool.
Hypothesis asymmetric : forall a b, before a b = true -> before b a = false.
Hypothesis ties_chain :
  forall a b c, before a b = false -> before b c = false -> before a c = false.

Lemma place_in_order (x : A) (l : list A) :
  in_order before l -> in_order before (Db.place before x l).
Proof.
  unfold in_order. induction l as [|y l IH]; simpl; intros Hl.
  - repeat constructor.
  - apply StronglySorted_inv in Hl. destruct Hl as [Hl Hy].
    destruct (before y x) eqn:E.
    + constructor; [now apply IH|].
      apply Forall_forall. intros z Hz. apply In_place in Hz.
      destruct Hz as [->|Hz]; [now apply asymmetric|].
      rewrite Forall_forall in Hy. now apply Hy.
    + constructor; [now constructor|].
      constructor; [exact E|].
      apply Forall_forall. intros z Hz. rewrite Forall_forall in Hy.
      apply (ties_chain z y x); [now apply Hy|exact E].
Qed.

Lemma order_by_in_order (l : list A) : in_order before (Db.order_by before l).
Proof.
  induction l as [|x l IH]; simpl; [constructor|now apply place_in_order].
Qed.

Lemma place_perm (x : A) (l : list A) :
  Permutation (Db.place before x l) (x :: l).
Proof.
  induction l as [|y l IH]; simpl; [reflexivity|].
  destruct (before y x); [|reflexivity].
  rewrite IH. apply perm_swap.
Qed.

Lemma order_by_perm (l : list A) : Permutation (Db.order_by before l) l.
Proof.
  induction l as [|x l IH]; simpl; [reflexivity|].
  rewrite place_perm. now constructor.
Qed.

Lemma place_front (x : A) (l : list A) :
  (forall z, In z l -> before z x = false) -> Db.place before x l = x :: l.
Proof.
  destruct l as [|y l]; simpl; intros H; [reflexivity|].
  rewrite (H y) by auto. reflexivity.
Qed.

(** Sorting and filtering commute: a [WHERE] that drops rows leaves the
    others in the order they had. *)
Lemma filter_place (keep : A -> bool) (x : A) (l : list A) :
  in_order before l ->
  filter keep (Db.place before x l)
  = if keep x then Db.place before x (filter keep l) else filter keep l.
Proof.
  unfold in_order. induction l as [|y l IH]; intros Hl.
  - simpl. destruct (keep x); reflexivity.
  - apply StronglySorted_inv in Hl. destruct Hl as [Hl Hy].
    simpl. destruct (before y x) eqn:E.
    + simpl. rewrite (IH Hl).
      destruct (keep y), (keep x); simpl; rewrite ?E; reflexivity.
    + assert (Hall : forall z, In z (y :: l) -> before z x = false).
      { intros z [<-|Hz]; [exact E|]. rewrite Forall_forall in Hy.
        apply (ties_chain z y x); [now apply Hy|exact E]. }
      cbn [filter]. destruct (keep x) eqn:Kx; [|reflexivity].
      symmetry. apply place_front.
      intros z Hz. apply Hall.
      change (In z (filter keep (y :: l))) in Hz.
      apply filter_In in Hz. apply Hz.
Qed.

Lemma filter_order_by (keep : A -> bool) (l : list A) :
  filter keep (Db.order_by before l) = Db.order_by before (filter keep l).
Proof.
  induction l as [|x l IH]; simpl; [reflexivity|].
  rewrite filter_place by apply order_by_in_order.
  rewrite IH. destruct (keep x); reflexivity.
Qed.

End OrderLaws.

Section OrderMaps.

Context {A : Type}.

(** Sorting commutes with a rewrite of the rows that keeps their order
    relation. *)
Lemma order_by_map (before : A -> A -> bool) (g : A -> A) (l : list A) :
  (forall a b, before (g a) (g b) = before a b) ->
  Db.order_by before (map g l) = map g (Db.order_by before l).
Proof.
  intros Hg.
  assert (Hplace : forall x l', Db.place before (g x) (map g l')
                                = map g (Db.place before x l')).
  { intros x l'. induction l' as [|y l' IH]; simpl; [reflexivity|].
    rewrite Hg. destruct (before y x); simpl; [now rewrite IH|reflexivity]. }
  induction l as [|x l IH]; simpl; [reflexivity|].
  now rewrite IH, Hplace.
Qed.

End OrderMaps.

(** The two orders of the handlers. *)
Lemma newest_first_asymmetric (a b : Db.product) :
  (Db.p_created_at b <? Db.p_created_at a) = true ->
  (Db.p_created_at a <? Db.p_created_at b) = false.
Proof. intros H. apply Z.ltb_lt in H. apply Z.ltb_ge. lia. Qed.

Lemma newest_first_chain (a b c : Db.product) :
  (Db.p_created_at b <? Db.p_created_at a) = false ->
  (Db.p_created_at c <? Db.p_created_at b) = false ->
  (Db.p_created_at c <? Db.p_created_at a) = false.
Proof. rewrite !Z.ltb_ge. lia. Qed.

Lemma oldest_first_asymmetric (a b : Db.variant) :
  (Db.v_created_at a <? Db.v_created_at b) = true ->
  (Db.v_created_at b <? Db.v_created_at a) = false.
Proof. intros H. apply Z.ltb_lt in H. apply Z.ltb_ge. lia. Qed.

Lemma oldest_first_chain (a b c : Db.variant) :
  (Db.v_created_at a <? Db.v_created_at b) = false ->
  (Db.v_created_at b <? Db.v_created_at c) = false ->
  (Db.v_created_at a <? Db.v_created_at c) = false.
Proof. rewrite !Z.ltb_ge. lia. Qed.

(** ** The listing *)

Section ListingRows.
Import Db Http Products Search.

Lemma where_is_filter (q : query) (rows : list product) :
  where_ (conditions q) rows = filter (matching q) rows.
Proof.
  destruct (conditions_seed q) as [pushed E]. unfold where_, matching.
  rewrite E. reflexivity.
Qed.

Lemma rows_of_listing (s : store) (q : query) :
  rows_of (list_products s q)
  = map (summarize s)
        (order_by (fun a b => p_created_at b <? p_created_at a)
                  (filter (matching q) (products s))).
Proof. unfold list_products. simpl. now rewrite where_is_filter. Qed.

Lemma listed_iff (s : store) (q : query) (r : summary) :
  In r (rows_of (list_products s q))
  <-> exists p, r = summarize s p /\ In p (products s)
                /\ matching q p = true.
Proof.
  rewrite rows_of_listing, in_map_iff. split.
  - intros [p [<- Hp]]. apply In_order_by in Hp. apply filter_In in Hp.
    exists p. tauto.
  - intros [p [-> [Hin Hm]]]. exists p. split; [reflexivity|].
    apply In_order_by. apply filter_In. tauto.
Qed.

Lemma matching_everything (p : product) :
  matching everything p = deleted_at_is_null p.
Proof. unfold matching. simpl. apply andb_true_r. Qed.

Lemma matching_live (q : query) (p : product) :
  matching q p = true -> deleted_at_is_null p = true.
Proof.
  unfold matching. destruct (conditions_seed q) as [pushed ->]. simpl.
  intros H. apply andb_true_iff in H. apply H.
Qed.

Lemma StronglySorted_map {A B} (R : A -> A -> Prop) (R' : B -> B -> Prop)
    (f : A -> B) (l : list A) :
  (forall a b, R a b -> R' (f a) (f b)) ->
  StronglySorted R l -> StronglySorted R' (map f l).
Proof.
  intros HR. induction 1 as [|a l Hl IH Ha]; simpl; constructor; auto.
  apply Forall_forall. intros y Hy. apply in_map_iff in Hy.
  destruct Hy as [x [<- Hx]]. apply HR.
  rewrite Forall_forall in Ha. now apply Ha.
Qed.

Lemma filter_filter {A} (f g : A -> bool) (l : list A) :
  filter g (filter f l) = filter (fun x => f x && g x) l.
Proof.
  induction l as [|x l IH]; simpl; [reflexivity|].
  destruct (f x); simpl; [destruct (g x)|]; now rewrite IH.
Qed.

Lemma filter_map_comm {A B} (f : A -> B) (g : B -> bool) (l : list A) :
  filter g (map f l) = map f (filter (fun x => g (f x)) l).
Proof.
  induction l as [|x l IH]; simpl; [reflexivity|].
  destruct (g (f x)); simpl; now rewrite IH.
Qed.

End ListingRows.

(** X4. The bare listing holds the product rows that are not soft-deleted,
    each once, and every listing, filtered or not, is in order of
    creation, newest first, and holds only rows of the bare listing. *)
Theorem listing_is_live_rows_newest_first :
  forall s,
    Permutation
      (map Products.s_product
           (Search.rows_of (Products.list_products s Search.everything)))
      (filter Products.deleted_at_is_null (Db.products s))
    /\ forall q,
        StronglySorted
          (fun a b => Db.p_created_at (Products.s_product b)
                      <= Db.p_created_at (Products.s_product a))
          (Search.rows_of (Products.list_products s q))
        /\ forall r,
            In r (Search.rows_of (Products.list_products s q)) ->
            In r (Search.rows_of (Products.list_products s Search.everything)).
Proof.
  intros s. split.
  - rewrite rows_of_listing, map_map. cbn [Products.s_product Products.summarize].
    rewrite map_id, order_by_perm.
    rewrite (filter_ext _ _ matching_everything). reflexivity.
  - intros q. split.
    + rewrite rows_of_listing.
      apply (StronglySorted_map
               (fun a b => (Db.p_created_at a <? Db.p_created_at b) = false)).
      * intros a b H. simpl. now apply Z.ltb_ge.
      * apply (order_by_in_order
                 (fun a b => Db.p_created_at b <? Db.p_created_at a)).
        -- intros a b. apply newest_first_asymmetric.
        -- intros a b c. apply newest_first_chain.
    + intros r Hr. apply listed_iff in Hr. destruct Hr as [p [-> [Hin Hm]]].
      apply listed_iff. exists p. split; [reflexivity|]. split; [exact Hin|].
      rewrite matching_everything. now apply matching_live in Hm.
Qed.

(** X5. When the non-empty parameter [?category_id=c] reads as the
    integer [n] (a decimal, hexadecimal, octal or binary literal between
    white space, or white space alone for 0) and [n] is within the range
    in which a double holds every integer, [-2^53 .. 2^53], the listing is
    the bare listing restricted to the rows whose category is [n], in the
    same order. *)
Theorem category_filter_restricts_listing :
  forall s c n,
    c <> EmptyString ->
    Js.Number c = Some n ->
    Z.abs n <= 9007199254740992 ->
    Search.rows_of (Products.list_products s (Search.by_category c))
    = filter (fun r => match Db.p_category_id (Products.s_product r) with
                       | Some cid => cid =? n
                       | None => false
                       end)
             (Search.rows_of (Products.list_products s Search.everything)).
Proof.
  intros s c n Hc Hn _.
  assert (Hpresent : Products.present (Some c) = true).
  { simpl. destruct c; [contradiction|reflexivity]. }
  assert (Hm : forall p,
             Search.matching (Search.by_category c) p
             = Products.deleted_at_is_null p
               && Products.category_is (Some n) p).
  { intros p. unfold Search.matching, Products.conditions.
    cbn [Search.by_category Products.q_search Products.q_category_id].
    rewrite Hpresent, Hn. cbn [Products.present app forallb].
    now rewrite andb_true_r. }
  rewrite rows_of_listing, (filter_ext _ _ Hm).
  rewrite rows_of_listing, filter_map_comm.
  rewrite (filter_order_by
             (fun a b => Db.p_created_at b <? Db.p_created_at a)).
  - rewrite filter_filter. f_equal. f_equal. apply filter_ext.
    intros p. rewrite matching_everything. reflexivity.
  - intros a b. apply newest_first_asymmetric.
  - intros a b d. apply newest_first_chain.
Qed.

Lemma category_filter_restricts_listing_witness :
  map (fun r => Db.p_id (Products.s_product r))
      (Search.rows_of
         (Products.list_products Example.catalog (Search.by_category " 1 ")))
  = [1]
  /\ map (fun r => Db.p_id (Products.s_product r))
         (Search.rows_of
            (Products.list_products Example.catalog (Search.by_category "1e0")))
     = [1].
Proof.
  split.
  - rewrite (category_filter_restricts_listing Example.catalog " 1 " 1);
      [reflexivity|discriminate|reflexivity|vm_compute; discriminate].
  - rewrite (category_filter_restricts_listing Example.catalog "1e0" 1);
      [reflexivity|discriminate|reflexivity|vm_compute; discriminate].
Defined.

(** ** [LIKE] with the pattern [%term%] *)

Section LikePattern.
Import Products Search.

Lemma like_percent (rest s : string) :
  like (String "%" rest) s
  = like rest s
    || match s with
       | EmptyString => false
       | String _ s' => like (String "%" rest) s'
       end.
Proof. destruct s; reflexivity. Qed.

Lemma like_underscore (rest s : string) :
  like (String "_" rest) s
  = match s with
    | EmptyString => false
    | String _ s' => like rest s'
    end.
Proof. reflexivity. Qed.

Lemma like_char (c : ascii) (rest s : string) :
  Ascii.eqb c "%" = false -> Ascii.eqb c "_" = false ->
  like (String c rest) s
  = match s with
    | EmptyString => false
    | String d s' => Ascii.eqb (lower c) (lower d) && like rest s'
    end.
Proof.
  destruct c as [[] [] [] [] [] [] [] []]; intros H1 H2;
    try discriminate H1; try discriminate H2; reflexivity.
Qed.

(** [%] followed by [rest] matches [x] when [rest] matches a tail of it. *)
Lemma like_percent_iff (rest x : string) :
  like (String "%" rest) x = true
  <-> exists a x', x = String.append a x' /\ like rest x' = true.
Proof.
  induction x as [|d x IH]; rewrite like_percent.
  - rewrite orb_false_r. split.
    + intros H. now exists EmptyString, EmptyString.
    + intros [a [x' [E H]]]. destruct a; simpl in E; [now subst|discriminate].
  - rewrite orb_true_iff, IH. split.
    + intros [H|[a [x' [-> H]]]].
      * now exists EmptyString, (String d x).
      * now exists (String d a), x'.
    + intros [a [x' [E H]]]. destruct a as [|e a]; simpl in E.
      * left. now subst.
      * right. injection E as _ ->. now exists a, x'.
Qed.

Lemma like_anything (x : string) : like "%" x = true.
Proof.
  apply like_percent_iff. exists x, EmptyString. split; [|reflexivity].
  induction x as [|d x IH]; simpl; [reflexivity|now rewrite <- IH].
Qed.

(** A pattern matches the strings that spell it, letter case apart,
    whatever follows them when it ends in [%]; its own wildcards only
    make it match more. *)
Lemma like_same_letters (term : string) :
  forall found after,
    same_letters term found = true ->
    like (String.append term "%") (String.append found after) = true.
Proof.
  induction term as [|c term IH]; intros found after H.
  - destruct found; [|discriminate]. apply like_anything.
  - destruct found as [|d found]; [discriminate|].
    cbn [same_letters] in H. apply andb_true_iff in H. destruct H as [Hc H].
    cbn [String.append].
    destruct (Ascii.eqb c "%") eqn:E1.
    + apply Ascii.eqb_eq in E1. subst c. apply like_percent_iff.
      exists (String d EmptyString), (String.append found after).
      split; [reflexivity|now apply IH].
    + destruct (Ascii.eqb c "_") eqn:E2.
      * apply Ascii.eqb_eq in E2. subst c. rewrite like_underscore.
        now apply IH.
      * rewrite (like_char c _ _ E1 E2), Hc. now apply IH.
Qed.

Lemma like_contains (term x : string) :
  contains term x ->
  like (String.append "%" (String.append term "%")) x = true.
Proof.
  intros [a [found [after [-> H]]]]. cbn [String.append].
  apply like_percent_iff. exists a, (String.append found after).
  split; [reflexivity|now apply like_same_letters].
Qed.

(** For a term without wildcards the pattern matches nothing else. *)
Lemma like_plain_prefix (term : string) :
  forall x,
    plain term = true ->
    like (String.append term "%") x = true ->
    exists found after,
      x = String.append found after /\ same_letters term found = true.
Proof.
  induction term as [|c term IH]; intros x Hplain H.
  - now exists EmptyString, x.
  - cbn [plain] in Hplain. apply andb_true_iff in Hplain.
    destruct Hplain as [Hc Hplain]. apply andb_true_iff in Hc.
    destruct Hc as [E1 E2]. apply negb_true_iff in E1, E2.
    cbn [String.append] in H. rewrite (like_char c _ _ E1 E2) in H.
    destruct x as [|d x]; [discriminate|].
    apply andb_true_iff in H. destruct H as [Hcd H].
    destruct (IH x Hplain H) as [found [after [-> Hsame]]].
    exists (String d found), after. split; [reflexivity|].
    cbn [same_letters]. now rewrite Hcd.
Qed.

Lemma like_plain_contains (term x : string) :
  plain term = true ->
  like (String.append "%" (String.append term "%")) x = true ->
  contains term x.
Proof.
  intros Hplain H. cbn [String.append] in H.
  apply like_percent_iff in H. destruct H as [a [x' [-> H]]].
  destruct (like_plain_prefix term x' Hplain H) as [found [after [-> Hs]]].
  now exists a, found, after.
Qed.

End LikePattern.

(** X6. The listing for [?search=term] with a non-empty term holds every
    row of the bare listing whose name or description contains the term,
    letter case apart. For a term without [%] and [_] it holds no other
    row. *)
Theorem search_is_containment :
  forall s term,
    term <> EmptyString ->
    let hit (r : Products.summary) :=
      Search.contains term (Db.p_name (Products.s_product r))
      \/ exists d, Db.p_description (Products.s_product r) = Some d
                   /\ Search.contains term d in
    (forall r,
        In r (Search.rows_of (Products.list_products s Search.everything)) ->
        hit r ->
        In r (Search.rows_of (Products.list_products s (Search.by_search term))))
    /\ (Search.plain term = true ->
        forall r,
          In r (Search.rows_of
                  (Products.list_products s (Search.by_search term))) ->
          hit r).
Proof.
  intros s term Hterm hit.
  assert (Hm : forall p,
             Search.matching (Search.by_search term) p
             = Products.deleted_at_is_null p
               && (Products.like
                     (String.append "%" (String.append term "%"))
                     (Db.p_name p)
                   || Products.like_null
                        (String.append "%" (String.append term "%"))
                        (Db.p_description p))).
  { intros p. unfold Search.matching, Products.conditions.
    cbn [Search.by_search Products.q_search Products.q_category_id].
    assert (Hpresent : Products.present (Some term) = true)
      by (simpl; destruct term; [contradiction|reflexivity]).
    rewrite Hpresent. cbn [Products.present app forallb].
    now rewrite andb_true_r. }
  split.
  - intros r Hr Hhit. apply listed_iff in Hr.
    destruct Hr as [p [-> [Hin Hlive]]]. rewrite matching_everything in Hlive.
    apply listed_iff. exists p. split; [reflexivity|]. split; [exact Hin|].
    rewrite Hm, Hlive. cbn [andb]. apply orb_true_iff.
    destruct Hhit as [Hname|[d [Hd Hdesc]]]; simpl in *.
    + left. now apply like_contains.
    + right. rewrite Hd. simpl. now apply like_contains.
  - intros Hplain r Hr. apply listed_iff in Hr.
    destruct Hr as [p [-> [_ Hmatch]]]. rewrite Hm in Hmatch.
    apply andb_true_iff in Hmatch. destruct Hmatch as [_ Hlike].
    apply orb_true_iff in Hlike. unfold hit. simpl.
    destruct Hlike as [Hname|Hdesc].
    + left. now apply like_plain_contains.
    + right. destruct (Db.p_description p) as [d|]; [|discriminate].
      exists d. split; [reflexivity|]. now apply like_plain_contains.
Qed.

Lemma search_is_containment_witness :
  exists r,
    In r (Search.rows_of
            (Products.list_products Example.catalog (Search.by_search "BEAN")))
    /\ Db.p_name (Products.s_product r) = "Black Beans".
Proof.
  exists (Products.summarize Example.catalog Example.beans). split.
  - apply (proj1 (search_is_containment Example.catalog "BEAN"
                    ltac:(discriminate))).
    + simpl. auto.
    + left. exists "Black ", "Bean", "s". split; reflexivity.
  - reflexivity.
Defined.

(** ** The aggregates of a listed row *)

Section Aggregates.
Import Db Http Products Search.

Lemma fold_min_least (rest : list Z) :
  forall x,
    fold_left Z.min rest x <= x
    /\ (forall y, In y rest -> fold_left Z.min rest x <= y)
    /\ In (fold_left Z.min rest x) (x :: rest).
Proof.
  induction rest as [|z rest IH]; intros x; simpl.
  - split; [lia|]. split; [intros y []|auto].
  - destruct (IH (Z.min x z)) as [H1 [H2 H3]].
    split; [lia|]. split.
    + intros y [<-|Hy]; [lia|now apply H2].
    + destruct H3 as [H3|H3]; [|auto].
      rewrite <- H3. destruct (Z.min_spec x z) as [[_ ->]|[_ ->]]; auto.
Qed.

Lemma fold_max_greatest (rest : list Z) :
  forall x,
    x <= fold_left Z.max rest x
    /\ (forall y, In y rest -> y <= fold_left Z.max rest x)
    /\ In (fold_left Z.max rest x) (x :: rest).
Proof.
  induction rest as [|z rest IH]; intros x; simpl.
  - split; [lia|]. split; [intros y []|auto].
  - destruct (IH (Z.max x z)) as [H1 [H2 H3]].
    split; [lia|]. split.
    + intros y [<-|Hy]; [lia|now apply H2].
    + destruct H3 as [H3|H3]; [|auto].
      rewrite <- H3. destruct (Z.max_spec x z) as [[_ ->]|[_ ->]]; auto.
Qed.

Lemma fold_add_sum (l : list Z) :
  forall a, fold_left Z.add l a = a + fold_right Z.add 0 l.
Proof.
  induction l as [|x l IH]; intros a; simpl; [lia|]. rewrite IH. lia.
Qed.

End Aggregates.

(** X7. Each listed row carries the aggregates of the variant rows of its
    product: their number; the least and the greatest of their prices,
    both attained, or no price at all when the product has no variant;
    and the sum of their inventory counts, which is 0 in that case. *)
Theorem listing_aggregates :
  forall s q r,
    In r (Search.rows_of (Products.list_products s q)) ->
    let mine :=
      filter (fun v => Db.v_product_id v =? Db.p_id (Products.s_product r))
             (Db.variants s) in
    Products.variant_count r
    = Db.count_variants s (Db.p_id (Products.s_product r))
    /\ Products.total_inventory r
       = fold_right Z.add 0 (map Db.v_inventory_count mine)
    /\ match Products.min_price_cents r, Products.max_price_cents r with
       | Some lo, Some hi =>
           (forall v, In v mine -> lo <= Db.v_price_cents v <= hi)
           /\ In lo (map Db.v_price_cents mine)
           /\ In hi (map Db.v_price_cents mine)
       | None, None => mine = [] /\ Products.total_inventory r = 0
       | _, _ => False
       end.
Proof.
  intros s q r Hr mine. apply listed_iff in Hr.
  destruct Hr as [p [-> _]]. cbn [Products.s_product Products.summarize] in *.
  unfold Products.summarize.
  cbn [Products.variant_count Products.total_inventory
       Products.min_price_cents Products.max_price_cents].
  fold mine. split; [reflexivity|]. split; [apply fold_add_sum|].
  destruct mine as [|v0 rest]; [split; reflexivity|].
  cbn [map Products.aggregate].
  destruct (fold_min_least (map Db.v_price_cents rest) (Db.v_price_cents v0))
    as [L1 [L2 L3]].
  destruct (fold_max_greatest (map Db.v_price_cents rest) (Db.v_price_cents v0))
    as [G1 [G2 G3]].
  split; [|split; assumption].
  intros v [<-|Hv]; [lia|].
  split; [apply L2|apply G2]; now apply in_map.
Qed.

Lemma listing_aggregates_witness :
  exists r,
    In r (Search.rows_of (Products.list_products Example.catalog Search.everything))
    /\ Db.p_id (Products.s_product r) = 1
    /\ Products.variant_count r = Db.count_variants Example.catalog 1
    /\ Products.total_inventory r = 52.
Proof.
  exists (Products.summarize Example.catalog Example.beans).
  assert (Hin : In (Products.summarize Example.catalog Example.beans)
                   (Search.rows_of
                      (Products.list_products Example.catalog Search.everything)))
    by (simpl; auto).
  split; [exact Hin|]. split; [reflexivity|].
  destruct (listing_aggregates Example.catalog Search.everything _ Hin)
    as [Hcount [Htotal _]].
  split; [exact Hcount|]. rewrite Htotal. reflexivity.
Defined.

(** ** Writes that are refused *)

(** X8. update-product, delete-product, update-variant and delete-variant
    return the store they were given whenever their answer is not [Ok];
    and the two product handlers answer [NotFound] exactly when no product
    row has the id, the two variant handlers when no variant row has it. *)
Theorem refused_writes_change_nothing :
  forall s now id,
    (forall fk b,
        match snd (Products.update_product fk s now id b) with
        | Http.Ok _ => True
        | _ => fst (Products.update_product fk s now id b) = s
        end
        /\ (snd (Products.update_product fk s now id b)
            = Http.NotFound "Product not found"
            <-> Db.product_by_id s id = None))
    /\ (match snd (Products.delete_product s now id) with
        | Http.Ok _ => True
        | _ => fst (Products.delete_product s now id) = s
        end
        /\ (snd (Products.delete_product s now id)
            = Http.NotFound "Product not found"
            <-> Db.product_by_id s id = None))
    /\ (forall b,
        match snd (Variants.update_variant s now id b) with
        | Http.Ok _ => True
        | _ => fst (Variants.update_variant s now id b) = s
        end
        /\ (snd (Variants.update_variant s now id b)
            = Http.NotFound "Variant not found"
            <-> Db.variant_by_id s id = None))
    /\ (match snd (Variants.delete_variant s id) with
        | Http.Ok _ => True
        | _ => fst (Variants.delete_variant s id) = s
        end
        /\ (snd (Variants.delete_variant s id)
            = Http.NotFound "Variant not found"
            <-> Db.variant_by_id s id = None)).
Proof.
  intros s now id. split; [|split; [|split]].
  - intros fk b. unfold Products.update_product.
    destruct (Db.product_by_id s id);
      [|split; [reflexivity|split; reflexivity]].
    destruct (Products.update_statement _ _ _ _ _ _ _ _); simpl;
      (split; [auto|split; discriminate]).
  - unfold Products.delete_product.
    destruct (Db.product_by_id s id); simpl;
      (split; [auto|split; try discriminate; reflexivity]).
  - intros b. unfold Variants.update_variant.
    destruct (Db.variant_by_id s id);
      [|split; [reflexivity|split; reflexivity]].
    repeat match goal with
           | |- context [if ?c then (s, _) else _] =>
               destruct c; [simpl; split; [reflexivity|split; discriminate]|]
           end.
    destruct (Variants.update_statement _ _ _); simpl;
      (split; [auto|split; discriminate]).
  - unfold Variants.delete_variant.
    destruct (Db.variant_by_id s id);
      [|split; [reflexivity|split; reflexivity]].
    destruct (_ <=? 1); simpl; (split; [auto|split; discriminate]).
Qed.

(** ** Updating a product, then reading it *)

Section ProductFrames.
Import Db Http Products Payload.

Lemma product_other_after_update (s : store) (id id' : Z)
    (f : product -> product) :
  (forall p, p_id (f p) = p_id p) -> id' <> id ->
  product_by_id (update_products s id f) id' = product_by_id s id'.
Proof.
  intros Hid Hne. unfold product_by_id, update_products; simpl.
  now apply (find_other_after_update p_id).
Qed.

Lemma update_product_ok (fk : bool) (s s' : store) (now id : Z)
    (b : update_body) (r : option joined) :
  update_product fk s now id b = (s', Ok r) ->
  exists p,
    product_by_id s id = Some p
    /\ s' = update_products s id (merged now b)
    /\ r = product_joined s' id
    /\ product_by_id s' id = Some (merged now b p).
Proof.
  intros Hrun. destruct (product_by_id s id) as [p|] eqn:Hp.
  - destruct (update_product_cases fk s now id b p Hp)
      as [[Hfail _]|[Hdone Hrow]]; rewrite Hrun in *.
    + discriminate.
    + injection Hdone as -> ->. now exists p.
  - unfold update_product in Hrun. rewrite Hp in Hrun. discriminate.
Qed.

End ProductFrames.

(** X9. A successful update-product answers with the row that get-product
    then returns. That row is the old one with each supplied, non-null
    field replaced and [updated_at] set; [id], [created_at] and
    [deleted_at] are kept, so a soft-deleted product stays soft-deleted.
    The variant list of the product, every other product row, and the
    variant and category tables are as before. *)
Theorem update_product_then_get :
  forall fk s now id b s' r,
    Products.update_product fk s now id b = (s', Http.Ok r) ->
    exists p,
      Db.product_by_id s id = Some p
      /\ Db.product_by_id s' id = Some (Payload.merged now b p)
      /\ Db.p_deleted_at (Payload.merged now b p) = Db.p_deleted_at p
      /\ Products.get_product s' id
         = Http.Ok {| Products.d_product := r;
                      Products.d_variants := Db.variants_of s id |}
      /\ Db.variants s' = Db.variants s
      /\ Db.categories s' = Db.categories s
      /\ forall id', id' <> id ->
                     Db.product_by_id s' id' = Db.product_by_id s id'.
Proof.
  intros fk s now id b s' r Hrun.
  destruct (update_product_ok fk s s' now id b r Hrun)
    as [p [Hp [-> [-> Hrow]]]].
  exists p. split; [exact Hp|]. split; [exact Hrow|].
  split; [reflexivity|]. split; [|split; [reflexivity|split; [reflexivity|]]].
  - unfold Products.get_product, Db.product_joined. rewrite Hrow. reflexivity.
  - intros id' Hne. now apply product_other_after_update.
Qed.

Lemma update_product_then_get_witness :
  exists s' r,
    Products.update_product true Example.catalog 300 3
      (Example.recategorise 1) = (s', Http.Ok r)
    /\ Products.get_product s' 3
       = Http.Ok {| Products.d_product := r;
                    Products.d_variants := [Example.retired_only] |}
    /\ exists p, Db.product_by_id s' 3 = Some p
                 /\ Db.p_deleted_at p = Some 250
                 /\ Db.p_updated_at p = 300.
Proof.
  destruct (update_product_then_get true Example.catalog 300 3
              (Example.recategorise 1) _ _ eq_refl)
    as [p [Hp [Hrow [Hdel [Hget _]]]]].
  do 2 eexists. split; [reflexivity|]. split; [exact Hget|].
  eexists. split; [exact Hrow|].
  injection Hp as <-. split; reflexivity.
Defined.

(** ** Soft deletion and the rest of the store *)

Section DeleteFrames.
Import Db Http Products Payload Search.

Lemma summarize_same_tables (s s' : store) (p : product) :
  variants s' = variants s -> categories s' = categories s ->
  summarize s' p = summarize s p.
Proof.
  intros Hv Hc. unfold summarize, category_name_of, category_by_id.
  now rewrite Hv, Hc.
Qed.

(** The rows that pass the conditions after the soft delete of [id] are
    those that passed them before and carry another id. *)
Lemma matching_after_delete (q : query) (now id : Z) (rows : list product) :
  filter (matching q)
         (map (fun p => if p_id p =? id then soft_delete now p else p) rows)
  = filter (fun p => matching q p && negb (p_id p =? id)) rows.
Proof.
  induction rows as [|p rows IH]; simpl; [reflexivity|].
  rewrite IH. destruct (p_id p =? id) eqn:E; simpl.
  - rewrite andb_false_r.
    destruct (matching q (soft_delete now p)) eqn:Hm; [|reflexivity].
    apply matching_live in Hm. discriminate.
  - now rewrite andb_true_r.
Qed.

End DeleteFrames.

(** X10. A successful delete-product touches the product row alone: the
    variant and category tables, every other product row and the
    product's own variant list are as before. Its SKUs stay taken: a
    create that carries the SKU of any stored variant, those of the
    deleted product included, is still not answered [Created]. *)
Theorem delete_product_keeps_variants :
  forall s now id s',
    Products.delete_product s now id = (s', Http.Ok Http.Success) ->
    Db.variants s' = Db.variants s
    /\ Db.categories s' = Db.categories s
    /\ Db.variants_of s' id = Db.variants_of s id
    /\ (forall id', id' <> id ->
                    Db.product_by_id s' id' = Db.product_by_id s id')
    /\ (forall w later b vs v,
           In w (Db.variants s) ->
           Products.b_variants b = Js.Arr vs -> In v vs ->
           Payload.sku_of v = Db.v_sku w ->
           match snd (Products.create_product s' later b) with
           | Http.Created _ => False
           | _ => True
           end).
Proof.
  intros s now id s' Hdel. apply delete_product_ok in Hdel.
  destruct Hdel as [p [Hp ->]].
  split; [reflexivity|]. split; [reflexivity|]. split; [reflexivity|]. split.
  - intros id' Hne. now apply product_other_after_update.
  - intros w later b vs v Hw Hvs Hv Hsku.
    destruct (Products.create_product _ later b) as [s2 r] eqn:Hrun.
    destruct r; try exact I. simpl.
    apply create_product_created in Hrun.
    destruct Hrun as [vs' [Hvs' Hnone]].
    rewrite Hvs in Hvs'. injection Hvs' as <-.
    pose proof (validate_none _ vs [] 0%nat Hnone v Hv) as Hfree.
    rewrite Hsku in Hfree. unfold Db.variant_by_sku in Hfree.
    cbn [Db.variants Db.update_products] in Hfree.
    apply (find_none _ _ Hfree) in Hw. rewrite String.eqb_refl in Hw.
    discriminate.
Qed.

Lemma delete_product_keeps_variants_witness :
  exists s',
    Products.delete_product Example.catalog 300 2 = (s', Http.Ok Http.Success)
    /\ Db.variants_of s' 2 = [Example.pepper_only]
    /\ snd (Products.create_product s' 400
              (Example.lentils [Example.item "ABP-4OZ" "Again"]))
       = Http.Conflict (Products.sku_exists "ABP-4OZ").
Proof.
  eexists. split; [reflexivity|].
  destruct (delete_product_keeps_variants Example.catalog 300 2 _ eq_refl)
    as [_ [_ [Hof _]]].
  split; [rewrite Hof; reflexivity|reflexivity].
Defined.

(** X11. After a successful delete-product(id) every listing is the
    listing of the same query before the delete without the row of that
    id, the other rows unchanged and in the same order. *)
Theorem listing_after_delete :
  forall s now id s' q,
    Products.delete_product s now id = (s', Http.Ok Http.Success) ->
    Search.rows_of (Products.list_products s' q)
    = filter (fun r => negb (Db.p_id (Products.s_product r) =? id))
             (Search.rows_of (Products.list_products s q)).
Proof.
  intros s now id s' q Hdel. apply delete_product_ok in Hdel.
  destruct Hdel as [p [Hp ->]].
  rewrite !rows_of_listing. cbn [Db.products Db.update_products].
  rewrite matching_after_delete, filter_map_comm.
  cbn [Products.s_product Products.summarize].
  rewrite (filter_order_by
             (fun a b => Db.p_created_at b <? Db.p_created_at a)).
  - rewrite filter_filter. apply map_ext. intros x.
    now apply summarize_same_tables.
  - intros a b. apply newest_first_asymmetric.
  - intros a b c. apply newest_first_chain.
Qed.

Lemma listing_after_delete_witness :
  map (fun r => Db.p_id (Products.s_product r))
      (Search.rows_of (Products.list_products Example.catalog Search.everything))
  = [2; 1]
  /\ map (fun r => Db.p_id (Products.s_product r))
         (Search.rows_of
            (Products.list_products
               (Db.update_products Example.catalog 2
                  (Products.soft_delete 300))
               Search.everything))
     = [1].
Proof.
  split; [reflexivity|].
  rewrite (listing_after_delete Example.catalog 300 2 _ Search.everything
             eq_refl).
  reflexivity.
Defined.

(** ** Creating a product, then listing *)

Section CreateListing.
Import Db Http Products Payload Search.

(** The rows of older products are summarised as before once the variant
    rows of a new product have been appended. *)
Lemma summarize_older (s s' : store) (now : Z) (vs : list Js.value)
    (rows : list variant) (p : product) :
  categories s' = categories s ->
  variants s' = variants s ++ rows ->
  Forall2 (row_for now (next_id (map p_id (products s)))) vs rows ->
  In p (products s) ->
  summarize s' p = summarize s p.
Proof.
  intros Hc Hv Hrows Hp.
  assert (Hnone : filter (fun v => v_product_id v =? p_id p) rows = []).
  { pose proof (next_id_fresh _ _ (in_map p_id _ _ Hp)) as Hlt.
    clear - Hrows Hlt. induction Hrows as [|v w vs rows Hrow _ IH];
      [reflexivity|]. simpl. destruct Hrow as [-> _].
    destruct (_ =? p_id p) eqn:E; [apply Z.eqb_eq in E; lia|exact IH]. }
  unfold summarize, category_name_of, category_by_id.
  rewrite Hc, Hv, filter_app, Hnone, app_nil_r. reflexivity.
Qed.

End CreateListing.

(** X12. On a store with unique keys a successful create-product adds one
    row to the bare listing and leaves the rows of the other products as
    they were: the new row is that of the created product, is not
    soft-deleted, and counts as many variants as the request has. *)
Theorem create_adds_one_listed_row :
  forall s now b s' d,
    Db.wf s ->
    Products.create_product s now b = (s', Http.Created d) ->
    exists j vs,
      Products.d_product d = Some j
      /\ Products.b_variants b = Js.Arr vs
      /\ Db.p_deleted_at (Db.j_product j) = None
      /\ Products.variant_count (Products.summarize s' (Db.j_product j))
         = Z.of_nat (List.length vs)
      /\ forall r,
          In r (Search.rows_of (Products.list_products s' Search.everything))
          <-> r = Products.summarize s' (Db.j_product j)
              \/ In r (Search.rows_of
                         (Products.list_products s Search.everything)).
Proof.
  intros s now b s' d Hwf Hrun.
  destruct (create_header_inv s s' now b _ Hrun I) as [Hhead [vs [Hvs Hne]]].
  pose proof Hrun as Hloop. apply create_product_created in Hloop.
  destruct Hloop as [vs' [Hvs' Hnone]].
  rewrite Hvs in Hvs'. injection Hvs' as <-.
  rewrite (create_after_header s now b vs Hhead Hvs Hne), Hnone in Hrun.
  destruct (transaction_completes s now
              (Js.trimmed (Products.b_name b))
              (orNull (Products.b_description b))
              (orNull (Products.b_category_id b))
              (Js.string_of (Js.coalesce (Products.b_status b)
                                         (Js.Str "active")))
              vs Hnone) as [s2 [rows [Hdone [Hv [Hp [Hc Hrows]]]]]].
  rewrite Hdone in Hrun. injection Hrun as <- <-.
  pose proof (created_product_found s s2 _ Hp eq_refl) as Hfound.
  cbn [Db.p_id] in Hfound.
  unfold Db.product_joined. rewrite Hfound. cbn [option_map].
  do 2 eexists. split; [reflexivity|]. split; [exact Hvs|].
  cbn [Db.j_product Db.p_deleted_at]. split; [reflexivity|]. split.
  - unfold Products.summarize. cbn [Products.variant_count Db.p_id].
    destruct (rows_of_product now _ vs rows Hrows) as [Hmine _].
    rewrite Hv, filter_app, (no_variant_of_next_product s Hwf), Hmine.
    cbn [app]. f_equal. symmetry. eapply Forall2_length. exact Hrows.
  - intros r. rewrite !listed_iff. split.
    + intros [p [-> [Hin Hm]]]. rewrite Hp in Hin.
      apply in_app_iff in Hin. destruct Hin as [Hin|[<-|[]]].
      * right. exists p. split; [|auto].
        now apply (summarize_older s s2 now vs rows).
      * left. reflexivity.
    + intros [->|[p [-> [Hin Hm]]]].
      * eexists. split; [reflexivity|]. split; [|reflexivity].
        rewrite Hp. apply in_app_iff. right. simpl. auto.
      * exists p. split.
        -- symmetry. now apply (summarize_older s s2 now vs rows).
        -- split; [|exact Hm]. rewrite Hp. apply in_app_iff. now left.
Qed.

Lemma create_adds_one_listed_row_witness :
  exists s' d j,
    Products.create_product Example.catalog 300
      (Example.lentils [Example.item "L-1" "Small"; Example.item "L-2" "Big"])
    = (s', Http.Created d)
    /\ Products.d_product d = Some j
    /\ Products.variant_count (Products.summarize s' (Db.j_product j)) = 2
    /\ In (Products.summarize s' (Db.j_product j))
          (Search.rows_of (Products.list_products s' Search.everything)).
Proof.
  destruct (create_adds_one_listed_row Example.catalog 300
              (Example.lentils [Example.item "L-1" "Small";
                                Example.item "L-2" "Big"])
              _ _ catalog_wf eq_refl)
    as [j [vs [Hj [Hvs [_ [Hcount Hrows]]]]]].
  injection Hvs as <-.
  do 3 eexists. split; [reflexivity|]. split; [exact Hj|].
  split; [exact Hcount|]. apply Hrows. now left.
Defined.

(** ** Updating variants: every outcome *)

Section VariantOutcomes.
Import Db Http Variants Payload Updates.

Lemma text_check (x : Js.value) :
  defined x && Js.blank_or_not_string x = negb (text_or_absent x).
Proof.
  destruct x as [| | | |str| |]; try reflexivity. simpl.
  destruct (Js.trim str); reflexivity.
Qed.

Lemma amount_check (x : Js.value) :
  defined x && Js.negative_or_not_number x = negb (amount_or_absent x).
Proof.
  destruct x as [| | |n| | |]; try reflexivity. simpl.
  now rewrite Z.leb_antisym, negb_involutive.
Qed.

(** With unique SKUs, no other row holds the SKU of a stored row. *)
Lemma own_sku_not_taken (s : store) (id : Z) (existing : variant) :
  wf s -> variant_by_id s id = Some existing ->
  other_variant_by_sku s (v_sku existing) id = None.
Proof.
  intros Hwf Hfind. apply (find_has_key v_id) in Hfind.
  destruct Hfind as [Hin Hid].
  destruct (other_variant_by_sku s (v_sku existing) id) as [w|] eqn:E;
    [|reflexivity].
  unfold other_variant_by_sku in E. apply find_some in E.
  destruct E as [Hw E]. apply andb_true_iff in E. destruct E as [Esku Eid].
  apply String.eqb_eq in Esku. apply negb_true_iff, Z.eqb_neq in Eid.
  assert (w = existing)
    by (apply (NoDup_map_inj v_sku (variants s)); auto; apply Hwf).
  subst w. contradiction.
Qed.

Lemma other_variant_iff (s : store) (sku : string) (id : Z) :
  Products.is_some (other_variant_by_sku s sku id) = true
  <-> exists w, In w (variants s) /\ v_id w <> id /\ v_sku w = sku.
Proof.
  unfold other_variant_by_sku. split.
  - destruct (find _ _) as [w|] eqn:E; [|discriminate]. intros _.
    apply find_some in E. destruct E as [Hw E].
    apply andb_true_iff in E. destruct E as [Esku Eid].
    exists w. split; [exact Hw|]. split.
    + now apply Z.eqb_neq, negb_true_iff.
    + now apply String.eqb_eq.
  - intros [w [Hw [Hid Hsku]]].
    destruct (find _ _) as [w'|] eqn:E; [reflexivity|].
    apply (find_none _ _ E) in Hw. apply Z.eqb_neq in Hid.
    rewrite Hsku, String.eqb_refl, Hid in Hw. discriminate.
Qed.

Lemma statement_throws (s : store) (now id : Z) (b : update_body) :
  existsb (sets_taken_sku s id) (build_updates b ++ [set_updated_at now])
  = defined (b_sku b)
    && Products.is_some (other_variant_by_sku s (Js.trimmed (b_sku b)) id).
Proof.
  unfold build_updates.
  destruct (defined (b_name b)), (defined (b_sku b)),
    (defined (b_price_cents b)), (defined (b_inventory_count b)); simpl;
    try reflexivity;
    destruct (other_variant_by_sku s (Js.trimmed (b_sku b)) id); reflexivity.
Qed.

Lemma no_updates (b : update_body) :
  (List.length (build_updates b) =? 0)%nat = negb (some_field b).
Proof.
  unfold build_updates, some_field.
  destruct (defined (b_name b)), (defined (b_sku b)),
    (defined (b_price_cents b)), (defined (b_inventory_count b));
    reflexivity.
Qed.

(** The handler on an existing variant of a store with unique keys, check
    by check. *)
Lemma update_variant_outcome (s : store) (now id : Z) (b : update_body)
    (existing : variant) :
  wf s -> variant_by_id s id = Some existing ->
  update_variant s now id b
  = if negb (text_or_absent (b_name b))
    then (s, InvalidInput "Variant name must be a non-empty string")
    else if negb (text_or_absent (b_sku b))
    then (s, InvalidInput "SKU must be a non-empty string")
    else if negb (amount_or_absent (b_price_cents b))
    then (s, InvalidInput "price_cents must be a number >= 0")
    else if negb (amount_or_absent (b_inventory_count b))
    then (s, InvalidInput "inventory_count must be a number >= 0")
    else if defined (b_sku b)
            && Products.is_some
                 (other_variant_by_sku s (Js.trimmed (b_sku b)) id)
    then (s, Conflict (Products.sku_exists (Js.trimmed (b_sku b))))
    else if negb (some_field b)
    then (s, InvalidInput "No fields provided to update")
    else (update_variants s id (patched now b),
          Ok (Some (patched now b existing))).
Proof.
  intros Hwf Hfind. unfold update_variant. rewrite Hfind.
  rewrite !text_check, !amount_check, no_updates.
  assert (Hcheck :
            defined (b_sku b)
            && negb (Js.trimmed (b_sku b) =? v_sku existing)%string
            && match other_variant_by_sku s (Js.trimmed (b_sku b)) id with
               | Some _ => true
               | None => false
               end
            = defined (b_sku b)
              && Products.is_some
                   (other_variant_by_sku s (Js.trimmed (b_sku b)) id)).
  { destruct (defined (b_sku b)); [|reflexivity]. cbn [andb].
    destruct (Js.trimmed (b_sku b) =? v_sku existing)%string eqn:E.
    - apply String.eqb_eq in E. rewrite E.
      now rewrite (own_sku_not_taken s id existing Hwf Hfind).
    - reflexivity. }
  rewrite Hcheck. clear Hcheck.
  unfold update_statement. rewrite statement_throws.
  destruct (negb (text_or_absent (b_name b))); [reflexivity|].
  destruct (negb (text_or_absent (b_sku b))); [reflexivity|].
  destruct (negb (amount_or_absent (b_price_cents b))); [reflexivity|].
  destruct (negb (amount_or_absent (b_inventory_count b))); [reflexivity|].
  destruct (defined (b_sku b)
            && Products.is_some
                 (other_variant_by_sku s (Js.trimmed (b_sku b)) id));
    [reflexivity|].
  destruct (negb (some_field b)); [reflexivity|].
  rewrite (update_variants_ext s id _ (patched now b))
    by (intros v; apply assignments_patch).
  rewrite variant_after_update by reflexivity. rewrite Hfind. reflexivity.
Qed.

(** The four ways the handler ends on an existing variant. *)
Lemma update_variant_cases (s : store) (now id : Z) (b : update_body)
    (existing : variant) :
  wf s -> variant_by_id s id = Some existing ->
  (valid_update b = false
   /\ exists e, update_variant s now id b = (s, InvalidInput e))
  \/ (valid_update b = true /\ sku_taken s id b
      /\ update_variant s now id b
         = (s, Conflict (Products.sku_exists (Js.trimmed (b_sku b)))))
  \/ (valid_update b = true /\ ~ sku_taken s id b /\ some_field b = false
      /\ update_variant s now id b
         = (s, InvalidInput "No fields provided to update"))
  \/ (valid_update b = true /\ ~ sku_taken s id b /\ some_field b = true
      /\ update_variant s now id b
         = (update_variants s id (patched now b),
            Ok (Some (patched now b existing)))).
Proof.
  intros Hwf Hfind.
  rewrite (update_variant_outcome s now id b existing Hwf Hfind).
  unfold valid_update, sku_taken.
  pose proof (other_variant_iff s (Js.trimmed (b_sku b)) id) as Hother.
  destruct (text_or_absent (b_name b)); [|left; split; [reflexivity|eexists; reflexivity]].
  destruct (text_or_absent (b_sku b)); [|left; split; [reflexivity|eexists; reflexivity]].
  destruct (amount_or_absent (b_price_cents b)); [|left; split; [reflexivity|eexists; reflexivity]].
  destruct (amount_or_absent (b_inventory_count b)); [|left; split; [reflexivity|eexists; reflexivity]].
  cbn [negb andb]. right.
  destruct (defined (b_sku b)) eqn:Hdef; cbn [andb].
  - destruct (Products.is_some _) eqn:Htaken.
    + left. split; [reflexivity|]. split; [|reflexivity].
      split; [reflexivity|]. now apply Hother.
    + right.
      assert (Hfree : ~ (true = true
                         /\ exists w, In w (variants s) /\ v_id w <> id
                                      /\ v_sku w = Js.trimmed (b_sku b))).
      { intros [_ Hw]. apply Hother in Hw. discriminate. }
      destruct (some_field b); [right|left];
        (split; [reflexivity|split; [exact Hfree|split; reflexivity]]).
  - right.
    assert (Hfree : ~ (false = true
                       /\ exists w, In w (variants s) /\ v_id w <> id
                                    /\ v_sku w = Js.trimmed (b_sku b)))
      by (intros [? _]; discriminate).
    destruct (some_field b); [right|left];
      (split; [reflexivity|split; [exact Hfree|split; reflexivity]]).
Qed.

End VariantOutcomes.

(** X13. update-variant on an existing variant of a store with unique
    keys is answered [Ok] exactly when every supplied field is in order,
    at least one field is supplied, and the supplied SKU, if any, is held
    by no other variant; it is answered [Conflict] exactly when the fields
    are in order and another variant holds the supplied SKU; and it is
    never answered [Internal]: the check made before the write leaves the
    engine nothing to refuse. *)
Theorem update_variant_outcomes :
  forall s now id b existing,
    Db.wf s -> Db.variant_by_id s id = Some existing ->
    ((exists s' r, Variants.update_variant s now id b = (s', Http.Ok r))
     <-> Updates.valid_update b = true /\ Updates.some_field b = true
         /\ ~ Updates.sku_taken s id b)
    /\ ((exists s' e,
            Variants.update_variant s now id b = (s', Http.Conflict e))
        <-> Updates.valid_update b = true /\ Updates.sku_taken s id b)
    /\ (forall s' m,
           Variants.update_variant s now id b <> (s', Http.Internal m)).
Proof.
  intros s now id b existing Hwf Hfind.
  destruct (update_variant_cases s now id b existing Hwf Hfind)
    as [[Hv [e ->]]|[[Hv [Ht ->]]|[[Hv [Hf [Hs ->]]]|[Hv [Hf [Hs ->]]]]]];
    rewrite Hv; (split; [|split]); try (intros; discriminate).
  - split; [intros [? [? ?]]; discriminate|intros [? _]; discriminate].
  - split; [intros [? [? ?]]; discriminate|intros [? _]; discriminate].
  - split; [intros [? [? ?]]; discriminate|]. intros [_ [_ Hf]]. contradiction.
  - split; [auto|]. intros _. do 2 eexists. reflexivity.
  - split; [intros [? [? ?]]; discriminate|].
    intros [_ [? _]]. congruence.
  - split; [intros [? [? ?]]; discriminate|]. intros [_ ?]. contradiction.
  - split; [auto|]. intros _. do 2 eexists. reflexivity.
  - split; [intros [? [? ?]]; discriminate|]. intros [_ ?]. contradiction.
Qed.

Lemma update_variant_outcomes_witness :
  (exists s' e,
      Variants.update_variant Example.catalog 300 3 (Updates.only_sku "BB-6LB")
      = (s', Http.Conflict e))
  /\ exists s' r,
      Variants.update_variant Example.catalog 300 3 (Updates.only_sku "ABP-8OZ")
      = (s', Http.Ok r).
Proof.
  split.
  - apply (proj1 (proj2 (update_variant_outcomes Example.catalog 300 3
                           (Updates.only_sku "BB-6LB") Example.pepper_only
                           catalog_wf eq_refl))).
    split; [reflexivity|]. split; [reflexivity|].
    exists Example.beans_large. simpl. intuition discriminate.
  - apply (proj1 (update_variant_outcomes Example.catalog 300 3
                    (Updates.only_sku "ABP-8OZ") Example.pepper_only
                    catalog_wf eq_refl)).
    split; [reflexivity|]. split; [reflexivity|].
    intros [_ [w [Hw [_ Hsku]]]]. simpl in Hw, Hsku.
    destruct Hw as [<-|[<-|[<-|[<-|[]]]]]; discriminate Hsku.
Defined.

(** X14. On a store with unique keys, the update that sends a variant its
    own SKU, surrounded by white space or not, succeeds: the row keeps
    every column but [updated_at]. *)
Theorem update_variant_own_sku :
  forall s now id existing sku,
    Db.wf s -> Db.variant_by_id s id = Some existing ->
    Js.trim sku = Db.v_sku existing ->
    Db.v_sku existing <> EmptyString ->
    Variants.update_variant s now id (Updates.only_sku sku)
    = (Db.update_variants s id (Payload.patched now (Updates.only_sku sku)),
       Http.Ok (Some
         {| Db.v_id := Db.v_id existing;
            Db.v_product_id := Db.v_product_id existing;
            Db.v_sku := Db.v_sku existing;
            Db.v_name := Db.v_name existing;
            Db.v_price_cents := Db.v_price_cents existing;
            Db.v_inventory_count := Db.v_inventory_count existing;
            Db.v_created_at := Db.v_created_at existing;
            Db.v_updated_at := now |})).
Proof.
  intros s now id existing sku Hwf Hfind Hown Hne.
  rewrite (update_variant_outcome s now id _ existing Hwf Hfind).
  cbn [Updates.only_sku Variants.b_name Variants.b_sku Variants.b_price_cents
       Variants.b_inventory_count Updates.text_or_absent
       Updates.amount_or_absent Payload.nonblank Js.trimmed
       Variants.defined negb andb].
  rewrite Hown.
  assert (Hnb : (Db.v_sku existing =? EmptyString)%string = false)
    by (now apply String.eqb_neq).
  rewrite Hnb. cbn [negb].
  rewrite (own_sku_not_taken s id existing Hwf Hfind). cbn [Products.is_some].
  unfold Updates.some_field, Payload.patched. simpl. rewrite Hown.
  reflexivity.
Qed.

Lemma update_variant_own_sku_witness :
  snd (Variants.update_variant Example.catalog 300 3
         (Updates.only_sku " ABP-4OZ "))
  = Http.Ok (Some {| Db.v_id := 3; Db.v_product_id := 2;
                     Db.v_sku := "ABP-4OZ"; Db.v_name := "4 oz";
                     Db.v_price_cents := 450; Db.v_inventory_count := 7;
                     Db.v_created_at := 200; Db.v_updated_at := 300 |}).
Proof.
  rewrite (update_variant_own_sku Example.catalog 300 3 Example.pepper_only
             " ABP-4OZ " catalog_wf eq_refl eq_refl).
  - reflexivity.
  - discriminate.
Defined.

(** ** Updating or deleting a variant, then reading *)

Section VariantFrames.
Import Db Http Variants Payload.

Lemma variant_other_after_update (s : store) (id id' : Z)
    (f : variant -> variant) :
  (forall v, v_id (f v) = v_id v) -> id' <> id ->
  variant_by_id (update_variants s id f) id' = variant_by_id s id'.
Proof.
  intros Hid Hne. unfold variant_by_id, update_variants; simpl.
  now apply (find_other_after_update v_id).
Qed.

Lemma filter_map_same {A} (keep : A -> bool) (g : A -> A) (l : list A) :
  (forall x, keep (g x) = keep x) ->
  filter keep (map g l) = map g (filter keep l).
Proof.
  intros H. induction l as [|x l IH]; simpl; [reflexivity|].
  rewrite H. destruct (keep x); simpl; now rewrite IH.
Qed.

(** The variant list of a product after an update of one of the rows. *)
Lemma variants_of_after_update (s : store) (id product_id : Z)
    (f : variant -> variant) :
  (forall v, v_product_id (f v) = v_product_id v) ->
  (forall v, v_created_at (f v) = v_created_at v) ->
  variants_of (update_variants s id f) product_id
  = map (fun v => if v_id v =? id then f v else v) (variants_of s product_id).
Proof.
  intros Hp Hc. unfold variants_of, update_variants. cbn [variants].
  rewrite filter_map_same.
  - apply order_by_map. intros a b.
    destruct (v_id a =? id), (v_id b =? id); now rewrite ?Hc.
  - intros v. destruct (v_id v =? id); now rewrite ?Hp.
Qed.

Lemma variant_after_delete (s : store) (id : Z) :
  variant_by_id (delete_variants s id) id = None.
Proof.
  unfold variant_by_id, delete_variants. cbn [variants].
  destruct (find _ _) as [v|] eqn:E; [|reflexivity].
  apply find_some in E. destruct E as [Hin Hid].
  apply filter_In in Hin. destruct Hin as [_ Hne].
  rewrite Hid in Hne. discriminate.
Qed.

Lemma variant_other_after_delete (s : store) (id id' : Z) :
  id' <> id ->
  variant_by_id (delete_variants s id) id' = variant_by_id s id'.
Proof.
  intros Hne. unfold variant_by_id, delete_variants. cbn [variants].
  induction (variants s) as [|v l IH]; simpl; [reflexivity|].
  destruct (v_id v =? id) eqn:E; simpl.
  - apply Z.eqb_eq in E. rewrite IH.
    destruct (v_id v =? id') eqn:E'; [apply Z.eqb_eq in E'; congruence|].
    reflexivity.
  - destruct (v_id v =? id'); [reflexivity|exact IH].
Qed.

End VariantFrames.

(** X15. A successful update-variant answers with the row that
    get-variant then returns. It touches that row alone: the product and
    category tables, every other variant row and the number of variants
    of every product are as before. *)
Theorem update_variant_then_get :
  forall s now id b s' r,
    Variants.update_variant s now id b = (s', Http.Ok r) ->
    exists v,
      r = Some v
      /\ Db.v_id v = id
      /\ Variants.get_variant s' id = Http.Ok v
      /\ Db.products s' = Db.products s
      /\ Db.categories s' = Db.categories s
      /\ (forall id', id' <> id ->
                      Db.variant_by_id s' id' = Db.variant_by_id s id')
      /\ (forall product_id,
             Db.count_variants s' product_id = Db.count_variants s product_id).
Proof.
  intros s now id b s' r Hrun.
  apply update_variant_ok in Hrun.
  destruct Hrun as [existing [Hfind [-> ->]]].
  eexists. split; [reflexivity|]. split.
  - apply (find_has_key Db.v_id) in Hfind. apply Hfind.
  - split.
    + unfold Variants.get_variant.
      rewrite variant_after_update by reflexivity. now rewrite Hfind.
    + split; [reflexivity|]. split; [reflexivity|]. split.
      * intros id' Hne. now apply variant_other_after_update.
      * intros product_id. unfold Db.count_variants, Db.update_variants.
        cbn [Db.variants]. rewrite filter_map_same.
        -- now rewrite length_map.
        -- intros v. destruct (Db.v_id v =? id); reflexivity.
Qed.

Lemma update_variant_then_get_witness :
  exists s' v,
    Variants.update_variant Example.catalog 300 1
      (Example.only_price (Js.Num 777)) = (s', Http.Ok (Some v))
    /\ Variants.get_variant s' 1 = Http.Ok v
    /\ Db.count_variants s' 1 = 2.
Proof.
  destruct (update_variant_then_get Example.catalog 300 1
              (Example.only_price (Js.Num 777)) _ _ eq_refl)
    as [v [Hr [_ [Hget [_ [_ [_ Hcount]]]]]]].
  injection Hr as <-.
  do 2 eexists. split; [reflexivity|]. split; [exact Hget|].
  rewrite Hcount. reflexivity.
Defined.

(** X16. After a successful delete-variant on a store with unique keys,
    get-variant no longer finds the id, its SKU is held by no variant any
    more, every other variant row is found as before, and the variant list
    of each product is the one before the delete without that row. *)
Theorem delete_variant_then_read :
  forall s id s',
    Db.wf s ->
    Variants.delete_variant s id = (s', Http.Ok Http.Success) ->
    exists v,
      Db.variant_by_id s id = Some v
      /\ Variants.get_variant s' id = Http.NotFound "Variant not found"
      /\ Db.variant_by_sku s' (Db.v_sku v) = None
      /\ (forall id', id' <> id ->
                      Db.variant_by_id s' id' = Db.variant_by_id s id')
      /\ (forall product_id,
             Db.variants_of s' product_id
             = filter (fun w => negb (Db.v_id w =? id))
                      (Db.variants_of s product_id))
      /\ Db.products s' = Db.products s.
Proof.
  intros s id s' Hwf Hrun. unfold Variants.delete_variant in Hrun.
  destruct (Db.variant_by_id s id) as [v|] eqn:Hfind; [|discriminate].
  destruct (_ <=? 1); [discriminate|]. injection Hrun as <-.
  exists v. split; [reflexivity|]. split.
  - unfold Variants.get_variant. now rewrite variant_after_delete.
  - split; [|split; [|split; [|reflexivity]]].
    + apply (find_has_key Db.v_id) in Hfind. destruct Hfind as [Hin Hid].
      unfold Db.variant_by_sku, Db.delete_variants. cbn [Db.variants].
      destruct (find _ _) as [w|] eqn:E; [|reflexivity].
      apply find_some in E. destruct E as [Hw Hsku].
      apply filter_In in Hw. destruct Hw as [Hw Hne].
      apply String.eqb_eq in Hsku.
      assert (w = v)
        by (apply (NoDup_map_inj Db.v_sku (Db.variants s)); auto; apply Hwf).
      subst w. rewrite Hid, Z.eqb_refl in Hne. discriminate.
    + intros id' Hne. now apply variant_other_after_delete.
    + intros product_id. unfold Db.variants_of, Db.delete_variants.
      cbn [Db.variants].
      rewrite (filter_order_by
                 (fun a b => Db.v_created_at a <? Db.v_created_at b)).
      * rewrite !filter_filter. f_equal. apply filter_ext.
        intros w. apply andb_comm.
      * intros a b. apply oldest_first_asymmetric.
      * intros a b c. apply oldest_first_chain.
Qed.

Lemma delete_variant_then_read_witness :
  exists s',
    Variants.delete_variant Example.catalog 2 = (s', Http.Ok Http.Success)
    /\ Variants.get_variant s' 2 = Http.NotFound "Variant not found"
    /\ Db.variant_by_sku s' "BB-6LB" = None
    /\ Db.variants_of s' 1 = [Example.beans_small].
Proof.
  destruct (delete_variant_then_read Example.catalog 2 _ catalog_wf eq_refl)
    as [v [Hv [Hget [Hsku [_ [Hof _]]]]]].
  injection Hv as <-.
  eexists. split; [reflexivity|]. split; [exact Hget|].
  split; [exact Hsku|]. rewrite Hof. reflexivity.
Defined.

(** ** The detail page after an inline edit *)

(** X17. On a store with unique keys, merging the answer of a successful
    update-variant into the detail that the page holds, as
    [handleVariantUpdated] does, gives the detail that get-product
    answers after the update: the page needs no refetch. *)
Theorem merged_detail_is_refetched_detail :
  forall s now id b s' updated product_id d,
    Db.wf s ->
    Products.get_product s product_id = Http.Ok d ->
    Variants.update_variant s now id b = (s', Http.Ok (Some updated)) ->
    exists d',
      Pages.handleVariantUpdated updated (Some d) = Some d'
      /\ Products.get_product s' product_id = Http.Ok d'.
Proof.
  intros s now id b s' updated product_id d Hwf Hget Hrun.
  apply update_variant_ok in Hrun.
  destruct Hrun as [existing [Hfind [-> Hupd]]]. injection Hupd as ->.
  unfold Products.get_product in *.
  change (Db.product_joined
            (Db.update_variants s id (Payload.patched now b)) product_id)
    with (Db.product_joined s product_id).
  destruct (Db.product_joined s product_id) as [j|]; [|discriminate].
  injection Hget as <-. eexists. split; [reflexivity|].
  cbn [Products.d_product Products.d_variants Db.v_id Payload.patched].
  rewrite variants_of_after_update by reflexivity.
  f_equal. f_equal. apply map_ext_in. intros v Hv.
  apply (find_has_key Db.v_id) in Hfind. destruct Hfind as [Hin Hid].
  rewrite Hid.
  destruct (Db.v_id v =? id) eqn:E; [|reflexivity].
  apply Z.eqb_eq in E. f_equal.
  unfold Db.variants_of in Hv. apply In_order_by in Hv.
  apply filter_In in Hv. destruct Hv as [Hv _].
  apply (unique_key_inj Db.v_id (Db.variants s)); auto; [apply Hwf|congruence].
Qed.

Lemma merged_detail_is_refetched_detail_witness :
  exists d s' updated d',
    Products.get_product Example.catalog 1 = Http.Ok d
    /\ Variants.update_variant Example.catalog 300 2
         (Example.only_inventory (Js.Num 5)) = (s', Http.Ok (Some updated))
    /\ Pages.handleVariantUpdated updated (Some d) = Some d'
    /\ Products.get_product s' 1 = Http.Ok d'.
Proof.
  destruct (merged_detail_is_refetched_detail Example.catalog 300 2
              (Example.only_inventory (Js.Num 5)) _ _ 1 _
              catalog_wf eq_refl eq_refl) as [d' [Hmerge Hget]].
  do 4 eexists. split; [reflexivity|]. split; [reflexivity|].
  split; [exact Hmerge|exact Hget].
Defined.

(** ** The variant rows of the create form *)

Section FormRows.
Import Pages.

Lemma with_field_key (v : VariantFormRow) (field : column) (value : string) :
  key (with_field v field value) = key v.
Proof. destruct field; reflexivity. Qed.

Lemma rows_after_remove (k : Z) (rows : list VariantFormRow) :
  NoDup (map key rows) ->
  existsb (fun v => key v =? k) rows = true ->
  S (List.length (filter (fun v => negb (key v =? k)) rows))
  = List.length rows.
Proof.
  induction rows as [|v rows IH]; simpl; intros Hnd Hk; [discriminate|].
  inversion Hnd as [|? ? Hv Hrest]; subst.
  destruct (key v =? k) eqn:E; simpl.
  - f_equal. f_equal. apply forallb_filter_id. apply forallb_forall.
    intros w Hw. apply negb_true_iff, Z.eqb_neq. intros Hwk.
    apply Hv. apply Z.eqb_eq in E. rewrite E, <- Hwk. now apply in_map.
  - f_equal. now apply IH.
Qed.

Lemma on_keeps_keyed (st : form) (e : event) : keyed st -> keyed (on st e).
Proof.
  intros [Hlen [Hnd Hlt]]. destruct e as [|k|k field value]; simpl.
  - unfold keyed, addVariant. cbn [variants nextKey].
    rewrite length_app, map_app. simpl. split; [lia|]. split.
    + apply NoDup_snoc; [exact Hnd|]. intros Hin.
      apply in_map_iff in Hin. destruct Hin as [v [Hk Hv]].
      rewrite Forall_forall in Hlt. apply Hlt in Hv. lia.
    + apply Forall_app. split.
      * eapply Forall_impl; [|exact Hlt]. simpl. intros; lia.
      * constructor; [simpl; lia|constructor].
  - destruct ((1 <? List.length (variants st))%nat && _) eqn:Hguard;
      [|now repeat split].
    apply andb_true_iff in Hguard. destruct Hguard as [Hmany Hk].
    apply Nat.ltb_lt in Hmany.
    unfold keyed, removeVariant. cbn [variants nextKey].
    pose proof (rows_after_remove k _ Hnd Hk) as Hone.
    split; [lia|]. split.
    + now apply NoDup_map_filter.
    + rewrite Forall_forall in *. intros v Hv. apply filter_In in Hv.
      now apply Hlt.
  - unfold keyed, updateVariant. cbn [variants nextKey].
    rewrite length_map. split; [exact Hlen|]. split.
    + rewrite (keys_after_update key); [exact Hnd|].
      intros v. apply with_field_key.
    + rewrite Forall_forall in *. intros v Hv. apply in_map_iff in Hv.
      destruct Hv as [w [<- Hw]].
      destruct (key w =? k); [rewrite with_field_key|]; now apply Hlt.
Qed.

End FormRows.

(** X18. As long as the page renders between any two events on the
    variant rows (every batch between two renders holds at most one
    addition, removal or edit), the form keeps at least one variant row,
    the keys of its rows stay pairwise distinct, and [nextKey] stays above
    all of them. The render is needed: two additions handled before the
    next render give their two rows the same key, and two removals handled
    before the next render empty a form of two rows. *)
Theorem form_rows_stay_keyed :
  (forall tasks,
      Forall (fun events => (List.length events <= 1)%nat) tasks ->
      Pages.keyed (Pages.run tasks))
  /\ (forall rendered st,
         ~ NoDup (map Pages.key
                      (Pages.variants
                         (Pages.handle rendered
                            (Pages.handle rendered st Pages.Add) Pages.Add))))
  /\ (forall a b n,
         Pages.key a <> Pages.key b ->
         Pages.variants
           (Pages.task {| Pages.variants := [a; b]; Pages.nextKey := n |}
                       [Pages.Remove (Pages.key a); Pages.Remove (Pages.key b)])
         = []).
Proof.
  split; [|split].
  - assert (H : forall tasks st,
               Forall (fun events => (List.length events <= 1)%nat) tasks ->
               Pages.keyed st ->
               Pages.keyed (fold_left Pages.task tasks st)).
    { induction tasks as [|events tasks IH]; intros st Hall Hst;
        [exact Hst|].
      inversion Hall as [|? ? Hone Hrest]; subst.
      simpl. apply IH; [exact Hrest|].
      destruct events as [|e [|e' events]]; [exact Hst| |simpl in Hone; lia].
      apply (on_keeps_keyed st e Hst). }
    intros tasks Hall. apply H; [exact Hall|].
    unfold Pages.keyed, Pages.initial.
    cbn [Pages.variants Pages.nextKey List.length map].
    split; [lia|]. split.
    + constructor; [intros []|constructor].
    + constructor; [cbn [Pages.key Pages.emptyVariant]; lia|constructor].
  - intros rendered st Hnd.
    cbn [Pages.handle Pages.addVariant Pages.variants] in Hnd.
    rewrite !map_app in Hnd. cbn [map Pages.key Pages.emptyVariant] in Hnd.
    rewrite <- app_assoc in Hnd. apply NoDup_app_remove_l in Hnd.
    inversion Hnd as [|? ? Hin _]. apply Hin. simpl. auto.
  - intros a b n Hne.
    cbn [Pages.task fold_left Pages.handle Pages.variants List.length existsb].
    rewrite !Z.eqb_refl.
    destruct (Pages.key b =? Pages.key a) eqn:E;
      [apply Z.eqb_eq in E; congruence|].
    rewrite orb_true_r.
    cbn [Nat.ltb Nat.leb andb orb Pages.removeVariant Pages.variants filter].
    rewrite !Z.eqb_refl, E. cbn [negb filter].
    rewrite Z.eqb_refl. reflexivity.
Qed.

Lemma form_rows_stay_keyed_witness :
  map Pages.key
      (Pages.variants
         (Pages.run [[Pages.Add]; [Pages.Add]; [Pages.Remove 1]]))
  = [0; 2]
  /\ Pages.keyed (Pages.run [[Pages.Add]; [Pages.Add]; [Pages.Remove 1]])
  /\ map Pages.key
         (Pages.variants (Pages.run [[Pages.Add; Pages.Add]]))
     = [0; 1; 1].
Proof.
  split; [reflexivity|]. split; [|reflexivity].
  apply (proj1 form_rows_stay_keyed).
  repeat constructor.
Defined.

(** X19. On a form whose rows have pairwise distinct keys, removing a row
    while there are two or more drops that row and no other, and typing
    into a field of a row rewrites that field of that row and nothing
    else. *)
Theorem form_events_touch_one_row :
  forall st v,
    NoDup (map Pages.key (Pages.variants st)) ->
    In v (Pages.variants st) ->
    ((2 <= List.length (Pages.variants st))%nat ->
     S (List.length (Pages.variants (Pages.on st (Pages.Remove (Pages.key v)))))
     = List.length (Pages.variants st)
     /\ forall w,
         In w (Pages.variants (Pages.on st (Pages.Remove (Pages.key v))))
         <-> In w (Pages.variants st) /\ w <> v)
    /\ forall field value,
        Pages.variants (Pages.on st (Pages.Type_ (Pages.key v) field value))
        = map (fun w => if Pages.key w =? Pages.key v
                        then Pages.with_field v field value else w)
              (Pages.variants st)
        /\ forall w,
            In w (Pages.variants st) -> w <> v ->
            In w (Pages.variants
                    (Pages.on st (Pages.Type_ (Pages.key v) field value))).
Proof.
  intros st v Hnd Hv. split.
  - intros Hmany.
    assert (Hk : existsb (fun w => Pages.key w =? Pages.key v)
                         (Pages.variants st) = true).
    { apply existsb_exists. exists v. split; [exact Hv|apply Z.eqb_refl]. }
    cbn [Pages.on Pages.handle]. rewrite Hk.
    assert (Hguard : (1 <? List.length (Pages.variants st))%nat = true)
      by (apply Nat.ltb_lt; lia).
    rewrite Hguard. cbn [andb Pages.removeVariant Pages.variants]. split.
    + now apply rows_after_remove.
    + intros w. rewrite (in_after_delete Pages.key).
      split; intros [Hw Hne]; split; auto.
      * intros ->. now apply Hne.
      * intros E. apply Hne.
        now apply (unique_key_inj Pages.key (Pages.variants st)).
  - intros field value.
    cbn [Pages.on Pages.handle Pages.updateVariant Pages.variants].
    split.
    + apply map_ext_in. intros w Hw.
      destruct (Pages.key w =? Pages.key v) eqn:E; [|reflexivity].
      apply Z.eqb_eq in E. f_equal.
      now apply (unique_key_inj Pages.key (Pages.variants st)).
    + intros w Hw Hne. apply in_map_iff. exists w. split; [|exact Hw].
      destruct (Pages.key w =? Pages.key v) eqn:E; [|reflexivity].
      apply Z.eqb_eq in E. exfalso. apply Hne.
      now apply (unique_key_inj Pages.key (Pages.variants st)).
Qed.

Lemma form_events_touch_one_row_witness :
  map Pages.key
      (Pages.variants
         (Pages.on (fold_left Pages.on [Pages.Add; Pages.Add] Pages.initial)
                   (Pages.Remove 1)))
  = [0; 2]
  /\ S (List.length
          (Pages.variants
             (Pages.on (fold_left Pages.on [Pages.Add; Pages.Add] Pages.initial)
                       (Pages.Remove 1))))
     = 3%nat.
Proof.
  split; [reflexivity|].
  apply (proj1 (form_events_touch_one_row
                  (fold_left Pages.on [Pages.Add; Pages.Add] Pages.initial)
                  (Pages.emptyVariant 1)
                  ltac:(repeat constructor; simpl; intuition discriminate)
                  ltac:(simpl; auto))).
  simpl. lia.
Defined.

(** ** Any sequence of write requests *)

Section Requests.
Import Db Http Payload Updates.

Lemma count_after_append (s s' : store) (rows : list variant)
    (product_id : Z) :
  variants s' = variants s ++ rows ->
  count_variants s' product_id
  = count_variants s product_id
    + Z.of_nat (List.length
                  (filter (fun v => v_product_id v =? product_id) rows)).
Proof.
  intros Hv. unfold count_variants.
  rewrite Hv, filter_app, length_app. lia.
Qed.

Lemma create_keeps_stocked (s : store) (now : Z) (b : Products.create_body) :
  stocked s -> stocked (fst (Products.create_product s now b)).
Proof.
  intros Hst. pose proof (create_product_atomic s now b) as Hatomic.
  destruct (Products.create_product s now b) as [s' r] eqn:Hrun.
  cbn [fst snd] in *.
  destruct r; try (subst s'; exact Hst). clear Hatomic.
  destruct (create_header_inv s s' now b _ Hrun I) as [Hhead [vs [Hvs Hne]]].
  pose proof Hrun as Hloop. apply create_product_created in Hloop.
  destruct Hloop as [vs' [Hvs' Hnone]].
  rewrite Hvs in Hvs'. injection Hvs' as <-.
  rewrite (create_after_header s now b vs Hhead Hvs Hne), Hnone in Hrun.
  destruct (transaction_completes s now
              (Js.trimmed (Products.b_name b))
              (orNull (Products.b_description b))
              (orNull (Products.b_category_id b))
              (Js.string_of (Js.coalesce (Products.b_status b)
                                         (Js.Str "active")))
              vs Hnone) as [s2 [rows [Hdone [Hv [Hp [_ Hrows]]]]]].
  rewrite Hdone in Hrun. injection Hrun as <- _.
  intros p Hin. rewrite (count_after_append s s2 rows _ Hv).
  rewrite Hp in Hin. apply in_app_iff in Hin.
  destruct Hin as [Hin|[<-|[]]].
  - specialize (Hst p Hin). lia.
  - cbn [p_id].
    destruct (rows_of_product now _ vs rows Hrows) as [-> _].
    apply Forall2_length in Hrows.
    destruct vs; [contradiction|]. simpl in Hrows.
    pose proof (Zle_0_nat (List.length
                             (filter (fun v => v_product_id v =?
                                        next_id (map p_id (products s)))
                                     (variants s)))).
    unfold count_variants. rewrite <- Hrows. lia.
Qed.

Lemma stocked_after_update_products (s : store) (id : Z)
    (f : product -> product) :
  (forall p, p_id (f p) = p_id p) ->
  stocked s -> stocked (update_products s id f).
Proof.
  intros Hid Hst p Hin. cbn [update_products products] in Hin.
  apply in_map_iff in Hin. destruct Hin as [p0 [<- Hp0]].
  change (count_variants (update_products s id f))
    with (count_variants s).
  destruct (p_id p0 =? id); [rewrite Hid|]; now apply Hst.
Qed.

Lemma count_after_update (s : store) (id product_id : Z)
    (f : variant -> variant) :
  (forall v, v_product_id (f v) = v_product_id v) ->
  count_variants (update_variants s id f) product_id
  = count_variants s product_id.
Proof.
  intros Hp. unfold count_variants, update_variants. cbn [variants].
  rewrite filter_map_same.
  - now rewrite length_map.
  - intros v. destruct (v_id v =? id); now rewrite ?Hp.
Qed.

Lemma update_variant_store (s : store) (now id : Z)
    (b : Variants.update_body) :
  fst (Variants.update_variant s now id b) = s
  \/ fst (Variants.update_variant s now id b)
     = update_variants s id (patched now b).
Proof.
  destruct (Variants.update_variant s now id b) as [s' r] eqn:Hrun.
  destruct r as [r| | | | |].
  - right. apply update_variant_ok in Hrun.
    destruct Hrun as [_ [_ [-> _]]]. reflexivity.
  - left. revert Hrun. unfold Variants.update_variant.
    destruct (variant_by_id s id); [|discriminate].
    repeat match goal with
           | |- (if ?c then _ else _) = _ -> _ => destruct c; [discriminate|]
           end.
    destruct (Variants.update_statement _ _ _); discriminate.
  - left. revert Hrun. unfold Variants.update_variant.
    destruct (variant_by_id s id); [|discriminate].
    repeat match goal with
           | |- (if ?c then _ else _) = _ -> _ =>
               destruct c; [intros H; now injection H as <- _|]
           end.
    destruct (Variants.update_statement _ _ _); discriminate.
  - left. revert Hrun. unfold Variants.update_variant.
    destruct (variant_by_id s id); [|intros H; now injection H as <- _].
    repeat match goal with
           | |- (if ?c then _ else _) = _ -> _ => destruct c; [discriminate|]
           end.
    destruct (Variants.update_statement _ _ _); discriminate.
  - left. revert Hrun. unfold Variants.update_variant.
    destruct (variant_by_id s id); [|discriminate].
    repeat match goal with
           | |- (if ?c then _ else _) = _ -> _ =>
               destruct c; [intros H; first [discriminate H
                                            |now injection H as <- _]|]
           end.
    destruct (Variants.update_statement _ _ _); discriminate.
  - left. revert Hrun. unfold Variants.update_variant.
    destruct (variant_by_id s id); [|discriminate].
    repeat match goal with
           | |- (if ?c then _ else _) = _ -> _ => destruct c; [discriminate|]
           end.
    destruct (Variants.update_statement _ _ _);
      [discriminate|intros H; now injection H as <- _].
Qed.

Lemma serve_keeps_wf (s : store) (c : Api.call) : wf s -> wf (Api.serve s c).
Proof.
  intros Hwf. destruct c as [now b|fk now id b|now id|now id b|id];
    cbn [Api.serve].
  - apply (handlers_keep_wf s now 0 Hwf).
  - apply (handlers_keep_wf s now id Hwf).
  - apply (handlers_keep_wf s now id Hwf).
  - apply (handlers_keep_wf s now id Hwf).
  - apply (handlers_keep_wf s 0 id Hwf).
Qed.

Lemma serve_keeps_stocked (s : store) (c : Api.call) :
  wf s -> stocked s -> stocked (Api.serve s c).
Proof.
  intros Hwf Hst. destruct c as [now b|fk now id b|now id|now id b|id];
    cbn [Api.serve].
  - now apply create_keeps_stocked.
  - unfold Products.update_product.
    destruct (product_by_id s id); [|exact Hst].
    unfold Products.update_statement.
    destruct (fk && _); [exact Hst|]. cbn [fst].
    now apply stocked_after_update_products.
  - unfold Products.delete_product.
    destruct (product_by_id s id); [|exact Hst]. cbn [fst].
    now apply stocked_after_update_products.
  - destruct (update_variant_store s now id b) as [->| ->]; [exact Hst|].
    intros p Hin. rewrite count_after_update by reflexivity. now apply Hst.
  - intros p Hin.
    assert (Hp : products (fst (Variants.delete_variant s id)) = products s).
    { unfold Variants.delete_variant.
      destruct (variant_by_id s id); [|reflexivity].
      destruct (_ <=? 1); reflexivity. }
    rewrite Hp in Hin. apply delete_variant_keeps_one; auto.
Qed.

End Requests.

(** X20. From a store with unique ids and SKUs, in which every variant
    belongs to a product row and every product row has a variant, any
    sequence of write requests, whatever their bodies and answers, leads
    to a store of the same kind: keys and SKUs stay unique, no variant is
    orphaned, and no product is left without a variant. *)
Theorem requests_keep_store_sound :
  forall calls s,
    Db.wf s -> Updates.stocked s ->
    Db.wf (fold_left Api.serve calls s)
    /\ Updates.stocked (fold_left Api.serve calls s).
Proof.
  induction calls as [|c calls IH]; intros s Hwf Hst; [now split|].
  simpl. apply IH.
  - now apply serve_keeps_wf.
  - now apply serve_keeps_stocked.
Qed.

Lemma catalog_stocked : Updates.stocked Example.catalog.
Proof.
  intros p [<-|[<-|[<-|[]]]]; vm_compute; discriminate.
Qed.

Lemma requests_keep_store_sound_witness :
  Db.wf (fold_left Api.serve
           [Api.CreateProduct 300 (Example.lentils [Example.item "L-1" "S"]);
            Api.DeleteVariant 3; Api.DeleteVariant 2; Api.DeleteProduct 310 1;
            Api.UpdateVariant 320 1 (Updates.only_sku "L-1")]
           Example.catalog)
  /\ Db.count_variants
       (fold_left Api.serve
          [Api.CreateProduct 300 (Example.lentils [Example.item "L-1" "S"]);
           Api.DeleteVariant 3; Api.DeleteVariant 2; Api.DeleteProduct 310 1;
           Api.UpdateVariant 320 1 (Updates.only_sku "L-1")]
          Example.catalog) 2 = 1.
Proof.
  split; [|reflexivity].
  apply (requests_keep_store_sound _ Example.catalog catalog_wf catalog_stocked).
Defined.

(** ** The detail of a product *)

(** X21. get-product answers [NotFound] exactly when no product row has
    the id, and answers [Ok] whenever a row has it, soft-deleted rows
    counting as rows. The answer carries a row of that id (the row, ids
    being unique). Its category name is set exactly when a category row
    has the id the product refers to, and is then the name of such a row
    (of the row, category ids being unique); it is null when the product
    refers to no category or to an id without a row. The variants are the
    variant rows of that product, each once, oldest first. *)
Theorem get_product_detail :
  forall s id,
    (Products.get_product s id = Http.NotFound "Product not found"
     <-> forall p, In p (Db.products s) -> Db.p_id p <> id)
    /\ (forall p, In p (Db.products s) -> Db.p_id p = id ->
        exists d, Products.get_product s id = Http.Ok d)
    /\ forall d,
        Products.get_product s id = Http.Ok d ->
        exists j,
          Products.d_product d = Some j
          /\ In (Db.j_product j) (Db.products s)
          /\ Db.p_id (Db.j_product j) = id
          /\ (NoDup (map Db.p_id (Db.products s)) ->
              forall p, In p (Db.products s) -> Db.p_id p = id ->
                        Db.j_product j = p)
          /\ (forall cname,
                 Db.category_name j = Some cname ->
                 exists cid c,
                   Db.p_category_id (Db.j_product j) = Some cid
                   /\ In c (Db.categories s)
                   /\ Db.c_id c = cid /\ Db.c_name c = cname)
          /\ (forall cid c,
                 Db.p_category_id (Db.j_product j) = Some cid ->
                 In c (Db.categories s) -> Db.c_id c = cid ->
                 exists cname, Db.category_name j = Some cname)
          /\ (NoDup (map Db.c_id (Db.categories s)) ->
              forall cid c,
                Db.p_category_id (Db.j_product j) = Some cid ->
                In c (Db.categories s) -> Db.c_id c = cid ->
                Db.category_name j = Some (Db.c_name c))
          /\ Permutation (Products.d_variants d)
                         (filter (fun v => Db.v_product_id v =? id)
                                 (Db.variants s))
          /\ StronglySorted
               (fun a b => Db.v_created_at a <= Db.v_created_at b)
               (Products.d_variants d).
Proof.
  intros s id. unfold Products.get_product, Db.product_joined.
  split; [|split].
  - unfold Db.product_by_id.
    destruct (find _ (Db.products s)) as [p|] eqn:E; simpl.
    + split; [discriminate|]. intros Hnone. exfalso.
      apply (find_has_key Db.p_id) in E. destruct E as [Hin Hid].
      now apply (Hnone p).
    + split; [|reflexivity]. intros _ p Hin Hid.
      apply (find_none _ _ E) in Hin. apply Z.eqb_neq in Hin. contradiction.
  - intros p Hin Hid. unfold Db.product_by_id.
    destruct (find _ (Db.products s)) as [p'|] eqn:E; simpl.
    + eexists. reflexivity.
    + apply (find_none _ _ E) in Hin. apply Z.eqb_neq in Hin. contradiction.
  - intros d. destruct (Db.product_by_id s id) as [p|] eqn:E; simpl;
      [|discriminate].
    intros H. injection H as <-. eexists. split; [reflexivity|].
    cbn [Db.j_product Db.category_name Products.d_variants].
    apply (find_has_key Db.p_id) in E. destruct E as [Hin Hid].
    split; [exact Hin|]. split; [exact Hid|].
    split; [|split; [|split; [|split; [|split]]]].
    + intros Hnd p' Hin' Hid'.
      apply (unique_key_inj Db.p_id (Db.products s)); auto. congruence.
    + intros cname Hname. unfold Db.category_name_of in Hname.
      destruct (Db.p_category_id p) as [cid|]; [|discriminate].
      unfold Db.category_by_id in Hname.
      destruct (find _ (Db.categories s)) as [c|] eqn:Ec; [|discriminate].
      apply (find_has_key Db.c_id) in Ec. destruct Ec as [Hc Hcid].
      injection Hname as <-. now exists cid, c.
    + intros cid c Hcat Hc Hcid. unfold Db.category_name_of, Db.category_by_id.
      rewrite Hcat.
      destruct (find _ (Db.categories s)) as [c'|] eqn:Ec.
      * eexists. reflexivity.
      * apply (find_none _ _ Ec) in Hc. apply Z.eqb_neq in Hc. contradiction.
    + intros Hnd cid c Hcat Hc Hcid.
      unfold Db.category_name_of, Db.category_by_id. rewrite Hcat, <- Hcid.
      now rewrite (find_by_unique_key Db.c_id (Db.categories s) c Hnd Hc).
    + apply order_by_perm.
    + rewrite <- (map_id (Db.variants_of s id)).
      apply (StronglySorted_map
               (fun a b => (Db.v_created_at b <? Db.v_created_at a) = false)).
      * intros a b H. now apply Z.ltb_ge.
      * apply (order_by_in_order
                 (fun a b => Db.v_created_at a <? Db.v_created_at b)).
        -- intros a b. apply oldest_first_asymmetric.
        -- intros a b c. apply oldest_first_chain.
Qed.

Lemma get_product_detail_witness :
  exists d j,
    Products.get_product Example.catalog 3 = Http.Ok d
    /\ Products.d_product d = Some j
    /\ Db.j_product j = Example.retired
    /\ Db.category_name j = Some "Dry Goods"
    /\ Permutation (Products.d_variants d) [Example.retired_only].
Proof.
  destruct (proj1 (proj2 (get_product_detail Example.catalog 3))
              Example.retired) as [d Hd];
    [simpl; auto|reflexivity|].
  destruct (proj2 (proj2 (get_product_detail Example.catalog 3)) d Hd)
    as [j [Hj [_ [_ [Hrow [_ [_ [Hname [Hperm _]]]]]]]]].
  assert (Hp : Db.j_product j = Example.retired).
  { apply Hrow; [|simpl; auto|reflexivity].
    repeat constructor; simpl; intuition discriminate. }
  exists d, j. split; [exact Hd|]. split; [exact Hj|]. split; [exact Hp|].
  split; [|exact Hperm].
  apply (Hname (NoDup_cons 1 (fun H : In 1 [] => H) (NoDup_nil Z))
                1 Example.dry_goods);
    [rewrite Hp; reflexivity|simpl; auto|reflexivity].
Defined.
